(** * vscode-openapi: editor refresh and audit issue mapping

    A shallow embedding of [src/extension.ts] (the editor side:
    [updateVersionContext], [onActiveEditorChanged], [onDocumentChanged],
    the close handler of [activate], and [updateDiagnostics] of the later
    revision of the file) and of the audit side ([findIssueLocation],
    [processIssues], [auditDocument]).

    JavaScript objects used as dictionaries are modelled twice, following
    what the code does with them:
    - objects created by [{}] whose properties are read with [o[k]] and
      enumerated ([Object.keys], [Object.entries], [for...in]) are lists of
      own properties in creation order ([JsObject]), with the names they
      inherit from [Object.prototype] and the enumeration order of
      JavaScript (array indices first);
    - the collaborators' stores that are only written and read by key (the
      [setContext] values and the [DiagnosticCollection]) are [gmap]s.

    Control effects follow the source: a property access on [undefined]
    throws a [TypeError], a rejected promise is [Rejected], and the calls to
    the workspace and to the cache are recorded in an explicit log. *)

From Stdlib Require Import String Ascii List Bool Arith NArith Lia.
From Stdlib Require Import Permutation.
From stdpp Require Import base option list strings gmap.

Set Default Proof Using "Type".

(** ** Outcomes of JavaScript code *)

Inductive JsError : Type :=
| TypeError   (* property access or destructuring of undefined *)
| Rejected.   (* a rejected promise of a collaborator *)

Inductive Outcome (A : Type) : Type :=
| Returned (a : A)
| Thrown (e : JsError).

Arguments Returned {A} a.
Arguments Thrown {A} e.

#[global] Instance outcome_ret : MRet Outcome := fun A a => Returned a.

#[global] Instance outcome_bind : MBind Outcome := fun A B f m =>
  match m with
  | Returned a => f a
  | Thrown e => Thrown e
  end.

(** [Eff S A]: code that may throw and that acts on a store [S]; the store
    reached when the code throws is kept. *)
Definition Eff (S A : Type) : Type := S -> Outcome A * S.

Definition eff_ret {S A} (a : A) : Eff S A := fun s => (Returned a, s).

Definition eff_bind {S A B} (m : Eff S A) (f : A -> Eff S B) : Eff S B :=
  fun s =>
    match m s with
    | (Returned a, s') => f a s'
    | (Thrown e, s') => (Thrown e, s')
    end.

Definition eff_lift {S A} (o : Outcome A) : Eff S A := fun s => (o, s).

Definition eff_modify {S} (f : S -> S) : Eff S unit := fun s => (Returned tt, f s).

#[global] Instance eff_mret {S} : MRet (Eff S) := fun A => @eff_ret S A.

#[global] Instance eff_mbind {S} : MBind (Eff S) := fun A B f m => eff_bind m f.

(** [for (const x of xs) body] with the loop variables threaded as [acc]. *)
Fixpoint forOf {S A X} (body : A -> X -> Eff S A) (xs : list X) (acc : A)
  : Eff S A :=
  match xs with
  | [] => eff_ret acc
  | x :: xs' => acc' ← body acc x; forOf body xs' acc'
  end.

(** The same loop for a body that touches no store. *)
Fixpoint forOfPure {A X} (body : A -> X -> Outcome A) (xs : list X) (acc : A)
  : Outcome A :=
  match xs with
  | [] => Returned acc
  | x :: xs' => body acc x ≫= forOfPure body xs'
  end.

(** ** JavaScript objects with enumerable string keys *)

Module JsObject.

(** The own properties of an object created by [{}], in the order they were
    created. Such an object inherits from [Object.prototype]. *)
Definition t (V : Type) : Type := list (string * V).

Definition empty {V} : t V := [].

(** The own property [k], [None] when the object has none. *)
Fixpoint get {V} (o : t V) (k : string) : option V :=
  match o with
  | [] => None
  | (k', v) :: o' => if String.eqb k' k then Some v else get o' k
  end.

(** Writing the own property [k], as the computed key of [{ [k]: v }] does:
    an existing property keeps its place, a new one goes last. *)
Fixpoint set {V} (o : t V) (k : string) (v : V) : t V :=
  match o with
  | [] => [(k, v)]
  | (k', v') :: o' =>
      if String.eqb k' k then (k', v) :: o' else (k', v') :: set o' k v
  end.

(** The own property names in creation order. *)
Definition keys {V} (o : t V) : list string := map fst o.

(** The own properties in creation order. *)
Definition entries {V} (o : t V) : list (string * V) := o.

(** The property names of [Object.prototype]: eleven functions and the
    accessor [__proto__]. *)
Definition prototypeNames : list string :=
  ["constructor"; "__defineGetter__"; "__defineSetter__"; "hasOwnProperty";
   "__lookupGetter__"; "__lookupSetter__"; "isPrototypeOf";
   "propertyIsEnumerable"; "toString"; "valueOf"; "__proto__"; "toLocaleString"].

Definition inherited (k : string) : bool := existsb (String.eqb k) prototypeNames.

(** No own property of [o] has a name of [Object.prototype]. *)
Definition plainNames {V} (o : t V) : Prop :=
  forall k, In k (keys o) -> inherited k = false.

(** What the expression [o[k]] evaluates to: the own property, else the
    value inherited from [Object.prototype] (a function, or
    [Object.prototype] itself for [__proto__]: truthy, not iterable and
    without a [push]), else [undefined]. *)
Inductive Property (V : Type) : Type :=
| Own (v : V)
| Inherited
| Undefined.

Arguments Own {V} v.
Arguments Inherited {V}.
Arguments Undefined {V}.

Definition lookup {V} (o : t V) (k : string) : Property V :=
  match get o k with
  | Some v => Own v
  | None => if inherited k then Inherited else Undefined
  end.

(** [o[k] = v]. Without an own property [__proto__], the assignment to
    [__proto__] goes to the accessor of [Object.prototype]: it creates no own
    property (it replaces the prototype of [o], which is not modelled: the
    code reads no property of an object after such an assignment). *)
Definition assign {V} (o : t V) (k : string) (v : V) : t V :=
  match get o k with
  | Some _ => set o k v
  | None => if String.eqb k "__proto__" then o else set o k v
  end.

(** The value of a decimal digit. *)
Definition digit (c : ascii) : option N :=
  let n := N_of_ascii c in
  if ((48 <=? n) && (n <=? 57))%N then Some (n - 48)%N else None.

Fixpoint decimal (acc : N) (s : string) : option N :=
  match s with
  | EmptyString => Some acc
  | String c s' =>
      match digit c with
      | Some d => decimal (10 * acc + d)%N s'
      | None => None
      end
  end.

(** [Some n] when [k] is an array index: the canonical numeric string of an
    integer [n] from 0 to 2^32 - 2 (decimal digits, no sign, no leading
    zero). *)
Definition arrayIndex (k : string) : option N :=
  match k with
  | EmptyString => None
  | String c rest =>
      if Ascii.eqb c "0"%char
      then match rest with
           | EmptyString => Some 0%N
           | String _ _ => None
           end
      else match decimal 0 k with
           | Some n => if (n <? 4294967295)%N then Some n else None
           | None => None
           end
  end.

Fixpoint insertIndex {V} (n : N) (e : string * V) (sorted : list (N * (string * V)))
  : list (N * (string * V)) :=
  match sorted with
  | [] => [(n, e)]
  | (m, e') :: rest =>
      if (n <=? m)%N then (n, e) :: sorted else (m, e') :: insertIndex n e rest
  end.

(** The own properties whose name is an array index, in ascending order of
    the index. *)
Fixpoint indexProperties {V} (o : t V) : list (N * (string * V)) :=
  match o with
  | [] => []
  | (k, v) :: o' =>
      match arrayIndex k with
      | Some n => insertIndex n (k, v) (indexProperties o')
      | None => indexProperties o'
      end
  end.

(** The own properties whose name is not an array index, in creation
    order. *)
Definition stringProperties {V} (o : t V) : list (string * V) :=
  List.filter (fun e => match arrayIndex (fst e) with
                        | Some _ => false
                        | None => true
                        end) o.

(** [Object.entries(o)]: the array indices in ascending order, then the
    other names in creation order. *)
Definition Object_entries {V} (o : t V) : list (string * V) :=
  map snd (indexProperties o) ++ stringProperties o.

(** [Object.keys(o)] *)
Definition Object_keys {V} (o : t V) : list string := map fst (Object_entries o).

End JsObject.

(** ** Data shared by the editor side and the audit side *)

(** [vscode.TextDocument]: [uri] stands for [document.uri.toString()]. *)
Record TextDocument : Type := { uri : string; getText : string }.

Record Position : Type := { line : nat; character : nat }.

Record Range : Type := { range_start : Position; range_end : Position }.

(** * The audit side: mapping reported issues to documents *)

Module Audit.

(** Modelled from the spec: the declaration of [ReportedIssue] (in
    [../types]) is missing; the input issue schema is
    [{ pointer, severity, message, ruleId }]. *)
Record ReportedIssue : Type := {
  pointer : string;
  severity : nat;
  message : string;
  ruleId : string
}.

(** Modelled from the spec: the declaration of [Issue] (in [../types]) is
    missing; a resolved issue adds [documentUri], [lineNo] and [range] to the
    fields of the reported issue it is spread from. *)
Record Issue : Type := {
  issue_pointer : string;
  issue_severity : nat;
  issue_message : string;
  issue_ruleId : string;
  documentUri : string;
  lineNo : nat;
  range : Range
}.

(** Modelled from the spec: the declaration of a mapping entry (in
    [../bundler]) is missing; the Mapping Table schema is
    [{ uri: string, pointer?: string, hash?: string }]. *)
Record Mapping : Type := {
  mapping_uri : string;
  mapping_pointer : option string;
  mapping_hash : option string
}.

(** JavaScript truthiness of a [string | undefined]: [undefined] and the
    empty string are falsy. *)
Definition truthy (s : option string) : bool :=
  match s with
  | Some s => negb (String.eqb s "")
  | None => false
  end.

(** What the audit code imports and does not define: the AST and its
    [find], the bundler's [findMapping], the cache, the location helper, the
    workspace and the remote audit. [findMapping] answers [None] for
    [undefined]; [openTextDocument] and [audit] answer [None] for a rejected
    promise. *)
Class Host : Type := {
  Node : Type;
  Mappings : Type;
  Cache : Type;
  Grades : Type;
  Progress : Type;
  find : Node -> string -> option Node;
  findMapping : Mappings -> string -> option Mapping;
  getLastGoodDocumentAst : Cache -> TextDocument -> Node;
  getLocationByPointer : TextDocument -> Node -> string -> nat * Range;
  openTextDocument : string -> option TextDocument;
  audit : string -> string -> Progress -> option (Grades * list ReportedIssue);
  trim : string -> string
}.

(** The calls made to the workspace and to the cache, in order. *)
Record Loads : Type := {
  opened : list string;              (* uris given to openTextDocument *)
  astRequests : list TextDocument    (* documents given to getLastGoodDocumentAst *)
}.

Definition noLoads : Loads := {| opened := []; astRequests := [] |}.

Section WithHost.
Context `{Host}.

(** [await vscode.workspace.openTextDocument(vscode.Uri.parse(uri))] *)
Definition workspace_openTextDocument (u : string) : Eff Loads TextDocument :=
  fun s =>
    let s' := {| opened := opened s ++ [u]; astRequests := astRequests s |} in
    match openTextDocument u with
    | Some document => (Returned document, s')
    | None => (Thrown Rejected, s')
    end.

(** [cache.getLastGoodDocumentAst(document)] *)
Definition cache_getLastGoodDocumentAst (cache : Cache) (document : TextDocument)
  : Eff Loads Node :=
  fun s =>
    (Returned (getLastGoodDocumentAst cache document),
     {| opened := opened s; astRequests := astRequests s ++ [document] |}).

(** [await audit(json, apiToken.trim(), progress)] *)
Definition remote_audit (json apiToken : string) (progress : Progress)
  : Eff Loads (Grades * list ReportedIssue) :=
  fun s =>
    match audit json (trim apiToken) progress with
    | Some r => (Returned r, s)
    | None => (Thrown Rejected, s)
    end.

Definition findIssueLocation (mainUri : string) (root : Node)
    (mappings : Mappings) (pointer : string) : Outcome (option (string * string)) :=
  match find root pointer with
  | Some node => Returned (Some (mainUri, pointer))
  | None =>
      match findMapping mappings pointer with
      | None => Thrown TypeError                   (* mapping.hash of undefined *)
      | Some mapping =>
          (* if (mapping.hash): undefined and the empty string are falsy *)
          match mapping_hash mapping with
          | Some hash =>
              if String.eqb hash "" then Returned None
              else Returned (Some (mapping_uri mapping, hash))
          | None => Returned None
          end
      end
  end.

(** [{ ...issue, pointer: pointer }] *)
Definition withPointer (issue : ReportedIssue) (p : string) : ReportedIssue :=
  {| pointer := p;
     severity := severity issue;
     message := message issue;
     ruleId := ruleId issue |}.

(** [o[uri].push(x)]: the array is extended in place; [undefined] has no
    properties and no value inherited from [Object.prototype] has a [push],
    so the call throws for both. *)
Definition push {V} (o : JsObject.t (list V)) (k : string) (x : V)
  : Outcome (JsObject.t (list V)) :=
  match JsObject.lookup o k with
  | JsObject.Own xs => Returned (JsObject.set o k (xs ++ [x]))
  | JsObject.Inherited => Thrown TypeError
  | JsObject.Undefined => Thrown TypeError
  end.

(** The variables the loop of [processIssues] updates. *)
Definition ProcessState : Type :=
  JsObject.t bool * JsObject.t (list ReportedIssue) * list ReportedIssue.

(** One turn of [for (const issue of issues)] in [processIssues]. *)
Definition processIssue (mainUri : string) (root : Node) (mappings : Mappings)
    (st : ProcessState) (issue : ReportedIssue) : Outcome ProcessState :=
  let '(documentUris, issuesPerDocument, badIssues) := st in
  location ← findIssueLocation mainUri root mappings (pointer issue);
  match location with
  | Some (uri, pointer) =>
      (* if (!issuesPerDocument[uri]): arrays and inherited values are truthy *)
      let issuesPerDocument :=
        match JsObject.lookup issuesPerDocument uri with
        | JsObject.Undefined => JsObject.assign issuesPerDocument uri []
        | JsObject.Own _ => issuesPerDocument
        | JsObject.Inherited => issuesPerDocument
        end in
      (* if (!documentUris[uri]) *)
      let documentUris :=
        match JsObject.lookup documentUris uri with
        | JsObject.Own true => documentUris
        | JsObject.Inherited => documentUris
        | JsObject.Own false => JsObject.assign documentUris uri true
        | JsObject.Undefined => JsObject.assign documentUris uri true
        end in
      issuesPerDocument ← push issuesPerDocument uri (withPointer issue pointer);
      Returned (documentUris, issuesPerDocument, badIssues)
  | None =>
      Returned (documentUris, issuesPerDocument, badIssues ++ [issue])
  end.

Definition processIssues (document : TextDocument) (cache : Cache)
    (mappings : Mappings) (issues : list ReportedIssue)
  : Eff Loads (Node * list string * JsObject.t (list ReportedIssue)
               * list ReportedIssue) :=
  let mainUri := uri document in
  let documentUris : JsObject.t bool := JsObject.set JsObject.empty mainUri true in
  let issuesPerDocument : JsObject.t (list ReportedIssue) := JsObject.empty in
  let badIssues : list ReportedIssue := [] in
  root ← cache_getLastGoodDocumentAst cache document;
  '(documentUris, issuesPerDocument, badIssues) ←
    eff_lift (forOfPure (processIssue mainUri root mappings) issues
                (documentUris, issuesPerDocument, badIssues));
  mret (root, JsObject.Object_keys documentUris, issuesPerDocument, badIssues).

(** The files table of [auditDocument]. *)
Definition Files : Type := JsObject.t (TextDocument * Node).

(** One turn of [for (const uri of documentUris)]: load and parse a document
    when [files[uri]] is falsy, that is [undefined]. *)
Definition loadDocument (cache : Cache) (files : Files) (uri : string)
  : Eff Loads Files :=
  match JsObject.lookup files uri with
  | JsObject.Undefined =>
      document ← workspace_openTextDocument uri;
      root ← cache_getLastGoodDocumentAst cache document;
      mret (JsObject.assign files uri (document, root))
  | JsObject.Own _ => mret files
  | JsObject.Inherited => mret files
  end.

(** The files table as [auditDocument] builds it: the literal
    [{ [mainDocument.uri.toString()]: [mainDocument, mainRoot] }], then the
    loop that loads and parses all documents. *)
Definition loadFiles (mainDocument : TextDocument) (mainRoot : Node) (cache : Cache)
    (documentUris : list string) : Eff Loads Files :=
  let files : Files :=
    JsObject.set JsObject.empty (uri mainDocument) (mainDocument, mainRoot) in
  forOf (loadDocument cache) documentUris files.

(** The callback of [reportedIssues.map] in [auditDocument]. *)
Definition locateIssue (uri : string) (document : TextDocument) (root : Node)
    (issue : ReportedIssue) : Issue :=
  let '(lineNo, range) := getLocationByPointer document root (pointer issue) in
  {| issue_pointer := pointer issue;
     issue_severity := severity issue;
     issue_message := message issue;
     issue_ruleId := ruleId issue;
     documentUri := uri;
     lineNo := lineNo;
     range := range |}.

(** One turn of [for (const [uri, reportedIssues] of
    Object.entries(issuesPerDocument))]; destructuring [files[uri]] throws
    when it is [undefined] and when it is an inherited value, which is not
    iterable. *)
Definition locateGroup (files : Files) (issues : JsObject.t (list Issue))
    (entry : string * list ReportedIssue) : Outcome (JsObject.t (list Issue)) :=
  let '(uri, reportedIssues) := entry in
  match JsObject.lookup files uri with
  | JsObject.Own (document, root) =>
      Returned (JsObject.assign issues uri
                  (map (locateIssue uri document root) reportedIssues))
  | JsObject.Inherited => Thrown TypeError
  | JsObject.Undefined => Thrown TypeError
  end.

(** [for (const [uri, [document, root]] of Object.entries(files))
    documents[uri] = document] *)
Definition documentsOf (files : Files) : JsObject.t TextDocument :=
  fold_left (fun documents '(uri, (document, root)) =>
               JsObject.assign documents uri document)
            (JsObject.Object_entries files) JsObject.empty.

Definition auditDocument (mainDocument : TextDocument) (json : string)
    (cache : Cache) (mappings : Mappings) (apiToken : string) (progress : Progress)
  : Eff Loads (Grades * JsObject.t (list Issue) * JsObject.t TextDocument
               * list ReportedIssue) :=
  '(grades, reportedIssues) ← remote_audit json apiToken progress;
  '(mainRoot, documentUris, issuesPerDocument, badIssues) ←
    processIssues mainDocument cache mappings reportedIssues;
  files ← loadFiles mainDocument mainRoot cache documentUris;
  issues ← eff_lift (forOfPure (locateGroup files)
                       (JsObject.Object_entries issuesPerDocument) JsObject.empty);
  let documents := documentsOf files in
  mret (grades, issues, documents, badIssues).

(** *** Vocabulary of the statements about the issue mapping *)

(** The issues of the group of [u], none when the group does not exist. *)
Definition groupOf {V} (o : JsObject.t (list V)) (u : string) : list V :=
  default [] (JsObject.get o u).

(** The number of issues held by all the groups. *)
Definition countIssues {V} (o : JsObject.t (list V)) : nat :=
  list_sum (map (fun entry => length (snd entry)) (JsObject.entries o)).

(** [findIssueLocation] finds no location for the issue. *)
Definition unresolved (mainUri : string) (root : Node) (mappings : Mappings)
    (issue : ReportedIssue) : bool :=
  match findIssueLocation mainUri root mappings (pointer issue) with
  | Returned None => true
  | _ => false
  end.

(** The issue as it enters the group of [u], when [findIssueLocation] sends
    it to [u]. *)
Definition resolvedTo (mainUri : string) (root : Node) (mappings : Mappings)
    (u : string) (issue : ReportedIssue) : option ReportedIssue :=
  match findIssueLocation mainUri root mappings (pointer issue) with
  | Returned (Some (u', p)) =>
      if String.eqb u' u then Some (withPointer issue p) else None
  | _ => None
  end.

(** After the words of the specification: the location a Mapping Table entry
    stands for, its uri together with its pointer or hash (whichever the
    entry carries). *)
Definition entryLocation (mapping : Mapping) : option (string * string) :=
  match mapping_pointer mapping, mapping_hash mapping with
  | Some p, _ => Some (mapping_uri mapping, p)
  | None, Some hash => Some (mapping_uri mapping, hash)
  | None, None => None
  end.

(** Every lookup that [findIssueLocation] makes in the Mapping Table for
    these issues answers with an entry (never with [undefined]). *)
Definition mappingsAnswer (root : Node) (mappings : Mappings)
    (issues : list ReportedIssue) : Prop :=
  Forall (fun issue =>
            find root (pointer issue) = None ->
            is_Some (findMapping mappings (pointer issue))) issues.

(** No issue is sent to a uri that names a property of [Object.prototype]
    (to a uri whose lookup in the empty [issuesPerDocument] would find an
    inherited value). *)
Definition plainLocations (mainUri : string) (root : Node) (mappings : Mappings)
    (issues : list ReportedIssue) : Prop :=
  Forall (fun issue =>
            forall u p,
              findIssueLocation mainUri root mappings (pointer issue)
              = Returned (Some (u, p)) ->
              JsObject.inherited u = false) issues.

(** The input issues that [findIssueLocation] sends to [u], in the order of
    the input, each with the pointer of its location. *)
Definition sentTo (mainUri : string) (root : Node) (mappings : Mappings)
    (u : string) (issues : list ReportedIssue) : list (ReportedIssue * string) :=
  omap (fun issue =>
          match findIssueLocation mainUri root mappings (pointer issue) with
          | Returned (Some (u', p)) =>
              if String.eqb u' u then Some (issue, p) else None
          | _ => None
          end) issues.

End WithHost.

End Audit.

(** * The editor side: reparsing and refreshing on editor events *)

Module Extension.

(** The members of [OpenApiVersion] (declared in [./types]) that the code
    names. *)
Inductive OpenApiVersion : Type := Unknown | V2 | V3.

#[global] Instance OpenApiVersion_eq_dec : EqDecision OpenApiVersion.
Proof. solve_decision. Defined.

Record TextEditor : Type := { document : TextDocument }.

Record TextDocumentChangeEvent : Type := { event_document : TextDocument }.

(** What the editor code imports and does not define. The third component
    of [parseDocument] is [None] for a falsy [errors] (no error array);
    an array, even an empty one, is truthy. *)
Class Host : Type := {
  Node : Type;
  Diagnostic : Type;
  parseDocument : TextDocument -> OpenApiVersion * Node * option (list Diagnostic)
}.

(** The entry handed to [updateDiagnostics]: the fields the code reads. *)
Record CacheEntry `{Host} : Type := {
  entry_uri : string;
  entry_errors : option (list Diagnostic)
}.

Section WithHost.
Context `{Host}.

(** The payload of the two tree events: [[node, event]], each possibly
    [null]. *)
Definition TreeChange : Type := option Node * option TextDocumentChangeEvent.

(** The editor and the collaborators the handlers act on: the active
    editor, the values given to [setContext], the diagnostic collection, what
    each event emitter has fired (oldest first) and the documents given to
    [parseDocument]. *)
Record World : Type := {
  activeTextEditor : option TextEditor;
  contextValues : gmap string bool;
  diagnostics : gmap string (list Diagnostic);
  didChangeTree : list TreeChange;
  didChangeTreeIncludingErrors : list TreeChange;
  didChangeEditor : list (option TextEditor * OpenApiVersion);
  parsed : list TextDocument
}.

(** [vscode.window.activeTextEditor] *)
Definition window_activeTextEditor : Eff World (option TextEditor) :=
  fun w => (Returned (activeTextEditor w), w).

(** [vscode.commands.executeCommand("setContext", key, value)] *)
Definition setContext (key : string) (value : bool) : Eff World unit :=
  eff_modify (fun w =>
    {| activeTextEditor := activeTextEditor w;
       contextValues := <[key := value]> (contextValues w);
       diagnostics := diagnostics w;
       didChangeTree := didChangeTree w;
       didChangeTreeIncludingErrors := didChangeTreeIncludingErrors w;
       didChangeEditor := didChangeEditor w;
       parsed := parsed w |}).

(** [diagnostics.set(uri, errors)] *)
Definition diagnostics_set (uri : string) (errors : list Diagnostic) : Eff World unit :=
  eff_modify (fun w =>
    {| activeTextEditor := activeTextEditor w;
       contextValues := contextValues w;
       diagnostics := <[uri := errors]> (diagnostics w);
       didChangeTree := didChangeTree w;
       didChangeTreeIncludingErrors := didChangeTreeIncludingErrors w;
       didChangeEditor := didChangeEditor w;
       parsed := parsed w |}).

(** [diagnostics.delete(uri)] *)
Definition diagnostics_delete (uri : string) : Eff World unit :=
  eff_modify (fun w =>
    {| activeTextEditor := activeTextEditor w;
       contextValues := contextValues w;
       diagnostics := delete uri (diagnostics w);
       didChangeTree := didChangeTree w;
       didChangeTreeIncludingErrors := didChangeTreeIncludingErrors w;
       didChangeEditor := didChangeEditor w;
       parsed := parsed w |}).

(** [didChangeTree.fire(change)] *)
Definition didChangeTree_fire (change : TreeChange) : Eff World unit :=
  eff_modify (fun w =>
    {| activeTextEditor := activeTextEditor w;
       contextValues := contextValues w;
       diagnostics := diagnostics w;
       didChangeTree := didChangeTree w ++ [change];
       didChangeTreeIncludingErrors := didChangeTreeIncludingErrors w;
       didChangeEditor := didChangeEditor w;
       parsed := parsed w |}).

(** [didChangeTreeIncludingErrors.fire(change)] *)
Definition didChangeTreeIncludingErrors_fire (change : TreeChange) : Eff World unit :=
  eff_modify (fun w =>
    {| activeTextEditor := activeTextEditor w;
       contextValues := contextValues w;
       diagnostics := diagnostics w;
       didChangeTree := didChangeTree w;
       didChangeTreeIncludingErrors := didChangeTreeIncludingErrors w ++ [change];
       didChangeEditor := didChangeEditor w;
       parsed := parsed w |}).

(** [didChangeEditor.fire(change)] *)
Definition didChangeEditor_fire (change : option TextEditor * OpenApiVersion)
  : Eff World unit :=
  eff_modify (fun w =>
    {| activeTextEditor := activeTextEditor w;
       contextValues := contextValues w;
       diagnostics := diagnostics w;
       didChangeTree := didChangeTree w;
       didChangeTreeIncludingErrors := didChangeTreeIncludingErrors w;
       didChangeEditor := didChangeEditor w ++ [change];
       parsed := parsed w |}).

(** [parseDocument(document)], recorded in [parsed]. *)
Definition parse (document : TextDocument)
  : Eff World (OpenApiVersion * Node * option (list Diagnostic)) :=
  fun w =>
    (Returned (parseDocument document),
     {| activeTextEditor := activeTextEditor w;
        contextValues := contextValues w;
        diagnostics := diagnostics w;
        didChangeTree := didChangeTree w;
        didChangeTreeIncludingErrors := didChangeTreeIncludingErrors w;
        didChangeEditor := didChangeEditor w;
        parsed := parsed w ++ [document] |}).

Definition updateVersionContext (version : OpenApiVersion) : Eff World unit :=
  match version with
  | V2 =>
      setContext "openapiTwoEnabled" true;;
      setContext "openapiThreeEnabled" false
  | V3 =>
      setContext "openapiThreeEnabled" true;;
      setContext "openapiTwoEnabled" false
  | Unknown =>
      setContext "openapiTwoEnabled" false;;
      setContext "openapiThreeEnabled" false
  end.

Definition onActiveEditorChanged (editor : option TextEditor) : Eff World unit :=
  match editor with
  | Some editor =>
      '(version, node, errors) ← parse (document editor);
      updateVersionContext version;;
      match errors with
      | Some errors =>
          diagnostics_set (uri (document editor)) errors;;
          setContext "openapiErrors" true
      | None =>
          diagnostics_delete (uri (document editor));;
          setContext "openapiErrors" false;;
          didChangeTree_fire (Some node, None)
      end;;
      didChangeTreeIncludingErrors_fire (Some node, None);;
      didChangeEditor_fire (Some editor, version)
  | None =>
      didChangeTree_fire (None, None);;
      didChangeTreeIncludingErrors_fire (None, None);;
      didChangeEditor_fire (None, Unknown)
  end.

Definition onDocumentChanged (event : TextDocumentChangeEvent) : Eff World unit :=
  activeEditor ← window_activeTextEditor;
  match activeEditor with
  | Some activeEditor =>
      if String.eqb (uri (document activeEditor)) (uri (event_document event))
      then
        '(version, node, errors) ← parse (event_document event);
        didChangeTreeIncludingErrors_fire (Some node, Some event);;
        match errors with
        | Some errors =>
            diagnostics_set (uri (event_document event)) errors;;
            setContext "openapiErrors" true
        | None =>
            diagnostics_delete (uri (event_document event));;
            setContext "openapiErrors" false;;
            updateVersionContext version;;
            didChangeTree_fire (Some node, Some event)
        end
      else mret tt
  | None => mret tt
  end.

(** The listener [activate] gives to [onDidCloseTextDocument]. *)
Definition onDidCloseTextDocument (document : TextDocument) : Eff World unit :=
  diagnostics_delete (uri document).

(** [updateDiagnostics] of the later revision, the listener of the cache's
    change event. *)
Definition updateDiagnostics (current : CacheEntry) : Eff World unit :=
  match entry_errors current with
  | Some errors =>
      diagnostics_set (entry_uri current) errors;;
      setContext "openapiErrors" true
  | None =>
      diagnostics_delete (entry_uri current);;
      setContext "openapiErrors" false
  end.

(** *** Vocabulary of the statements about the handlers *)

(** The context values after [updateVersionContext], whatever the order in
    which the branch sets the two flags. *)
Definition versionContext (version : OpenApiVersion) (values : gmap string bool)
  : gmap string bool :=
  <["openapiThreeEnabled" := bool_decide (version = V3)]>
    (<["openapiTwoEnabled" := bool_decide (version = V2)]> values).

(** The event is for the document of the active editor. *)
Definition forActiveDocument (w : World) (event : TextDocumentChangeEvent) : Prop :=
  exists editor, activeTextEditor w = Some editor
                 /\ uri (document editor) = uri (event_document event).

End WithHost.

End Extension.

(** * Activation, the outline views and the subscriptions *)

Module Activation.
Import Extension.

(** The outline providers [activate] creates (declared in [./outline]). *)
Inductive OutlineProvider : Type :=
| GeneralTwoOutlineProvider
| PathOutlineProvider
| DefinitionOutlineProvider
| SecurityOutlineProvider
| SecurityDefinitionOutlineProvider
| ParametersOutlineProvider
| ResponsesOutlineProvider
| GeneralThreeOutlineProvider
| ComponentsOutlineProvider
| ServersOutlineProvider.

(** A [vscode.TreeView] as [createTreeView] returns it. Two views are the
    same object when they were created at the same rank. *)
Record TreeView : Type := {
  viewId : string;
  treeDataProvider : OutlineProvider;
  rank : nat
}.

(** The exported registry [outlines] and what happened to the views. *)
Record Views : Type := {
  outlines : JsObject.t TreeView;
  created : list TreeView;     (* returned by createTreeView, oldest first *)
  disposed : list TreeView     (* given to dispose, oldest first *)
}.

Definition noViews : Views := {| outlines := JsObject.empty; created := []; disposed := [] |}.

(** [delete o[k]] *)
Fixpoint JsObject_delete {V} (o : JsObject.t V) (k : string) : JsObject.t V :=
  match o with
  | [] => []
  | (k', v) :: o' =>
      if String.eqb k' k then JsObject_delete o' k else (k', v) :: JsObject_delete o' k
  end.

(** [for (let k in object(s)) body(k)]: the keys are enumerated when the loop
    starts, and a property deleted before its turn is not visited. The
    registry is only given the twelve view ids of [activate], none of them an
    array index or a name of [Object.prototype], so the keys come in creation
    order. *)
Definition forIn {S V} (object : S -> JsObject.t V) (body : string -> Eff S unit)
  : Eff S unit :=
  fun s =>
    forOf (fun (_ : unit) k s' =>
             match JsObject.get (object s') k with
             | Some _ => body k s'
             | None => (Returned tt, s')
             end)
          (JsObject.keys (object s)) tt s.

(** [vscode.window.createTreeView(id, { treeDataProvider: provider })] *)
Definition window_createTreeView (id : string) (provider : OutlineProvider)
  : Eff Views TreeView :=
  fun v =>
    let view := {| viewId := id; treeDataProvider := provider;
                   rank := length (created v) |} in
    (Returned view,
     {| outlines := outlines v; created := created v ++ [view]; disposed := disposed v |}).

(** [view.dispose()] *)
Definition treeView_dispose (view : TreeView) : Eff Views unit :=
  eff_modify (fun v =>
    {| outlines := outlines v; created := created v; disposed := disposed v ++ [view] |}).

(** The registration half of [registerOutlineTreeView]; the listener it then
    gives to [onDidChangeSelection] is [onDidChangeSelection id] below. *)
Definition registerOutlineTreeView (id : string) (provider : OutlineProvider)
  : Eff Views unit :=
  view ← window_createTreeView id provider;
  eff_modify (fun v =>
    {| outlines := JsObject.set (outlines v) id view;
       created := created v; disposed := disposed v |}).

Definition deactivate : Eff Views unit :=
  forIn outlines (fun viewId =>
    fun v =>
      match JsObject.get (outlines v) viewId with
      | Some view =>
          (treeView_dispose view;;
           eff_modify (fun v =>
             {| outlines := JsObject_delete (outlines v) viewId;
                created := created v; disposed := disposed v |})) v
      | None => (Thrown TypeError, v)          (* dispose of undefined *)
      end).

(** Modelled after [semver]: what [semver.parse] answers; [toString()] is
    the [version] field. *)
Record SemVer : Type := { major : nat; minor : nat; patch : nat; version : string }.

(** What [activate] reads from outside: [semver.parse] ([None] for [null])
    and [openapiExtension.packageJSON.version]. *)
Class VersionHost : Type := {
  semver_parse : string -> option SemVer;
  packageJSON_version : string
}.

Inductive DefinitionProvider : Type :=
| JsonSchemaDefinitionProvider
| YamlSchemaDefinitionProvider.

(** The calls [activate] makes to code that is not modelled, by name. *)
Inductive Call : Type :=
| ParserOptionsConfigure
| UpdateContext
| RegisterCommands
| RegisterCompletionItemProvider (language : string)
| RegisterDefinitionProvider (language : string) (provider : DefinitionProvider)
| CreateDiagnosticCollection (name : string)
| SubscribeDidCloseTextDocument
| SubscribeDidChangeActiveTextEditor
| SubscribeDidChangeTextDocument
| ProvideYamlSchemas
| AuditActivate
| PreviewActivate
| CreateWhatsNewPanel
| ConfigurationConfigure
| YamlConfigurationConfigure.

Section WithHost.
Context `{Host} `{VersionHost}.

(** The listener [registerOutlineTreeView] subscribes for the view [id]:
    [setContext(id + "Selected", event.selection.length > 0)]. *)
Definition onDidChangeSelection (id : string) (selection : list Node)
  : Eff World unit :=
  setContext (id +:+ "Selected") (0 <? length selection).

(** The events vscode delivers to the listeners that [activate] and
    [registerOutlineTreeView] subscribe. *)
Inductive EditorEvent : Type :=
| DidChangeActiveTextEditor (editor : option TextEditor)
| DidChangeTextDocument (event : TextDocumentChangeEvent)
| DidCloseTextDocument (closed : TextDocument)
| DidChangeSelection (id : string) (selection : list Node).

(** vscode makes [editor] the active editor before it tells the listeners. *)
Definition window_setActiveTextEditor (editor : option TextEditor) : Eff World unit :=
  eff_modify (fun w =>
    {| activeTextEditor := editor;
       contextValues := contextValues w;
       diagnostics := diagnostics w;
       didChangeTree := didChangeTree w;
       didChangeTreeIncludingErrors := didChangeTreeIncludingErrors w;
       didChangeEditor := didChangeEditor w;
       parsed := parsed w |}).

(** The listener each event reaches, as subscribed in [activate]. *)
Definition deliver (_ : unit) (e : EditorEvent) : Eff World unit :=
  match e with
  | DidChangeActiveTextEditor editor =>
      window_setActiveTextEditor editor;;
      onActiveEditorChanged editor
  | DidChangeTextDocument event => onDocumentChanged event
  | DidCloseTextDocument closed => onDidCloseTextDocument closed
  | DidChangeSelection id selection => onDidChangeSelection id selection
  end.

(** The state [activate] acts on. *)
Record Session : Type := {
  world : World;
  views : Views;
  globalState : gmap string string;    (* context.globalState *)
  calls : list Call                    (* oldest first *)
}.

Definition inWorld {A} (m : Eff World A) : Eff Session A :=
  fun x =>
    let '(o, w) := m (world x) in
    (o, {| world := w; views := views x; globalState := globalState x;
           calls := calls x |}).

Definition inViews {A} (m : Eff Views A) : Eff Session A :=
  fun x =>
    let '(o, v) := m (views x) in
    (o, {| world := world x; views := v; globalState := globalState x;
           calls := calls x |}).

Definition call (c : Call) : Eff Session unit :=
  eff_modify (fun x =>
    {| world := world x; views := views x; globalState := globalState x;
       calls := calls x ++ [c] |}).

(** [context.globalState.get<string>(key)] *)
Definition globalState_get (key : string) : Eff Session (option string) :=
  fun x => (Returned (globalState x !! key), x).

(** [context.globalState.update(key, value)] *)
Definition globalState_update (key value : string) : Eff Session unit :=
  eff_modify (fun x =>
    {| world := world x; views := views x;
       globalState := <[key := value]> (globalState x); calls := calls x |}).

(** The member access [x.m] on the answer of [semver.parse]. *)
Definition notNull {S A} (x : option A) : Eff S A :=
  fun s =>
    match x with
    | Some a => (Returned a, s)
    | None => (Thrown TypeError, s)
    end.

(** [new vscode.EventEmitter()], three times: nothing has been fired. *)
Definition newEventEmitters : Eff World unit :=
  eff_modify (fun w =>
    {| activeTextEditor := activeTextEditor w;
       contextValues := contextValues w;
       diagnostics := diagnostics w;
       didChangeTree := [];
       didChangeTreeIncludingErrors := [];
       didChangeEditor := [];
       parsed := parsed w |}).

(** [vscode.languages.createDiagnosticCollection("openapi")]: an empty
    collection. *)
Definition createDiagnosticCollection : Eff World unit :=
  eff_modify (fun w =>
    {| activeTextEditor := activeTextEditor w;
       contextValues := contextValues w;
       diagnostics := ∅;
       didChangeTree := didChangeTree w;
       didChangeTreeIncludingErrors := didChangeTreeIncludingErrors w;
       didChangeEditor := didChangeEditor w;
       parsed := parsed w |}).

Definition activate : Eff Session unit :=
  inWorld newEventEmitters;;
  let versionProperty := "openapiVersion" in
  let currentVersion := semver_parse packageJSON_version in
  stored ← globalState_get versionProperty;
  let previousVersion :=
    if Audit.truthy stored
    then semver_parse (default "" stored)
    else semver_parse "0.0.1" in
  current ← notNull currentVersion;                  (* currentVersion.toString() *)
  globalState_update versionProperty (version current);;
  call ParserOptionsConfigure;;
  (* OpenAPI v2 outlines *)
  inViews (registerOutlineTreeView "openapiTwoSpecOutline" GeneralTwoOutlineProvider);;
  inViews (registerOutlineTreeView "openapiTwoPathOutline" PathOutlineProvider);;
  inViews (registerOutlineTreeView "openapiTwoDefinitionOutline" DefinitionOutlineProvider);;
  inViews (registerOutlineTreeView "openapiTwoSecurityOutline" SecurityOutlineProvider);;
  inViews (registerOutlineTreeView "openapiTwoSecurityDefinitionOutline"
             SecurityDefinitionOutlineProvider);;
  inViews (registerOutlineTreeView "openapiTwoParametersOutline" ParametersOutlineProvider);;
  inViews (registerOutlineTreeView "openapiTwoResponsesOutline" ResponsesOutlineProvider);;
  (* OpenAPI v3 outlines *)
  inViews (registerOutlineTreeView "openapiThreePathOutline" PathOutlineProvider);;
  inViews (registerOutlineTreeView "openapiThreeSpecOutline" GeneralThreeOutlineProvider);;
  inViews (registerOutlineTreeView "openapiThreeComponentsOutline" ComponentsOutlineProvider);;
  inViews (registerOutlineTreeView "openapiThreeSecurityOutline" SecurityOutlineProvider);;
  inViews (registerOutlineTreeView "openapiThreeServersOutline" ServersOutlineProvider);;
  call UpdateContext;;
  call RegisterCommands;;
  call (RegisterCompletionItemProvider "yaml");;
  call (RegisterCompletionItemProvider "json");;
  call (RegisterCompletionItemProvider "jsonc");;
  call (RegisterDefinitionProvider "json" JsonSchemaDefinitionProvider);;
  call (RegisterDefinitionProvider "jsonc" JsonSchemaDefinitionProvider);;
  call (RegisterDefinitionProvider "yaml" YamlSchemaDefinitionProvider);;
  inWorld createDiagnosticCollection;;
  call (CreateDiagnosticCollection "openapi");;
  call (CreateDiagnosticCollection "openapi-bundling");;
  call SubscribeDidCloseTextDocument;;
  (* trigger refresh on activation *)
  editor ← inWorld window_activeTextEditor;
  inWorld (onActiveEditorChanged editor);;
  call SubscribeDidChangeActiveTextEditor;;
  call SubscribeDidChangeTextDocument;;
  call ProvideYamlSchemas;;
  call AuditActivate;;
  call PreviewActivate;;
  previous ← notNull previousVersion;                (* previousVersion.major *)
  (if major previous <? major current
   then call CreateWhatsNewPanel
   else mret tt);;
  call ConfigurationConfigure;;
  call YamlConfigurationConfigure.

(** *** Vocabulary of the statements about activation *)

(** The version [activate] compares the current one with: the stored one,
    or 0.0.1 when none is stored. *)
Definition previousVersion (x : Session) : option SemVer :=
  match globalState x !! "openapiVersion" with
  | Some stored =>
      if String.eqb stored "" then semver_parse "0.0.1" else semver_parse stored
  | None => semver_parse "0.0.1"
  end.

(** The world as [activate] creates it: new emitters, an empty diagnostic
    collection. *)
Definition freshWorld (w : World) : World :=
  {| activeTextEditor := activeTextEditor w;
     contextValues := contextValues w;
     diagnostics := ∅;
     didChangeTree := [];
     didChangeTreeIncludingErrors := [];
     didChangeEditor := [];
     parsed := parsed w |}.

(** The outline views, in the order [activate] registers them. *)
Definition outlineViews : list (string * OutlineProvider) :=
  [("openapiTwoSpecOutline", GeneralTwoOutlineProvider);
   ("openapiTwoPathOutline", PathOutlineProvider);
   ("openapiTwoDefinitionOutline", DefinitionOutlineProvider);
   ("openapiTwoSecurityOutline", SecurityOutlineProvider);
   ("openapiTwoSecurityDefinitionOutline", SecurityDefinitionOutlineProvider);
   ("openapiTwoParametersOutline", ParametersOutlineProvider);
   ("openapiTwoResponsesOutline", ResponsesOutlineProvider);
   ("openapiThreePathOutline", PathOutlineProvider);
   ("openapiThreeSpecOutline", GeneralThreeOutlineProvider);
   ("openapiThreeComponentsOutline", ComponentsOutlineProvider);
   ("openapiThreeSecurityOutline", SecurityOutlineProvider);
   ("openapiThreeServersOutline", ServersOutlineProvider)].

(** Registering them one after the other. *)
Definition registerOutlineViews : Eff Views unit :=
  forOf (fun (_ : unit) '(id, provider) => registerOutlineTreeView id provider)
        outlineViews tt.

(** The registry after the twelve registrations, starting with no view. *)
Definition registeredViews : Views :=
  Eval vm_compute in (registerOutlineViews noViews).2.

(** The calls of [activate] before the version check, and after it. *)
Definition callsBeforeVersionCheck : list Call :=
  [ParserOptionsConfigure; UpdateContext; RegisterCommands;
   RegisterCompletionItemProvider "yaml"; RegisterCompletionItemProvider "json";
   RegisterCompletionItemProvider "jsonc";
   RegisterDefinitionProvider "json" JsonSchemaDefinitionProvider;
   RegisterDefinitionProvider "jsonc" JsonSchemaDefinitionProvider;
   RegisterDefinitionProvider "yaml" YamlSchemaDefinitionProvider;
   CreateDiagnosticCollection "openapi"; CreateDiagnosticCollection "openapi-bundling";
   SubscribeDidCloseTextDocument; SubscribeDidChangeActiveTextEditor;
   SubscribeDidChangeTextDocument; ProvideYamlSchemas; AuditActivate; PreviewActivate].

Definition callsAfterVersionCheck : list Call :=
  [ConfigurationConfigure; YamlConfigurationConfigure].

End WithHost.

End Activation.

(** * A concrete host, for running the code on examples *)

Module Demo.

(** A tree is the list of the pointers of its nodes. *)
Definition demoFind (root : list string) (p : string) : option (list string) :=
  if existsb (String.eqb p) root then Some [p] else None.

Definition demoRange (n : nat) : Range :=
  {| range_start := {| line := n; character := 0 |};
     range_end := {| line := n; character := 1 |} |}.

Definition petIssue : Audit.ReportedIssue :=
  {| Audit.pointer := "/paths/~1pets/get"; Audit.severity := 3;
     Audit.message := "no responses"; Audit.ruleId := "v3-response" |}.

Definition schemaIssue : Audit.ReportedIssue :=
  {| Audit.pointer := "/components/schemas/Pet"; Audit.severity := 2;
     Audit.message := "no type"; Audit.ruleId := "v3-schema-type" |}.

Definition nameIssue : Audit.ReportedIssue :=
  {| Audit.pointer := "/components/schemas/Pet/name"; Audit.severity := 1;
     Audit.message := "no max length"; Audit.ruleId := "v3-schema-string" |}.

Definition unknownIssue : Audit.ReportedIssue :=
  {| Audit.pointer := "/components/schemas/Pet/unknownField"; Audit.severity := 1;
     Audit.message := "unknown"; Audit.ruleId := "v3-unknown" |}.

Definition reported : list Audit.ReportedIssue :=
  [petIssue; schemaIssue; unknownIssue; nameIssue].

Definition auditHost : Audit.Host :=
  {| Audit.Node := list string;
     Audit.Mappings := JsObject.t Audit.Mapping;
     Audit.Cache := JsObject.t (list string);
     Audit.Grades := nat;
     Audit.Progress := unit;
     Audit.find := demoFind;
     Audit.findMapping := JsObject.get;
     Audit.getLastGoodDocumentAst := fun cache document =>
       default [] (JsObject.get cache (uri document));
     Audit.getLocationByPointer := fun document root p =>
       (String.length p, demoRange (String.length p));
     Audit.openTextDocument := fun u => Some {| uri := u; getText := "" |};
     Audit.audit := fun json token progress =>
       if String.eqb token "" then None else Some (80, reported);
     Audit.trim := fun token => token |}.

Definition mainDocument : TextDocument :=
  {| uri := "file:///api.yaml"; getText := "openapi: 3.0.0" |}.

Definition cache : JsObject.t (list string) :=
  [("file:///api.yaml", ["/paths"; "/paths/~1pets"; "/paths/~1pets/get"]);
   ("file:///schemas.yaml", ["/Pet"; "/Pet/name"])].

Definition mappings : JsObject.t Audit.Mapping :=
  [("/components/schemas/Pet",
    {| Audit.mapping_uri := "file:///schemas.yaml";
       Audit.mapping_pointer := None; Audit.mapping_hash := Some "/Pet" |});
   ("/components/schemas/Pet/name",
    {| Audit.mapping_uri := "file:///schemas.yaml";
       Audit.mapping_pointer := None; Audit.mapping_hash := Some "/Pet/name" |});
   ("/components/schemas/Pet/unknownField",
    {| Audit.mapping_uri := "file:///schemas.yaml";
       Audit.mapping_pointer := Some "/Pet/unknownField";
       Audit.mapping_hash := None |})].

(** The Mapping Table of a document without external references. *)
Definition noMappings : JsObject.t Audit.Mapping := [].

(** A Mapping Table that sends the schema to a uri that is an array index. *)
Definition indexMappings : JsObject.t Audit.Mapping :=
  [("/components/schemas/Pet",
    {| Audit.mapping_uri := "7";
       Audit.mapping_pointer := None; Audit.mapping_hash := Some "/Pet" |});
   ("/components/schemas/Pet/name",
    {| Audit.mapping_uri := "file:///schemas.yaml";
       Audit.mapping_pointer := None; Audit.mapping_hash := Some "/Pet/name" |});
   ("/components/schemas/Pet/unknownField",
    {| Audit.mapping_uri := "file:///schemas.yaml";
       Audit.mapping_pointer := Some "/Pet/unknownField";
       Audit.mapping_hash := None |})].

(** A Mapping Table that sends the schema to a uri that names a property of
    [Object.prototype]. *)
Definition prototypeMappings : JsObject.t Audit.Mapping :=
  [("/components/schemas/Pet",
    {| Audit.mapping_uri := "constructor";
       Audit.mapping_pointer := None; Audit.mapping_hash := Some "/Pet" |})].

(** A Mapping Table whose entry carries a pointer and no hash. *)
Definition pointerMappings : JsObject.t Audit.Mapping :=
  [("/components/schemas/Pet",
    {| Audit.mapping_uri := "file:///schemas.yaml";
       Audit.mapping_pointer := Some "/Pet"; Audit.mapping_hash := None |})].

Definition editorHost : Extension.Host :=
  {| Extension.Node := list string;
     Extension.Diagnostic := string;
     Extension.parseDocument := fun document =>
       if String.eqb (getText document) "openapi: 3.0.0"
       then (Extension.V3, ["/openapi"], None)
       else if String.eqb (getText document) "swagger: 2.0"
       then (Extension.V2, ["/swagger"], None)
       else (Extension.Unknown, [], Some ["syntax error"]) |}.

Definition brokenDocument : TextDocument :=
  {| uri := "file:///api.yaml"; getText := "openapi: 3.0.0 {" |}.

Definition otherDocument : TextDocument :=
  {| uri := "file:///other.yaml"; getText := "swagger: 2.0" |}.

(** The editor shows [file:///api.yaml], parsed before as a version 3
    document. *)
Definition world : @Extension.World editorHost :=
  {| Extension.activeTextEditor := Some {| Extension.document := mainDocument |};
     Extension.contextValues :=
       <["openapiThreeEnabled" := true]> (<["openapiTwoEnabled" := false]> ∅);
     Extension.diagnostics := ∅;
     Extension.didChangeTree := [];
     Extension.didChangeTreeIncludingErrors := [];
     Extension.didChangeEditor := [];
     Extension.parsed := [] |}.

End Demo.

Module DemoSession.

Definition v (major minor patch : nat) (version : string) : Activation.SemVer :=
  {| Activation.major := major; Activation.minor := minor;
     Activation.patch := patch; Activation.version := version |}.

(** The extension is at version 4.0.0; [semver.parse] knows four versions. *)
Definition versionHost : Activation.VersionHost :=
  {| Activation.semver_parse := fun s =>
       if String.eqb s "0.0.1" then Some (v 0 0 1 "0.0.1")
       else if String.eqb s "3.9.1" then Some (v 3 9 1 "3.9.1")
       else if String.eqb s "4.0.0" then Some (v 4 0 0 "4.0.0")
       else None;
     Activation.packageJSON_version := "4.0.0" |}.

Definition twoViews : Activation.Views :=
  {| Activation.outlines :=
       [("openapiTwoPathOutline",
         {| Activation.viewId := "openapiTwoPathOutline";
            Activation.treeDataProvider := Activation.PathOutlineProvider;
            Activation.rank := 0 |});
        ("openapiThreePathOutline",
         {| Activation.viewId := "openapiThreePathOutline";
            Activation.treeDataProvider := Activation.PathOutlineProvider;
            Activation.rank := 1 |})];
     Activation.created := [];
     Activation.disposed := [] |}.

(** A first installation: nothing stored, no view yet. *)
Definition firstSession : @Activation.Session Demo.editorHost :=
  {| Activation.world := Demo.world;
     Activation.views := Activation.noViews;
     Activation.globalState := ∅;
     Activation.calls := [] |}.

(** An upgrade from 3.9.1. *)
Definition upgradeSession : @Activation.Session Demo.editorHost :=
  {| Activation.world := Demo.world;
     Activation.views := Activation.noViews;
     Activation.globalState := {["openapiVersion" := "3.9.1"]};
     Activation.calls := [] |}.

(** A stored version that [semver.parse] rejects. *)
Definition corruptSession : @Activation.Session Demo.editorHost :=
  {| Activation.world := Demo.world;
     Activation.views := Activation.noViews;
     Activation.globalState := {["openapiVersion" := "four"]};
     Activation.calls := [] |}.

End DemoSession.

(** * Facts about the embedding *)

(** ** Objects *)

Module JsObjectFacts.
Import JsObject.

Lemma get_set_eq {V} (o : t V) k v : get (set o k v) k = Some v.
Proof.
  induction o as [|[k' v'] o IH]; simpl.
  - by rewrite String.eqb_refl.
  - destruct (String.eqb k' k) eqn:E; simpl; rewrite E; auto.
Qed.

Lemma get_set_ne {V} (o : t V) k k' v : k <> k' -> get (set o k v) k' = get o k'.
Proof.
  intros Hne. induction o as [|[k0 v0] o IH]; simpl.
  - destruct (String.eqb k k') eqn:E; [|done].
    apply String.eqb_eq in E. contradiction.
  - destruct (String.eqb k0 k) eqn:E; simpl; [|by rewrite IH].
    apply String.eqb_eq in E. subst k0.
    destruct (String.eqb k k') eqn:E'; [|done].
    apply String.eqb_eq in E'. contradiction.
Qed.

Lemma get_set {V} (o : t V) k k' v :
  get (set o k v) k' = if String.eqb k k' then Some v else get o k'.
Proof.
  destruct (String.eqb k k') eqn:E.
  - apply String.eqb_eq in E. subst. apply get_set_eq.
  - apply String.eqb_neq in E. by apply get_set_ne.
Qed.

Lemma get_Some_keys {V} (o : t V) k v : get o k = Some v -> In k (keys o).
Proof.
  induction o as [|[k' v'] o IH]; simpl; [done|].
  destruct (String.eqb k' k) eqn:E.
  - apply String.eqb_eq in E. auto.
  - auto.
Qed.

Lemma keys_get_Some {V} (o : t V) k : In k (keys o) -> is_Some (get o k).
Proof.
  induction o as [|[k' v'] o IH]; simpl; [done|].
  destruct (String.eqb k' k) eqn:E; [eauto|].
  intros [->|H]; [|auto].
  by rewrite String.eqb_refl in E.
Qed.

Lemma get_None_keys {V} (o : t V) k : get o k = None <-> ~ In k (keys o).
Proof.
  split.
  - intros H Hin. apply keys_get_Some in Hin as [v Hv]. congruence.
  - intros H. destruct (get o k) eqn:E; [|done].
    apply get_Some_keys in E. contradiction.
Qed.

Lemma keys_set_present {V} (o : t V) k v :
  In k (keys o) -> keys (set o k v) = keys o.
Proof.
  induction o as [|[k' v'] o IH]; simpl; [done|].
  destruct (String.eqb k' k) eqn:E; simpl; [done|].
  intros [->|H]; [by rewrite String.eqb_refl in E|].
  f_equal. by apply IH.
Qed.

Lemma keys_set_absent {V} (o : t V) k v :
  ~ In k (keys o) -> keys (set o k v) = keys o ++ [k].
Proof.
  induction o as [|[k' v'] o IH]; simpl; [done|].
  intros H. destruct (String.eqb k' k) eqn:E.
  - apply String.eqb_eq in E. tauto.
  - simpl. f_equal. apply IH. tauto.
Qed.

Lemma In_keys_set {V} (o : t V) k k' v :
  In k' (keys (set o k v)) <-> k' = k \/ In k' (keys o).
Proof.
  destruct (in_dec String.string_dec k (keys o)) as [Hin|Hnin].
  - rewrite keys_set_present by done. split; [auto|].
    intros [->|H]; done.
  - rewrite keys_set_absent by done. rewrite in_app_iff. simpl.
    split; intros H; destruct H as [H|H]; auto.
    + destruct H as [->|[]]. auto.
Qed.

Lemma NoDup_keys_set {V} (o : t V) k v :
  List.NoDup (keys o) -> List.NoDup (keys (set o k v)).
Proof.
  intros Hnd. destruct (in_dec String.string_dec k (keys o)) as [Hin|Hnin].
  - by rewrite keys_set_present.
  - rewrite keys_set_absent by done.
    apply NoDup_ListNoDup. apply NoDup_ListNoDup in Hnd.
    apply NoDup_app. split_and!; [done| |apply NoDup_singleton].
    intros x Hx Hx'. apply list_elem_of_In in Hx.
    apply list_elem_of_singleton in Hx'. by subst.
Qed.

Lemma get_In_entries {V} (o : t V) k v : get o k = Some v -> In (k, v) (entries o).
Proof.
  unfold entries. induction o as [|[k' v'] o IH]; simpl; [done|].
  destruct (String.eqb k' k) eqn:E; [|auto].
  apply String.eqb_eq in E. intros [= ->]. subst. auto.
Qed.

Lemma In_entries_get {V} (o : t V) k v :
  List.NoDup (keys o) -> In (k, v) (entries o) -> get o k = Some v.
Proof.
  unfold entries. induction o as [|[k' v'] o IH]; simpl; [done|].
  intros Hnd [Heq|Hin].
  - injection Heq as -> ->. by rewrite String.eqb_refl.
  - inversion Hnd as [|? ? Hk Hnd']; subst.
    destruct (String.eqb k' k) eqn:E; [|auto].
    apply String.eqb_eq in E. subst k'. exfalso. apply Hk.
    change (In (fst (k, v)) (map fst o)). by apply in_map.
Qed.

(** *** Lookup through the prototype, and assignment *)

Lemma inherited_proto : inherited "__proto__" = true.
Proof. reflexivity. Qed.

Lemma lookup_own {V} (o : t V) k v : get o k = Some v -> lookup o k = Own v.
Proof. unfold lookup. by intros ->. Qed.

Lemma lookup_undefined {V} (o : t V) k :
  get o k = None -> inherited k = false -> lookup o k = Undefined.
Proof. unfold lookup. by intros -> ->. Qed.

Lemma lookup_inherited {V} (o : t V) k :
  get o k = None -> inherited k = true -> lookup o k = Inherited.
Proof. unfold lookup. by intros -> ->. Qed.

Lemma assign_own {V} (o : t V) k v x : get o k = Some x -> assign o k v = set o k v.
Proof. unfold assign. by intros ->. Qed.

Lemma assign_plain {V} (o : t V) k v : inherited k = false -> assign o k v = set o k v.
Proof.
  intros Hk. unfold assign. destruct (get o k); [done|].
  destruct (String.eqb k "__proto__") eqn:E; [|done].
  apply String.eqb_eq in E. subst k. by rewrite inherited_proto in Hk.
Qed.

Lemma assign_proto {V} (o : t V) v :
  get o "__proto__" = None -> assign o "__proto__" v = o.
Proof. unfold assign. by intros ->. Qed.

Lemma assign_not_proto {V} (o : t V) k v : k <> "__proto__" -> assign o k v = set o k v.
Proof.
  intros Hk. unfold assign. destruct (get o k); [done|].
  apply String.eqb_neq in Hk. by rewrite Hk.
Qed.

Lemma plainNames_get_None {V} (o : t V) k :
  plainNames o -> inherited k = true -> get o k = None.
Proof.
  intros Hplain Hk. destruct (get o k) as [v|] eqn:E; [|done].
  apply get_Some_keys, Hplain in E. congruence.
Qed.

(** *** The order of enumeration *)

Lemma insertIndex_Permutation {V} n (e : string * V) l :
  Permutation (insertIndex n e l) ((n, e) :: l).
Proof.
  induction l as [|[m e'] l IH]; simpl; [done|].
  destruct (n <=? m)%N; [done|].
  etransitivity; [apply perm_skip, IH|apply perm_swap].
Qed.

Lemma indexProperties_index {V} (o : t V) n e :
  In (n, e) (indexProperties o) -> arrayIndex (fst e) = Some n.
Proof.
  induction o as [|[k v] o IH]; simpl; [done|].
  destruct (arrayIndex k) as [m|] eqn:E; [|done].
  intros Hin. apply (Permutation_in _ (insertIndex_Permutation _ _ _)) in Hin.
  destruct Hin as [[= <- <-]|Hin]; [done|auto].
Qed.

Lemma Object_entries_Permutation {V} (o : t V) : Permutation (Object_entries o) o.
Proof.
  unfold Object_entries, stringProperties.
  induction o as [|[k v] o IH]; simpl; [done|].
  destruct (arrayIndex k) as [n|]; simpl.
  - etransitivity;
      [apply Permutation_app_tail, (Permutation_map snd), insertIndex_Permutation|].
    simpl. by apply perm_skip.
  - etransitivity; [symmetry; apply Permutation_middle|]. by apply perm_skip.
Qed.

Lemma Object_keys_Permutation {V} (o : t V) : Permutation (Object_keys o) (keys o).
Proof. apply (Permutation_map fst), Object_entries_Permutation. Qed.

Lemma In_Object_keys {V} (o : t V) k : In k (Object_keys o) <-> In k (keys o).
Proof.
  split; apply Permutation_in; [|symmetry]; apply Object_keys_Permutation.
Qed.

Lemma In_Object_entries {V} (o : t V) e : In e (Object_entries o) <-> In e (entries o).
Proof.
  split; apply Permutation_in; [|symmetry]; apply Object_entries_Permutation.
Qed.

Lemma NoDup_Object_keys {V} (o : t V) :
  List.NoDup (keys o) -> List.NoDup (Object_keys o).
Proof.
  apply Permutation_NoDup. symmetry. apply Object_keys_Permutation.
Qed.

(** Without array indices among the names, the order is the order of
    creation. *)
Lemma Object_entries_plain {V} (o : t V) :
  (forall k, In k (keys o) -> arrayIndex k = None) -> Object_entries o = o.
Proof.
  unfold Object_entries, stringProperties.
  induction o as [|[k v] o IH]; simpl; [done|].
  intros Hplain. rewrite (Hplain k) by (by left). simpl.
  assert (Hrest : forall k', In k' (keys o) -> arrayIndex k' = None)
    by (intros k' Hin; apply Hplain; by right).
  specialize (IH Hrest).
  destruct (indexProperties o) as [|x xs] eqn:Ei.
  - simpl in *. by rewrite IH.
  - exfalso. destruct x as [n e].
    assert (Hin : In (n, e) (indexProperties o)) by (rewrite Ei; by left).
    pose proof (indexProperties_index _ _ _ Hin) as Hidx.
    assert (Hk : In (fst e) (keys o)).
    { apply In_Object_keys. unfold Object_keys, Object_entries.
      rewrite map_app, in_app_iff. left. rewrite Ei. simpl. by left. }
    rewrite (Hrest _ Hk) in Hidx. done.
Qed.

Lemma Object_keys_plain {V} (o : t V) :
  (forall k, In k (keys o) -> arrayIndex k = None) -> Object_keys o = keys o.
Proof. intros Hplain. unfold Object_keys. by rewrite Object_entries_plain. Qed.

(** The names in the order of [Object.keys]: first the array indices, then,
    when the object was created with a first name that is no array index,
    that name and the other names that are no array indices. *)
Lemma Object_keys_first {V} (o : t V) k rest :
  keys o = k :: rest -> arrayIndex k = None ->
  exists indices others,
    Object_keys o = indices ++ k :: others
    /\ Forall (fun k' => is_Some (arrayIndex k')) indices
    /\ Forall (fun k' => arrayIndex k' = None) others.
Proof.
  destruct o as [|[k0 v] o]; [done|]. simpl. intros [= -> <-] Hk.
  unfold Object_keys, Object_entries, stringProperties. simpl. rewrite Hk. simpl.
  exists (map fst (map snd (indexProperties o))),
         (map fst (List.filter (fun e => match arrayIndex (fst e) with
                                         | Some _ => false
                                         | None => true
                                         end) o)).
  split; [by rewrite map_app|]. split.
  - apply Forall_forall. intros k' Hin. apply list_elem_of_In in Hin.
    apply in_map_iff in Hin as (e & <- & Hin).
    apply in_map_iff in Hin as ([n e'] & <- & Hin). simpl.
    rewrite (indexProperties_index _ _ _ Hin). eauto.
  - apply Forall_forall. intros k' Hin. apply list_elem_of_In in Hin.
    apply in_map_iff in Hin as (e & <- & Hin).
    apply filter_In in Hin as [_ Hin]. by destruct (arrayIndex (fst e)).
Qed.

Lemma get_Permutation {V} (o o' : t V) k :
  List.NoDup (keys o) -> Permutation o o' -> get o k = get o' k.
Proof.
  intros Hnd Hperm.
  assert (Hnd' : List.NoDup (keys o'))
    by (eapply Permutation_NoDup; [apply (Permutation_map fst), Hperm|done]).
  destruct (get o k) as [v|] eqn:E.
  - apply get_In_entries in E. unfold entries in E.
    apply (Permutation_in _ Hperm) in E. symmetry. by apply In_entries_get.
  - destruct (get o' k) as [v'|] eqn:E'; [|done].
    apply get_In_entries in E'. unfold entries in E'.
    apply (Permutation_in _ (Permutation_sym Hperm)) in E'.
    apply In_entries_get in E'; [congruence|done].
Qed.

Lemma get_Object_entries {V} (o : t V) k :
  List.NoDup (keys o) -> get (Object_entries o) k = get o k.
Proof.
  intros Hnd. symmetry. apply get_Permutation; [done|].
  symmetry. apply Object_entries_Permutation.
Qed.

End JsObjectFacts.

(** ** Sequencing *)

Lemma eff_bind_inv {S A B} (m : Eff S A) (f : A -> Eff S B) s out s' :
  (m ≫= f) s = (out, s') ->
  (exists e, m s = (Thrown e, s') /\ out = Thrown e) \/
  (exists a s1, m s = (Returned a, s1) /\ f a s1 = (out, s')).
Proof.
  unfold mbind, eff_mbind, eff_bind. destruct (m s) as [[a|e] s1].
  - intros Hf. right. eauto.
  - intros [= <- <-]. left. eauto.
Qed.

Lemma eff_bind_returned {S A B} (m : Eff S A) (f : A -> Eff S B) s b s' :
  (m ≫= f) s = (Returned b, s') ->
  exists a s1, m s = (Returned a, s1) /\ f a s1 = (Returned b, s').
Proof.
  intros Hrun. apply eff_bind_inv in Hrun as [(e & _ & [=])|Hrun]. done.
Qed.

Lemma eff_bind_run {S A B} (m : Eff S A) (f : A -> Eff S B) s a s1 :
  m s = (Returned a, s1) -> (m ≫= f) s = f a s1.
Proof. unfold mbind, eff_mbind, eff_bind. by intros ->. Qed.

Lemma eff_bind_thrown {S A B} (m : Eff S A) (f : A -> Eff S B) s e s1 :
  m s = (Thrown e, s1) -> (m ≫= f) s = (Thrown e, s1).
Proof. unfold mbind, eff_mbind, eff_bind. by intros ->. Qed.

Lemma outcome_bind_returned {A B} (a : A) (f : A -> Outcome B) :
  Returned a ≫= f = f a.
Proof. reflexivity. Qed.

Lemma outcome_bind_thrown {A B} e (f : A -> Outcome B) :
  Thrown e ≫= f = Thrown e.
Proof. reflexivity. Qed.

Lemma forOfPure_cons {A X} (body : A -> X -> Outcome A) x xs acc :
  forOfPure body (x :: xs) acc = body acc x ≫= forOfPure body xs.
Proof. reflexivity. Qed.

Lemma eff_lift_inv {S A} (o : Outcome A) (s : S) out s' :
  eff_lift o s = (out, s') -> out = o /\ s' = s.
Proof. by intros [= <- <-]. Qed.

(** ** The issue mapping *)

Import Audit.

Section AuditFacts.
Context `{Host}.

Lemma countIssues_set {V} (o : JsObject.t (list V)) k v :
  countIssues (JsObject.set o k v) + length (groupOf o k) = countIssues o + length v.
Proof.
  unfold countIssues, groupOf, JsObject.entries.
  induction o as [|[k' v'] o IH]; simpl; [lia|].
  destruct (String.eqb k' k) eqn:E; simpl; lia.
Qed.

Lemma groupOf_set_eq {V} (o : JsObject.t (list V)) k v :
  groupOf (JsObject.set o k v) k = v.
Proof. unfold groupOf. by rewrite JsObjectFacts.get_set_eq. Qed.

Lemma groupOf_set_ne {V} (o : JsObject.t (list V)) k k' v :
  k <> k' -> groupOf (JsObject.set o k v) k' = groupOf o k'.
Proof. intros Hne. unfold groupOf. by rewrite JsObjectFacts.get_set_ne. Qed.

(** For a uri that is no name of [Object.prototype] the group is created
    when missing, so the [push] does not throw. *)
Lemma push_ensured {V} (o : JsObject.t (list V)) k x :
  JsObject.inherited k = false ->
  let o1 := match JsObject.lookup o k with
            | JsObject.Undefined => JsObject.assign o k []
            | JsObject.Own _ => o
            | JsObject.Inherited => o
            end in
  push o1 k x = Returned (JsObject.set o1 k (groupOf o k ++ [x]))
  /\ groupOf o1 k = groupOf o k
  /\ countIssues o1 = countIssues o
  /\ (forall k', In k' (JsObject.keys o1) <-> k' = k \/ In k' (JsObject.keys o))
  /\ (List.NoDup (JsObject.keys o) -> List.NoDup (JsObject.keys o1)).
Proof.
  intros Hk. cbv zeta. unfold push, groupOf.
  destruct (JsObject.get o k) as [xs|] eqn:E.
  - rewrite !(JsObjectFacts.lookup_own _ _ _ E). simpl. rewrite E. simpl.
    split_and!; try done.
    intros k'. split; [auto|]. intros [->|Hin]; [|done].
    by apply JsObjectFacts.get_Some_keys in E.
  - rewrite (JsObjectFacts.lookup_undefined _ _ E Hk).
    rewrite (JsObjectFacts.assign_plain _ _ _ Hk).
    rewrite (JsObjectFacts.lookup_own _ _ _ (JsObjectFacts.get_set_eq o k [])).
    rewrite JsObjectFacts.get_set_eq. simpl. split_and!; try done.
    + pose proof (countIssues_set o k []) as Hc. unfold groupOf in Hc.
      rewrite E in Hc. simpl in Hc. lia.
    + intros k'. apply JsObjectFacts.In_keys_set.
    + apply JsObjectFacts.NoDup_keys_set.
Qed.

Lemma processIssue_unresolved mainUri root mappings du ipd bad issue :
  findIssueLocation mainUri root mappings (pointer issue) = Returned None ->
  processIssue mainUri root mappings (du, ipd, bad) issue
  = Returned (du, ipd, bad ++ [issue]).
Proof. intros E. unfold processIssue. by rewrite E. Qed.

Lemma processIssue_thrown mainUri root mappings st issue e :
  findIssueLocation mainUri root mappings (pointer issue) = Thrown e ->
  processIssue mainUri root mappings st issue = Thrown e.
Proof. intros E. destruct st as [[du ipd] bad]. unfold processIssue. by rewrite E. Qed.

(** The lookup of a group under a name of [Object.prototype] finds the
    inherited value: no group is created and the [push] throws. *)
Lemma processIssue_inherited mainUri root mappings du ipd bad issue u p :
  findIssueLocation mainUri root mappings (pointer issue) = Returned (Some (u, p)) ->
  JsObject.inherited u = true -> JsObject.get ipd u = None ->
  processIssue mainUri root mappings (du, ipd, bad) issue = Thrown TypeError.
Proof.
  intros E Hu Hnone. unfold processIssue. rewrite E. simpl.
  rewrite (JsObjectFacts.lookup_inherited _ _ Hnone Hu).
  unfold push. by rewrite (JsObjectFacts.lookup_inherited _ _ Hnone Hu).
Qed.

Lemma processIssue_resolved mainUri root mappings du ipd bad issue u p :
  findIssueLocation mainUri root mappings (pointer issue) = Returned (Some (u, p)) ->
  JsObject.inherited u = false ->
  exists du' ipd',
    processIssue mainUri root mappings (du, ipd, bad) issue = Returned (du', ipd', bad)
    /\ groupOf ipd' u = groupOf ipd u ++ [withPointer issue p]
    /\ (forall u', u <> u' -> groupOf ipd' u' = groupOf ipd u')
    /\ countIssues ipd' = S (countIssues ipd)
    /\ (forall u', In u' (JsObject.keys ipd') <-> u' = u \/ In u' (JsObject.keys ipd))
    /\ (List.NoDup (JsObject.keys ipd) -> List.NoDup (JsObject.keys ipd'))
    /\ (forall u', In u' (JsObject.keys du') <-> u' = u \/ In u' (JsObject.keys du))
    /\ (exists rest, JsObject.keys du' = JsObject.keys du ++ rest)
    /\ (List.NoDup (JsObject.keys du) -> List.NoDup (JsObject.keys du')).
Proof.
  intros E Hu. unfold processIssue. rewrite E. simpl.
  destruct (push_ensured ipd u (withPointer issue p) Hu) as (Hpush & Hg & Hc & Hk & Hnd).
  set (ipd1 := match JsObject.lookup ipd u with
               | JsObject.Undefined => JsObject.assign ipd u []
               | JsObject.Own _ => ipd
               | JsObject.Inherited => ipd
               end) in *.
  rewrite Hpush. simpl.
  eexists _, _. split; [reflexivity|]. split_and!.
  - apply groupOf_set_eq.
  - intros u' Hne. rewrite groupOf_set_ne by done.
    unfold ipd1, groupOf, JsObject.lookup.
    destruct (JsObject.get ipd u); [done|]. rewrite Hu.
    rewrite (JsObjectFacts.assign_plain _ _ _ Hu).
    by rewrite JsObjectFacts.get_set_ne.
  - pose proof (countIssues_set ipd1 u (groupOf ipd u ++ [withPointer issue p])) as Hs.
    rewrite Hg, length_app in Hs. simpl in Hs. lia.
  - intros u'. rewrite JsObjectFacts.In_keys_set, Hk. tauto.
  - intros Hn. apply JsObjectFacts.NoDup_keys_set. auto.
  - intros u'. unfold JsObject.lookup. destruct (JsObject.get du u) as [[|]|] eqn:Ed.
    + split; [auto|]. intros [->|Hin]; [|done].
      by apply JsObjectFacts.get_Some_keys in Ed.
    + rewrite (JsObjectFacts.assign_plain _ _ _ Hu). apply JsObjectFacts.In_keys_set.
    + rewrite Hu, (JsObjectFacts.assign_plain _ _ _ Hu). apply JsObjectFacts.In_keys_set.
  - unfold JsObject.lookup. destruct (JsObject.get du u) as [[|]|] eqn:Ed.
    + exists []. by rewrite app_nil_r.
    + rewrite (JsObjectFacts.assign_plain _ _ _ Hu).
      exists []. rewrite app_nil_r. apply JsObjectFacts.keys_set_present.
      by apply JsObjectFacts.get_Some_keys in Ed.
    + rewrite Hu, (JsObjectFacts.assign_plain _ _ _ Hu).
      exists [u]. apply JsObjectFacts.keys_set_absent.
      by apply JsObjectFacts.get_None_keys.
  - unfold JsObject.lookup. destruct (JsObject.get du u) as [[|]|] eqn:Ed.
    + done.
    + rewrite (JsObjectFacts.assign_plain _ _ _ Hu). apply JsObjectFacts.NoDup_keys_set.
    + rewrite Hu, (JsObjectFacts.assign_plain _ _ _ Hu). apply JsObjectFacts.NoDup_keys_set.
Qed.

(** What the loop of [processIssues] has done when it leaves normally. *)
Lemma processLoop_returned mainUri root mappings issues :
  forall du ipd bad du' ipd' bad',
  JsObject.plainNames ipd ->
  forOfPure (processIssue mainUri root mappings) issues (du, ipd, bad)
  = Returned (du', ipd', bad') ->
  bad' = bad ++ List.filter (unresolved mainUri root mappings) issues
  /\ (forall u, groupOf ipd' u
                = groupOf ipd u ++ omap (resolvedTo mainUri root mappings u) issues)
  /\ countIssues ipd' + length bad' = countIssues ipd + length bad + length issues
  /\ (forall u, In u (JsObject.keys du) -> In u (JsObject.keys du'))
  /\ ((forall u, In u (JsObject.keys ipd) -> In u (JsObject.keys du)) ->
      forall u, In u (JsObject.keys ipd') -> In u (JsObject.keys du'))
  /\ (List.NoDup (JsObject.keys ipd) -> List.NoDup (JsObject.keys ipd'))
  /\ JsObject.plainNames ipd'.
Proof.
  induction issues as [|issue issues IH]; intros du ipd bad du' ipd' bad' Hplain.
  - simpl. intros [= <- <- <-]. split_and!; auto.
    + by rewrite app_nil_r.
    + intros u. by rewrite app_nil_r.
  - rewrite forOfPure_cons. cbn [List.filter omap list_omap length].
    unfold unresolved at 1.
    destruct (findIssueLocation mainUri root mappings (pointer issue))
      as [[[u p]|]|e] eqn:E.
    + destruct (JsObject.inherited u) eqn:Hu.
      { rewrite (processIssue_inherited _ _ _ _ _ _ _ _ _ E Hu
                   (JsObjectFacts.plainNames_get_None _ _ Hplain Hu)).
        by rewrite outcome_bind_thrown. }
      destruct (processIssue_resolved mainUri root mappings du ipd bad issue u p E Hu)
        as (du1 & ipd1 & -> & Hg & Hg' & Hc & Hk & Hnd & Hdu & _).
      rewrite outcome_bind_returned. intros Hloop.
      apply IH in Hloop as (Hbad & Hgroups & Hcount & Hkeys & Hsub & Hnd' & Hplain');
        [|intros k Hin; apply Hk in Hin as [->|Hin]; [done|by apply Hplain]].
      split_and!.
      * done.
      * intros u'. rewrite Hgroups. unfold resolvedTo at 2. rewrite E.
        destruct (String.eqb u u') eqn:Eu.
        -- apply String.eqb_eq in Eu. subst u'. rewrite Hg.
           by rewrite <- app_assoc.
        -- apply String.eqb_neq in Eu. by rewrite Hg'.
      * lia.
      * intros u' Hin. apply Hkeys, Hdu. auto.
      * intros Hsub0. apply Hsub. intros u' Hin.
        apply Hk in Hin. apply Hdu. destruct Hin; auto.
      * auto.
      * done.
    + rewrite (processIssue_unresolved _ _ _ _ _ _ _ E), outcome_bind_returned.
      intros Hloop.
      apply IH in Hloop as (Hbad & Hgroups & Hcount & Hkeys & Hsub & Hnd' & Hplain');
        [|done].
      split_and!; auto.
      * by rewrite Hbad, <- app_assoc.
      * intros u'. rewrite Hgroups. unfold resolvedTo at 2. by rewrite E.
      * rewrite length_app in Hcount. simpl in *. lia.
    + by rewrite (processIssue_thrown _ _ _ _ _ _ E).
Qed.

(** The same for the loop as [processIssues] starts it. *)
Lemma processRun_returned mainUri root mappings issues du ipd bad :
  forOfPure (processIssue mainUri root mappings) issues
    (JsObject.set JsObject.empty mainUri true, JsObject.empty, [])
  = Returned (du, ipd, bad) ->
  bad = List.filter (unresolved mainUri root mappings) issues
  /\ (forall u, groupOf ipd u = omap (resolvedTo mainUri root mappings u) issues)
  /\ countIssues ipd + length bad = length issues
  /\ In mainUri (JsObject.keys du)
  /\ (forall u, In u (JsObject.keys ipd) -> In u (JsObject.keys du))
  /\ List.NoDup (JsObject.keys ipd)
  /\ JsObject.plainNames ipd.
Proof.
  intros Hloop.
  apply processLoop_returned in Hloop
    as (Hbad & Hgroups & Hcount & Hkeys & Hsub & Hnd & Hplain); [|by intros ? []].
  change (countIssues JsObject.empty) with 0 in Hcount. simpl in Hcount, Hbad.
  split_and!; [done| |lia| | | |done].
  - intros u. by rewrite Hgroups.
  - apply Hkeys. simpl. by left.
  - apply Hsub. by intros ? [].
  - apply Hnd. constructor.
Qed.

(** The loop leaves normally when the Mapping Table answers every lookup and
    no issue is sent to a name of [Object.prototype]. *)
Lemma processLoop_returns mainUri root mappings issues :
  mappingsAnswer root mappings issues ->
  plainLocations mainUri root mappings issues ->
  forall st, JsObject.plainNames st.1.2 -> exists st',
    forOfPure (processIssue mainUri root mappings) issues st = Returned st'.
Proof.
  unfold mappingsAnswer, plainLocations.
  induction issues as [|issue issues IH]; intros Hanswer Hlocations [[du ipd] bad] Hplain.
  - simpl. eauto.
  - apply Forall_cons in Hanswer as [Hissue Hanswer].
    apply Forall_cons in Hlocations as [Hlocation Hlocations].
    rewrite forOfPure_cons.
    destruct (findIssueLocation mainUri root mappings (pointer issue))
      as [[[u p]|]|e] eqn:E.
    + destruct (processIssue_resolved mainUri root mappings du ipd bad issue u p E
                  (Hlocation u p eq_refl))
        as (du1 & ipd1 & -> & _ & _ & _ & Hk & _).
      rewrite outcome_bind_returned. apply IH; [done|done|]. simpl in *.
      intros k Hin.
      apply Hk in Hin as [->|Hin]; [exact (Hlocation _ p eq_refl)|by apply Hplain].
    + rewrite (processIssue_unresolved _ _ _ _ _ _ _ E), outcome_bind_returned.
      by apply IH.
    + exfalso. unfold findIssueLocation in E.
      destruct (find root (pointer issue)); [done|].
      destruct Hissue as [mapping Hm]; [done|]. rewrite Hm in E.
      destruct (mapping_hash mapping) as [hash|]; [|done].
      by destruct (String.eqb hash "").
Qed.

Lemma findIssueLocation_found mainUri root mappings p node :
  find root p = Some node ->
  findIssueLocation mainUri root mappings p = Returned (Some (mainUri, p)).
Proof. unfold findIssueLocation. by intros ->. Qed.

Lemma findIssueLocation_hash mainUri root mappings p mapping hash :
  find root p = None -> findMapping mappings p = Some mapping ->
  mapping_hash mapping = Some hash -> hash <> "" ->
  findIssueLocation mainUri root mappings p = Returned (Some (mapping_uri mapping, hash)).
Proof.
  unfold findIssueLocation. intros -> -> -> Hne.
  apply String.eqb_neq in Hne. by rewrite Hne.
Qed.

Lemma findIssueLocation_no_hash mainUri root mappings p mapping :
  find root p = None -> findMapping mappings p = Some mapping ->
  truthy (mapping_hash mapping) = false ->
  findIssueLocation mainUri root mappings p = Returned None.
Proof.
  unfold findIssueLocation, truthy. intros -> ->.
  destruct (mapping_hash mapping) as [hash|]; [|done].
  by destruct (String.eqb hash "").
Qed.

Lemma processIssues_run document cache mappings issues s :
  processIssues document cache mappings issues s
  = (match forOfPure (processIssue (uri document)
                        (getLastGoodDocumentAst cache document) mappings) issues
             (JsObject.set JsObject.empty (uri document) true, JsObject.empty, []) with
     | Returned (du, ipd, bad) =>
         Returned (getLastGoodDocumentAst cache document, JsObject.Object_keys du,
                   ipd, bad)
     | Thrown e => Thrown e
     end,
     {| opened := opened s; astRequests := astRequests s ++ [document] |}).
Proof.
  unfold processIssues, cache_getLastGoodDocumentAst, eff_lift.
  unfold mbind, eff_mbind, eff_bind, mret, eff_mret, eff_ret.
  destruct (forOfPure _ issues _) as [[[du ipd] bad]|e]; reflexivity.
Qed.

Lemma processIssues_returned document cache mappings issues s root uris ipd bad s' :
  processIssues document cache mappings issues s = (Returned (root, uris, ipd, bad), s') ->
  root = getLastGoodDocumentAst cache document
  /\ s' = {| opened := opened s; astRequests := astRequests s ++ [document] |}
  /\ exists du,
       forOfPure (processIssue (uri document) root mappings) issues
         (JsObject.set JsObject.empty (uri document) true, JsObject.empty, [])
       = Returned (du, ipd, bad)
       /\ uris = JsObject.Object_keys du.
Proof.
  rewrite processIssues_run.
  destruct (forOfPure _ issues _) as [[[du ipd0] bad0]|e] eqn:E; [|done].
  intros [= <- <- <- <- <-]. eauto.
Qed.

(** The groups of a returning run: what each holds, that no uri has two
    groups, that no group is under a name of [Object.prototype], and that
    the uri of every group is among the returned uris, as the main uri
    is. *)
Lemma processIssues_groups document cache mappings issues s root uris ipd bad s' :
  processIssues document cache mappings issues s
  = (Returned (root, uris, ipd, bad), s') ->
  (forall u, groupOf ipd u = omap (resolvedTo (uri document) root mappings u) issues)
  /\ List.NoDup (JsObject.keys ipd)
  /\ JsObject.plainNames ipd
  /\ In (uri document) uris
  /\ (forall u, In u (JsObject.keys ipd) -> In u uris).
Proof.
  intros Hrun.
  apply processIssues_returned in Hrun as (_ & _ & du & Hloop & ->).
  apply processRun_returned in Hloop as (_ & Hgroups & _ & Hmain & Hsub & Hnd & Hplain).
  split_and!; [done|done|done| |].
  - by apply JsObjectFacts.In_Object_keys.
  - intros u Hin. by apply JsObjectFacts.In_Object_keys, Hsub.
Qed.

(** *** Loading the documents *)

Lemma loadDocument_present cache files u x s :
  JsObject.get files u = Some x ->
  loadDocument cache files u s = (Returned files, s).
Proof.
  intros Hget. unfold loadDocument. by rewrite (JsObjectFacts.lookup_own _ _ _ Hget).
Qed.

Lemma loadDocument_inherited cache files u s :
  JsObject.get files u = None -> JsObject.inherited u = true ->
  loadDocument cache files u s = (Returned files, s).
Proof.
  intros Hget Hu. unfold loadDocument.
  by rewrite (JsObjectFacts.lookup_inherited _ _ Hget Hu).
Qed.

Lemma loadDocument_absent cache files u d s :
  JsObject.get files u = None -> JsObject.inherited u = false ->
  openTextDocument u = Some d ->
  loadDocument cache files u s
  = (Returned (JsObject.set files u (d, getLastGoodDocumentAst cache d)),
     {| opened := opened s ++ [u]; astRequests := astRequests s ++ [d] |}).
Proof.
  intros Hget Hu Hd. unfold loadDocument.
  rewrite (JsObjectFacts.lookup_undefined _ _ Hget Hu).
  unfold workspace_openTextDocument, cache_getLastGoodDocumentAst.
  unfold mbind, eff_mbind, eff_bind. rewrite Hd.
  by rewrite (JsObjectFacts.assign_plain _ _ _ Hu).
Qed.

Lemma loadDocument_rejected cache files u s :
  JsObject.get files u = None -> JsObject.inherited u = false ->
  openTextDocument u = None ->
  loadDocument cache files u s
  = (Thrown Rejected, {| opened := opened s ++ [u]; astRequests := astRequests s |}).
Proof.
  intros Hget Hu Hd. unfold loadDocument.
  rewrite (JsObjectFacts.lookup_undefined _ _ Hget Hu).
  unfold workspace_openTextDocument.
  unfold mbind, eff_mbind, eff_bind. by rewrite Hd.
Qed.

Lemma loadLoop_spec cache uris :
  forall files s out s',
  forOf (loadDocument cache) uris files s = (out, s') ->
  exists new,
    opened s' = opened s ++ new
    /\ List.NoDup new
    /\ (forall u, In u new ->
          In u uris /\ JsObject.get files u = None /\ JsObject.inherited u = false)
    /\ (forall files', out = Returned files' ->
          astRequests s' = astRequests s ++ omap openTextDocument new
          /\ (forall u, In u uris -> JsObject.inherited u = false ->
                is_Some (JsObject.get files' u))
          /\ (forall u x, JsObject.get files u = Some x -> JsObject.get files' u = Some x)
          /\ (forall u d r, JsObject.get files' u = Some (d, r) ->
                JsObject.get files u = Some (d, r)
                \/ (In u new /\ openTextDocument u = Some d
                    /\ r = getLastGoodDocumentAst cache d))
          /\ (List.NoDup (JsObject.keys files) -> List.NoDup (JsObject.keys files'))
          /\ JsObject.keys files' = JsObject.keys files ++ new).
Proof.
  induction uris as [|u uris IH]; intros files s out s'.
  - simpl. intros [= <- <-]. exists []. rewrite !app_nil_r.
    split_and!; [done|constructor|done|].
    intros files' [= <-]. split_and!; auto. done.
  - cbn [forOf]. intros Hrun.
    destruct (JsObject.get files u) as [x|] eqn:Eget;
      [|destruct (JsObject.inherited u) eqn:Hu;
        [|destruct (openTextDocument u) as [d|] eqn:Eopen]].
    + (* already in the table *)
      rewrite (eff_bind_run _ _ _ _ _ (loadDocument_present _ _ _ _ _ Eget)) in Hrun.
      apply IH in Hrun as (new & Hopened & Hnd & Hnew & Hret).
      exists new. split_and!; [done|done| |].
      * intros u' Hin. destruct (Hnew u' Hin) as (? & ? & ?). split_and!; [by right|done|done].
      * intros files' ->.
        destruct (Hret files' eq_refl) as (Hast & Hall & Hkeep & Horigin & Hkeys & Hk).
        split_and!; auto.
        intros u' [<-|Hin] Hp; [|auto]. rewrite (Hkeep _ _ Eget). eauto.
    + (* an inherited value is found: nothing is loaded *)
      rewrite (eff_bind_run _ _ _ _ _ (loadDocument_inherited _ _ _ _ Eget Hu)) in Hrun.
      apply IH in Hrun as (new & Hopened & Hnd & Hnew & Hret).
      exists new. split_and!; [done|done| |].
      * intros u' Hin. destruct (Hnew u' Hin) as (? & ? & ?). split_and!; [by right|done|done].
      * intros files' ->.
        destruct (Hret files' eq_refl) as (Hast & Hall & Hkeep & Horigin & Hkeys & Hk).
        split_and!; auto.
        intros u' [<-|Hin] Hp; [congruence|auto].
    + (* opened and parsed now *)
      rewrite (eff_bind_run _ _ _ _ _ (loadDocument_absent _ _ _ _ _ Eget Hu Eopen)) in Hrun.
      apply IH in Hrun as (new & Hopened & Hnd & Hnew & Hret).
      simpl in Hopened.
      exists (u :: new). split_and!.
      * by rewrite Hopened, <- app_assoc.
      * constructor; [|done]. intros Hin. destruct (Hnew u Hin) as (_ & Hnone & _).
        by rewrite JsObjectFacts.get_set_eq in Hnone.
      * intros u' [<-|Hin]; [split_and!; [by left|done|done]|].
        destruct (Hnew u' Hin) as (Hin' & Hnone & Hp). split_and!; [by right| |done].
        rewrite JsObjectFacts.get_set in Hnone.
        by destruct (String.eqb u u').
      * intros files' ->.
        destruct (Hret files' eq_refl) as (Hast & Hall & Hkeep & Horigin & Hkeys & Hk).
        simpl in Hast. split_and!.
        -- simpl. rewrite Eopen. simpl. by rewrite Hast, <- app_assoc.
        -- intros u' [<-|Hin] Hp; [|auto].
           erewrite Hkeep; [eauto|]. apply JsObjectFacts.get_set_eq.
        -- intros u' x Hx. apply Hkeep. rewrite JsObjectFacts.get_set.
           destruct (String.eqb u u') eqn:Eu; [|done].
           apply String.eqb_eq in Eu. subst u'. congruence.
        -- intros u' d' r' Hget. apply Horigin in Hget as [Hget|(Hin & Ho & Hr)].
           ++ rewrite JsObjectFacts.get_set in Hget.
              destruct (String.eqb u u') eqn:Eu; [|by left].
              apply String.eqb_eq in Eu. subst u'. injection Hget as <- <-.
              right. split_and!; [by left|done|done].
           ++ right. split_and!; [by right|done|done].
        -- intros Hn. apply Hkeys. by apply JsObjectFacts.NoDup_keys_set.
        -- rewrite Hk, JsObjectFacts.keys_set_absent, <- app_assoc; [done|].
           by apply JsObjectFacts.get_None_keys.
    + (* the document cannot be opened *)
      rewrite (eff_bind_thrown _ _ _ _ _ (loadDocument_rejected _ _ _ _ Eget Hu Eopen))
        in Hrun.
      injection Hrun as <- <-. exists [u]. simpl. split_and!; [done| | |done].
      * constructor; [by intros []|constructor].
      * intros u' [<-|[]]. split_and!; [by left|done|done].
Qed.

(** *** Locating the issues of each group *)

Lemma locateGroup_found files issues k reported d r :
  JsObject.get files k = Some (d, r) -> JsObject.inherited k = false ->
  locateGroup files issues (k, reported)
  = Returned (JsObject.set issues k (map (locateIssue k d r) reported)).
Proof.
  intros Hget Hk. unfold locateGroup.
  by rewrite (JsObjectFacts.lookup_own _ _ _ Hget), (JsObjectFacts.assign_plain _ _ _ Hk).
Qed.

Lemma locateGroup_missing files issues k reported :
  JsObject.get files k = None ->
  locateGroup files issues (k, reported) = Thrown TypeError.
Proof.
  intros Hget. unfold locateGroup, JsObject.lookup. rewrite Hget.
  by destruct (JsObject.inherited k).
Qed.

Lemma locateLoop_returned files entries :
  List.NoDup (map fst entries) ->
  (forall k, In k (map fst entries) -> JsObject.inherited k = false) ->
  forall issues issues',
  forOfPure (locateGroup files) entries issues = Returned issues' ->
  forall u,
    (forall reported, In (u, reported) entries ->
       exists d r, JsObject.get files u = Some (d, r)
                   /\ JsObject.get issues' u = Some (map (locateIssue u d r) reported))
    /\ (~ In u (map fst entries) -> JsObject.get issues' u = JsObject.get issues u).
Proof.
  induction entries as [|[k rep] entries IH]; intros Hnd Hplain issues issues'.
  - simpl. intros [= <-] u. split; [intros reported []|done].
  - rewrite forOfPure_cons.
    destruct (JsObject.get files k) as [[d r]|] eqn:Efiles;
      [|by rewrite (locateGroup_missing _ _ _ _ Efiles), outcome_bind_thrown].
    rewrite (locateGroup_found _ _ _ _ _ _ Efiles (Hplain k (or_introl eq_refl))).
    rewrite outcome_bind_returned.
    intros Hloop u.
    inversion Hnd as [|? ? Hk Hnd']; subst.
    assert (Hplain' : forall k', In k' (map fst entries) -> JsObject.inherited k' = false)
      by (intros k' Hin; apply Hplain; by right).
    destruct (IH Hnd' Hplain' _ _ Hloop u) as [Hin Hout]. split.
    + intros reported [Heq|Hin'].
      * injection Heq as -> ->. exists d, r. split; [done|].
        rewrite (Hout Hk). apply JsObjectFacts.get_set_eq.
      * auto.
    + simpl. intros Hnin. rewrite Hout by tauto.
      apply JsObjectFacts.get_set_ne. tauto.
Qed.

Lemma locateLoop_returns files entries :
  (forall u, In u (map fst entries) -> is_Some (JsObject.get files u)) ->
  (forall k, In k (map fst entries) -> JsObject.inherited k = false) ->
  forall issues, exists issues',
    forOfPure (locateGroup files) entries issues = Returned issues'.
Proof.
  induction entries as [|[k rep] entries IH]; intros Hfiles Hplain issues.
  - simpl. eauto.
  - rewrite forOfPure_cons.
    destruct (Hfiles k) as [[d r] Hk]; [by left|].
    rewrite (locateGroup_found _ _ _ _ _ _ Hk (Hplain k (or_introl eq_refl))).
    rewrite outcome_bind_returned.
    apply IH; intros u Hin; [apply Hfiles|apply Hplain]; by right.
Qed.

(** The documents assigned from a list of entries of the files table. *)
Lemma documents_fold (entries : Files) u :
  forall (acc : JsObject.t TextDocument),
  List.NoDup (map fst entries) ->
  JsObject.get acc "__proto__" = None ->
  JsObject.get
    (fold_left (fun documents '(uri, (document, _)) =>
                  JsObject.assign documents uri document) entries acc) u
  = if String.eqb u "__proto__" then None
    else match JsObject.get entries u with
         | Some x => Some (fst x)
         | None => JsObject.get acc u
         end.
Proof.
  induction entries as [|[k [d r]] entries IH]; intros acc Hnd Hacc.
  - simpl. destruct (String.eqb u "__proto__") eqn:E; [|done].
    apply String.eqb_eq in E. by subst u.
  - inversion Hnd as [|? ? Hk Hnd']; subst. simpl.
    destruct (String.eqb k "__proto__") eqn:Ek.
    + apply String.eqb_eq in Ek. subst k.
      rewrite (JsObjectFacts.assign_proto _ _ Hacc), IH by done.
      destruct (String.eqb u "__proto__") eqn:Eu; [done|].
      rewrite String.eqb_sym, Eu. done.
    + apply String.eqb_neq in Ek.
      rewrite (JsObjectFacts.assign_not_proto _ _ _ Ek).
      rewrite IH; [|done|by rewrite JsObjectFacts.get_set_ne].
      destruct (String.eqb u "__proto__") eqn:Eu; [done|].
      destruct (String.eqb k u) eqn:E.
      * apply String.eqb_eq in E. subst k.
        apply JsObjectFacts.get_None_keys in Hk. rewrite Hk.
        apply JsObjectFacts.get_set_eq.
      * destruct (JsObject.get entries u); [done|].
        apply String.eqb_neq in E. by apply JsObjectFacts.get_set_ne.
Qed.

Lemma documentsOf_get files u :
  List.NoDup (JsObject.keys files) ->
  JsObject.get (documentsOf files) u
  = if String.eqb u "__proto__" then None else fst <$> JsObject.get files u.
Proof.
  intros Hnd. unfold documentsOf.
  rewrite documents_fold; [|by apply JsObjectFacts.NoDup_Object_keys|done].
  rewrite JsObjectFacts.get_Object_entries by done.
  destruct (String.eqb u "__proto__"); [done|]. by destruct (JsObject.get files u).
Qed.

Lemma documentsOf_get_plain files u :
  List.NoDup (JsObject.keys files) -> JsObject.inherited u = false ->
  JsObject.get (documentsOf files) u = fst <$> JsObject.get files u.
Proof.
  intros Hnd Hu. rewrite documentsOf_get by done.
  destruct (String.eqb u "__proto__") eqn:E; [|done].
  apply String.eqb_eq in E. subst u. by rewrite JsObjectFacts.inherited_proto in Hu.
Qed.

(** *** The whole of [auditDocument] *)

Lemma auditDocument_returned mainDocument json cache mappings apiToken progress
    s grades issues documents bad s' :
  auditDocument mainDocument json cache mappings apiToken progress s
  = (Returned (grades, issues, documents, bad), s') ->
  exists reported root uris ipd files s1,
    audit json (trim apiToken) progress = Some (grades, reported)
    /\ processIssues mainDocument cache mappings reported s
       = (Returned (root, uris, ipd, bad), s1)
    /\ loadFiles mainDocument root cache uris s1 = (Returned files, s')
    /\ forOfPure (locateGroup files) (JsObject.Object_entries ipd) JsObject.empty
       = Returned issues
    /\ documents = documentsOf files.
Proof.
  unfold auditDocument. intros Hrun.
  apply eff_bind_returned in Hrun as ([grades0 reported] & s0 & Haudit & Hrun).
  unfold remote_audit in Haudit.
  destruct (audit json (trim apiToken) progress) as [r|] eqn:Ea; [|done].
  injection Haudit as -> <-.
  apply eff_bind_returned in Hrun as ([[[root uris] ipd] bad0] & s1 & Hproc & Hrun).
  apply eff_bind_returned in Hrun as (files & s2 & Hload & Hrun).
  apply eff_bind_returned in Hrun as (issues0 & s3 & Hlocate & Hret).
  apply eff_lift_inv in Hlocate as [Hlocate ->].
  injection Hret as <- <- <- <- <-.
  exists reported, root, uris, ipd, files, s1. by split_and!.
Qed.

(** What a returning run has in hand when it has located the groups. *)
Lemma auditDocument_parts mainDocument json cache mappings apiToken progress
    s grades issues documents bad s' :
  auditDocument mainDocument json cache mappings apiToken progress s
  = (Returned (grades, issues, documents, bad), s') ->
  let root := getLastGoodDocumentAst cache mainDocument in
  let s1 := {| opened := opened s; astRequests := astRequests s ++ [mainDocument] |} in
  exists reported uris ipd files new,
    audit json (trim apiToken) progress = Some (grades, reported)
    /\ processIssues mainDocument cache mappings reported s
       = (Returned (root, uris, ipd, bad), s1)
    /\ loadFiles mainDocument root cache uris s1 = (Returned files, s')
    /\ documents = documentsOf files
    /\ opened s' = opened s ++ new
    /\ astRequests s' = astRequests s ++ mainDocument :: omap openTextDocument new
    /\ JsObject.keys files = uri mainDocument :: new
    /\ List.NoDup (JsObject.keys files)
    /\ JsObject.get files (uri mainDocument) = Some (mainDocument, root)
    /\ (forall u, In u new ->
          In u uris /\ u <> uri mainDocument /\ JsObject.inherited u = false
          /\ exists d, openTextDocument u = Some d
                       /\ JsObject.get files u = Some (d, getLastGoodDocumentAst cache d))
    /\ (forall u reported,
          JsObject.get ipd u = Some reported ->
          exists d r, JsObject.get files u = Some (d, r)
                      /\ r = getLastGoodDocumentAst cache d
                      /\ (u = uri mainDocument /\ d = mainDocument
                          \/ In u new /\ openTextDocument u = Some d)
                      /\ JsObject.get issues u = Some (map (locateIssue u d r) reported))
    /\ (forall u, JsObject.get ipd u = None -> JsObject.get issues u = None)
    /\ (forall u, groupOf ipd u
                  = omap (resolvedTo (uri mainDocument) root mappings u) reported)
    /\ List.NoDup (JsObject.keys ipd)
    /\ JsObject.plainNames ipd.
Proof.
  intros Hrun root s1.
  apply auditDocument_returned in Hrun
    as (reported & root0 & uris & ipd & files & s0 & Haudit & Hproc & Hload & Hlocate & ->).
  destruct (processIssues_groups _ _ _ _ _ _ _ _ _ _ Hproc)
    as (Hgroups & Hnd & Hplain & _ & Hsub).
  pose proof Hproc as Hret0.
  apply processIssues_returned in Hret0 as (-> & -> & _). fold root s1 in Hproc, Hload.
  unfold loadFiles in Hload.
  pose proof Hload as Hspec.
  apply loadLoop_spec in Hspec as (new & Hopened & _ & Hnew & Hret).
  destruct (Hret files eq_refl) as (Hast & Hall & Hkeep & Horigin & Hkeys & Hk).
  simpl in Hopened, Hast, Hk.
  assert (Hfnd : List.NoDup (JsObject.keys files)).
  { apply Hkeys. apply JsObjectFacts.NoDup_keys_set. constructor. }
  assert (Hmain : JsObject.get files (uri mainDocument) = Some (mainDocument, root)).
  { apply Hkeep. apply JsObjectFacts.get_set_eq. }
  assert (Hsource : forall u d r, JsObject.get files u = Some (d, r) ->
            r = getLastGoodDocumentAst cache d
            /\ (u = uri mainDocument /\ d = mainDocument
                \/ In u new /\ openTextDocument u = Some d)).
  { intros u d r Hf. apply Horigin in Hf as [Hf|(Hin & Ho & ->)]; [|by auto].
    rewrite JsObjectFacts.get_set in Hf.
    destruct (String.eqb (uri mainDocument) u) eqn:Eu; [|done].
    apply String.eqb_eq in Eu. injection Hf as <- <-. auto. }
  assert (Hend : List.NoDup (map fst (JsObject.Object_entries ipd)))
    by (by apply JsObjectFacts.NoDup_Object_keys).
  assert (Heplain : forall k, In k (map fst (JsObject.Object_entries ipd)) ->
            JsObject.inherited k = false).
  { intros k Hin. by apply Hplain, JsObjectFacts.In_Object_keys. }
  exists reported, uris, ipd, files, new.
  split_and!; try done.
  - by rewrite Hast, <- app_assoc.
  - intros u Hin. destruct (Hnew u Hin) as (Hu & Hnone & Hp).
    split_and!; [done| |done|].
    + intros ->. by rewrite JsObjectFacts.get_set_eq in Hnone.
    + assert (Hin' : In u (JsObject.keys files)) by (rewrite Hk; by right).
      apply JsObjectFacts.keys_get_Some in Hin' as [[d r] Hf].
      exists d. pose proof Hf as Hf'.
      apply Horigin in Hf' as [Hf'|(_ & Ho & ->)]; [congruence|done].
  - intros u rep Hrep.
    destruct (locateLoop_returned files _ Hend Heplain _ _ Hlocate u) as [Hin _].
    destruct (Hin rep) as (d & r & Hf & Hissues).
    { apply JsObjectFacts.In_Object_entries. by apply JsObjectFacts.get_In_entries. }
    exists d, r. destruct (Hsource _ _ _ Hf) as [-> Hwhere]. by split_and!.
  - intros u Hnone.
    destruct (locateLoop_returned files _ Hend Heplain _ _ Hlocate u) as [_ Hout].
    rewrite Hout; [done|].
    intros Hin. apply (proj1 (JsObjectFacts.In_Object_keys _ _)) in Hin.
    apply JsObjectFacts.keys_get_Some in Hin. rewrite Hnone in Hin. by destruct Hin.
Qed.


(** *** How a run of the loop of [processIssues] ends *)

Lemma findIssueLocation_thrown mainUri root mappings p e :
  findIssueLocation mainUri root mappings p = Thrown e ->
  e = TypeError /\ find root p = None /\ findMapping mappings p = None.
Proof.
  unfold findIssueLocation. destruct (find root p); [done|].
  destruct (findMapping mappings p) as [mapping|]; [|by intros [= <-]].
  destruct (mapping_hash mapping) as [hash|]; [|done].
  by destruct (String.eqb hash "").
Qed.

Lemma findIssueLocation_returned mainUri root mappings p location :
  findIssueLocation mainUri root mappings p = Returned location ->
  find root p = None -> is_Some (findMapping mappings p).
Proof.
  unfold findIssueLocation. intros Hret Hfind. rewrite Hfind in Hret.
  destruct (findMapping mappings p); [eauto|done].
Qed.

(** The loop of [processIssues] throws exactly when some lookup in the
    Mapping Table answers [undefined] or some issue is sent to a name of
    [Object.prototype], and then with a [TypeError]. *)
Lemma processLoop_outcome mainUri root mappings issues :
  forall st, JsObject.plainNames st.1.2 ->
  match forOfPure (processIssue mainUri root mappings) issues st with
  | Returned _ =>
      mappingsAnswer root mappings issues /\ plainLocations mainUri root mappings issues
  | Thrown e =>
      e = TypeError
      /\ ~ (mappingsAnswer root mappings issues
            /\ plainLocations mainUri root mappings issues)
  end.
Proof.
  unfold mappingsAnswer, plainLocations.
  induction issues as [|issue issues IH]; intros [[du ipd] bad] Hplain.
  - simpl. split; constructor.
  - rewrite forOfPure_cons. simpl in Hplain.
    destruct (findIssueLocation mainUri root mappings (pointer issue))
      as [[[u p]|]|e] eqn:E.
    + destruct (JsObject.inherited u) eqn:Hu.
      { rewrite (processIssue_inherited _ _ _ _ _ _ _ _ _ E Hu
                   (JsObjectFacts.plainNames_get_None _ _ Hplain Hu)).
        rewrite outcome_bind_thrown. split; [done|].
        intros [_ Hall]. apply Forall_cons in Hall as [Hissue _].
        specialize (Hissue u p E). congruence. }
      destruct (processIssue_resolved mainUri root mappings du ipd bad issue u p E Hu)
        as (du1 & ipd1 & -> & _ & _ & _ & Hk & _). rewrite outcome_bind_returned.
      assert (Hplain1 : JsObject.plainNames (du1, ipd1, bad).1.2).
      { intros k Hin. apply Hk in Hin as [->|Hin]; [done|by apply Hplain]. }
      specialize (IH (du1, ipd1, bad) Hplain1).
      destruct (forOfPure _ issues _) as [st'|e].
      * destruct IH as [Ha Hl]. split; constructor; try done.
        -- by eapply findIssueLocation_returned.
        -- intros u' p' Hl'. rewrite E in Hl'. by injection Hl' as <- <-.
      * destruct IH as [-> Hno]. split; [done|].
        intros [Ha Hl]. apply Hno.
        apply Forall_cons in Ha as [_ Ha]. apply Forall_cons in Hl as [_ Hl]. done.
    + rewrite (processIssue_unresolved _ _ _ _ _ _ _ E), outcome_bind_returned.
      specialize (IH (du, ipd, bad ++ [issue]) Hplain).
      destruct (forOfPure _ issues _) as [st'|e].
      * destruct IH as [Ha Hl]. split; constructor; try done.
        -- by eapply findIssueLocation_returned.
        -- intros u' p' Hl'. by rewrite E in Hl'.
      * destruct IH as [-> Hno]. split; [done|].
        intros [Ha Hl]. apply Hno.
        apply Forall_cons in Ha as [_ Ha]. apply Forall_cons in Hl as [_ Hl]. done.
    + rewrite (processIssue_thrown _ _ _ _ _ _ E), outcome_bind_thrown.
      apply findIssueLocation_thrown in E as (-> & Hfind & Hmap).
      split; [done|]. intros [Hall _]. apply Forall_cons in Hall as [Hissue _].
      destruct (Hissue Hfind) as [mapping Hm]. congruence.
Qed.

(** *** The fields of the located issues *)

Lemma resolvedTo_sentTo mainUri root mappings u issues :
  omap (resolvedTo mainUri root mappings u) issues
  = map (fun sent => withPointer (fst sent) (snd sent))
        (sentTo mainUri root mappings u issues).
Proof.
  unfold sentTo. induction issues as [|issue issues IH]; [done|].
  cbn [omap list_omap]. unfold resolvedTo at 1. rewrite IH.
  destruct (findIssueLocation mainUri root mappings (pointer issue))
    as [[[u' p]|]|e]; try done.
  by destruct (String.eqb u' u).
Qed.

Lemma located_fields u d r (sent : list (ReportedIssue * string)) :
  Forall2
    (fun resolved sent =>
       documentUri resolved = u
       /\ issue_severity resolved = severity (fst sent)
       /\ issue_message resolved = message (fst sent)
       /\ issue_ruleId resolved = ruleId (fst sent)
       /\ issue_pointer resolved = snd sent
       /\ (lineNo resolved, range resolved) = getLocationByPointer d r (snd sent))
    (map (locateIssue u d r)
         (map (fun sent => withPointer (fst sent) (snd sent)) sent))
    sent.
Proof.
  induction sent as [|[issue p] sent IH]; simpl; constructor; [|done].
  unfold locateIssue. simpl.
  destruct (getLocationByPointer d r p) as [lineNo0 range0]. simpl. by split_and!.
Qed.

End AuditFacts.

(** ** Claims about the issue mapping *)

Section AuditClaims.
Context `{Host}.

(** C1. In every run of [processIssues] that returns, each input issue is
    placed in exactly one output: the bad issues are the input issues for
    which no location is found, in order; the group of a uri holds the input
    issues sent to that uri, in order (with the pointer of their location);
    so the number of issues in the groups plus the number of bad issues is
    the number of input issues. *)
Theorem C1_issues_conserved document cache mappings issues s root uris ipd bad s' :
  processIssues document cache mappings issues s
  = (Returned (root, uris, ipd, bad), s') ->
  countIssues ipd + length bad = length issues
  /\ bad = List.filter (unresolved (uri document) root mappings) issues
  /\ (forall u, groupOf ipd u = omap (resolvedTo (uri document) root mappings u) issues)
  /\ List.NoDup (JsObject.keys ipd).
Proof.
  intros Hrun.
  apply processIssues_returned in Hrun as (_ & _ & du & Hloop & _).
  apply processRun_returned in Hloop as (Hbad & Hgroups & Hcount & _ & _ & Hnd & _).
  by split_and!.
Qed.

(** C2 (amended). [findIssueLocation] first looks the pointer up in the root
    AST; a node found there sends the issue to the root document with the
    same pointer, whatever the Mapping Table holds. Only when that lookup
    fails is the Mapping Table consulted: an entry with a non-empty hash
    gives the entry's uri with that hash, an entry without one gives no
    location. *)
Theorem C2_location_root_first_then_hash mainUri root mappings p :
  (forall node, find root p = Some node ->
     findIssueLocation mainUri root mappings p = Returned (Some (mainUri, p)))
  /\ (find root p = None ->
      forall mapping, findMapping mappings p = Some mapping ->
        (forall hash, mapping_hash mapping = Some hash -> hash <> "" ->
           findIssueLocation mainUri root mappings p
           = Returned (Some (mapping_uri mapping, hash)))
        /\ (truthy (mapping_hash mapping) = false ->
            findIssueLocation mainUri root mappings p = Returned None)).
Proof.
  split.
  - intros node. apply findIssueLocation_found.
  - intros Hfind mapping Hmap. split.
    + intros hash. by apply findIssueLocation_hash.
    + by apply findIssueLocation_no_hash.
Qed.

(** C3 (the code fails the claim). An issue whose pointer is found neither
    in the root AST nor in the Mapping Table, the table answering
    [undefined] for it, does not reach the bad issues: [findIssueLocation]
    reads [mapping.hash] of [undefined], and [processIssues] throws a
    [TypeError] after its one request to the cache, whatever the other issues
    are. *)
Theorem C3_undefined_mapping_throws document cache mappings issues s issue :
  let root := getLastGoodDocumentAst cache document in
  In issue issues ->
  find root (pointer issue) = None ->
  findMapping mappings (pointer issue) = None ->
  findIssueLocation (uri document) root mappings (pointer issue) = Thrown TypeError
  /\ processIssues document cache mappings issues s
     = (Thrown TypeError,
        {| opened := opened s; astRequests := astRequests s ++ [document] |}).
Proof.
  intros root Hin Hfind Hmap. split.
  - unfold findIssueLocation. by rewrite Hfind, Hmap.
  - rewrite processIssues_run. fold root.
    pose proof (processLoop_outcome (uri document) root mappings issues
                  (JsObject.set JsObject.empty (uri document) true, JsObject.empty, []))
      as Hloop.
    destruct (forOfPure _ issues _) as [[[du ipd] bad]|e].
    + exfalso. destruct Hloop as [Hanswer _]; [by intros ? []|].
      unfold mappingsAnswer in Hanswer. rewrite Forall_forall in Hanswer.
      destruct (Hanswer issue) as [mapping Hsome]; [by apply list_elem_of_In|done|].
      congruence.
    + destruct Hloop as [-> _]; [by intros ? []|done].
Qed.


(** C7. In the result of [auditDocument], the group of a uri [u] holds one
    resolved issue for each reported issue that [findIssueLocation] sends to
    [u], in the order of the report: it has [documentUri] equal to [u], the
    severity, message and rule id of that reported issue, the pointer of its
    location, and the [lineNo] and [range] that [getLocationByPointer] gives
    for that pointer in the document returned for [u], with the last good
    AST of that document. *)
Theorem C7_resolved_issue_fields
    mainDocument json cache mappings apiToken progress s grades issues documents bad s' :
  auditDocument mainDocument json cache mappings apiToken progress s
  = (Returned (grades, issues, documents, bad), s') ->
  exists reported,
    audit json (trim apiToken) progress = Some (grades, reported)
    /\ forall u group,
         JsObject.get issues u = Some group ->
         exists document,
           JsObject.get documents u = Some document
           /\ Forall2
                (fun resolved sent =>
                   documentUri resolved = u
                   /\ issue_severity resolved = severity (fst sent)
                   /\ issue_message resolved = message (fst sent)
                   /\ issue_ruleId resolved = ruleId (fst sent)
                   /\ issue_pointer resolved = snd sent
                   /\ (lineNo resolved, range resolved)
                      = getLocationByPointer document
                          (getLastGoodDocumentAst cache document) (snd sent))
                group
                (sentTo (uri mainDocument) (getLastGoodDocumentAst cache mainDocument)
                   mappings u reported).
Proof.
  intros Hrun.
  destruct (auditDocument_parts _ _ _ _ _ _ _ _ _ _ _ _ Hrun)
    as (reported & uris & ipd & files & new & Haudit & _ & _ & -> & _ & _ & _
        & Hfnd & _ & _ & Hlocated & Hnone & Hgroups & _ & Hplain).
  exists reported. split; [done|]. intros u group Hgroup.
  destruct (JsObject.get ipd u) as [rep|] eqn:Hrep;
    [|by rewrite (Hnone u Hrep) in Hgroup].
  destruct (Hlocated u rep Hrep) as (d & r & Hf & -> & _ & Hissues).
  exists d. split.
  - rewrite documentsOf_get_plain, Hf; [done|done|].
    by apply Hplain, (JsObjectFacts.get_Some_keys _ _ rep).
  - assert (group = map (locateIssue u d (getLastGoodDocumentAst cache d)) rep)
      as -> by congruence.
    specialize (Hgroups u). unfold groupOf in Hgroups. rewrite Hrep in Hgroups.
    simpl in Hgroups. rewrite Hgroups, resolvedTo_sentTo. apply located_fields.
Qed.

(** C10. The uris returned by [processIssues] always contain the uri of the
    main document, also for an empty list of issues, and the root it returns
    is the main document's last good AST. So the files table of
    [auditDocument] always holds the main document with that AST: every
    table that [loadFiles] returns does, the main document is never opened to
    build it, and a returning run of [auditDocument] has built such a table
    from the uris of [processIssues] and returns the documents of that
    table. *)
Theorem C10_main_document_always_listed mainDocument cache mappings :
  (forall issues s root uris ipd bad s1,
      processIssues mainDocument cache mappings issues s
      = (Returned (root, uris, ipd, bad), s1) ->
      In (uri mainDocument) uris
      /\ root = getLastGoodDocumentAst cache mainDocument)
  /\ (forall root uris s1 out s2,
        loadFiles mainDocument root cache uris s1 = (out, s2) ->
        exists new,
          opened s2 = opened s1 ++ new
          /\ ~ In (uri mainDocument) new
          /\ forall files, out = Returned files ->
               JsObject.get files (uri mainDocument) = Some (mainDocument, root))
  /\ (forall json apiToken progress s grades issues documents bad s',
        auditDocument mainDocument json cache mappings apiToken progress s
        = (Returned (grades, issues, documents, bad), s') ->
        exists reported uris ipd s1 files,
          audit json (trim apiToken) progress = Some (grades, reported)
          /\ processIssues mainDocument cache mappings reported s
             = (Returned (getLastGoodDocumentAst cache mainDocument, uris, ipd, bad), s1)
          /\ In (uri mainDocument) uris
          /\ loadFiles mainDocument (getLastGoodDocumentAst cache mainDocument)
               cache uris s1
             = (Returned files, s')
          /\ JsObject.get files (uri mainDocument)
             = Some (mainDocument, getLastGoodDocumentAst cache mainDocument)
          /\ documents = documentsOf files).
Proof.
  split_and!.
  - intros issues s root uris ipd bad s1 Hrun.
    destruct (processIssues_groups _ _ _ _ _ _ _ _ _ _ Hrun) as (_ & _ & _ & Hmain & _).
    by apply processIssues_returned in Hrun as (-> & _).
  - intros root uris s1 out s2 Hload. unfold loadFiles in Hload.
    apply loadLoop_spec in Hload as (new & Hopened & _ & Hnew & Hret).
    exists new. split_and!; [done| |].
    + intros Hin. destruct (Hnew _ Hin) as (_ & Hget & _).
      by rewrite JsObjectFacts.get_set_eq in Hget.
    + intros files ->. destruct (Hret files eq_refl) as (_ & _ & Hkeep & _).
      apply Hkeep, JsObjectFacts.get_set_eq.
  - intros json apiToken progress s grades issues documents bad s' Hrun.
    destruct (auditDocument_parts _ _ _ _ _ _ _ _ _ _ _ _ Hrun)
      as (reported & uris & ipd & files & new & Haudit & Hproc & Hload & -> & _ & _ & _
          & _ & Hmain & _).
    eexists reported, uris, ipd, _, files. split_and!; try done.
    by destruct (processIssues_groups _ _ _ _ _ _ _ _ _ _ Hproc) as (_ & _ & _ & ? & _).
Qed.

End AuditClaims.

(** *** The claims on a concrete run *)

Lemma C1_issues_conserved_witness :
  exists root uris ipd bad s',
    @processIssues Demo.auditHost Demo.mainDocument Demo.cache Demo.mappings
      Demo.reported noLoads
    = (Returned (root, uris, ipd, bad), s')
    /\ countIssues ipd + length bad = 4
    /\ bad = [Demo.unknownIssue].
Proof.
  eexists _, _, _, _, _. split; [vm_compute; reflexivity|].
  destruct (C1_issues_conserved (H := Demo.auditHost)
              Demo.mainDocument Demo.cache Demo.mappings Demo.reported noLoads
              _ _ _ _ _ eq_refl) as (Hcount & Hbad & _).
  split; [exact Hcount|exact Hbad].
Defined.

(** C2 as stated fails: the pointer is not in the root AST and its entry in
    the Mapping Table carries a pointer and no hash; the claim expects the
    entry's uri with that pointer, the code finds no location. *)
Lemma C2_counterexample :
  let root := @getLastGoodDocumentAst Demo.auditHost Demo.cache Demo.mainDocument in
  let p := "/components/schemas/Pet" in
  exists mapping,
    @find Demo.auditHost root p = None
    /\ @findMapping Demo.auditHost Demo.pointerMappings p = Some mapping
    /\ entryLocation mapping = Some ("file:///schemas.yaml", "/Pet")
    /\ @findIssueLocation Demo.auditHost "file:///api.yaml" root Demo.pointerMappings p
       = Returned None
    /\ @findIssueLocation Demo.auditHost "file:///api.yaml" root Demo.pointerMappings p
       <> Returned (entryLocation mapping).
Proof.
  eexists. split_and!; [reflexivity|reflexivity|reflexivity|reflexivity|discriminate].
Qed.

Lemma C2_location_root_first_then_hash_witness :
  let root := @getLastGoodDocumentAst Demo.auditHost Demo.cache Demo.mainDocument in
  @findIssueLocation Demo.auditHost "file:///api.yaml" root Demo.mappings
    "/paths/~1pets/get"
  = Returned (Some ("file:///api.yaml", "/paths/~1pets/get"))
  /\ @findIssueLocation Demo.auditHost "file:///api.yaml" root Demo.mappings
       "/components/schemas/Pet"
     = Returned (Some ("file:///schemas.yaml", "/Pet"))
  /\ @findIssueLocation Demo.auditHost "file:///api.yaml" root Demo.mappings
       "/components/schemas/Pet/unknownField"
     = Returned None.
Proof.
  intros root. split_and!.
  - refine (proj1 (C2_location_root_first_then_hash (H := Demo.auditHost)
                     "file:///api.yaml" root Demo.mappings "/paths/~1pets/get")
                  ["/paths/~1pets/get"] _).
    reflexivity.
  - refine (proj1 (proj2 (C2_location_root_first_then_hash (H := Demo.auditHost)
                            "file:///api.yaml" root Demo.mappings
                            "/components/schemas/Pet") _
                         {| mapping_uri := "file:///schemas.yaml";
                            mapping_pointer := None;
                            mapping_hash := Some "/Pet" |} _) "/Pet" _ _);
      [reflexivity|reflexivity|reflexivity|discriminate].
  - refine (proj2 (proj2 (C2_location_root_first_then_hash (H := Demo.auditHost)
                            "file:///api.yaml" root Demo.mappings
                            "/components/schemas/Pet/unknownField") _
                         {| mapping_uri := "file:///schemas.yaml";
                            mapping_pointer := Some "/Pet/unknownField";
                            mapping_hash := None |} _) _);
      reflexivity.
Defined.

Lemma demo_mappingsAnswer :
  @mappingsAnswer Demo.auditHost
    (@getLastGoodDocumentAst Demo.auditHost Demo.cache Demo.mainDocument)
    Demo.mappings Demo.reported.
Proof.
  repeat constructor; vm_compute; intros Hfind;
    first [discriminate Hfind | eexists; reflexivity].
Defined.

Lemma demo_plainLocations :
  @plainLocations Demo.auditHost "file:///api.yaml"
    (@getLastGoodDocumentAst Demo.auditHost Demo.cache Demo.mainDocument)
    Demo.mappings Demo.reported.
Proof.
  repeat constructor; intros u p Hlocation; vm_compute in Hlocation;
    first [discriminate Hlocation | injection Hlocation as <- _; reflexivity].
Defined.

(** The failing input of C3: the document has no external references, so
    its Mapping Table is empty, and the audit reports the unknown field. *)
Lemma C3_undefined_mapping_throws_witness :
  @find Demo.auditHost
    (@getLastGoodDocumentAst Demo.auditHost Demo.cache Demo.mainDocument)
    "/components/schemas/Pet/unknownField" = None
  /\ @findMapping Demo.auditHost Demo.noMappings
       "/components/schemas/Pet/unknownField" = None
  /\ @processIssues Demo.auditHost Demo.mainDocument Demo.cache Demo.noMappings
       [Demo.petIssue; Demo.unknownIssue] noLoads
     = (Thrown TypeError,
        {| opened := []; astRequests := [Demo.mainDocument] |}).
Proof.
  split; [reflexivity|]. split; [reflexivity|].
  refine (proj2 (C3_undefined_mapping_throws (H := Demo.auditHost)
                   Demo.mainDocument Demo.cache Demo.noMappings
                   [Demo.petIssue; Demo.unknownIssue] noLoads Demo.unknownIssue _ _ _)).
  - right. left. reflexivity.
  - reflexivity.
  - reflexivity.
Defined.


Lemma C7_resolved_issue_fields_witness :
  exists grades issues documents bad s' first second,
    @auditDocument Demo.auditHost Demo.mainDocument "{}" Demo.cache Demo.mappings
      "token" tt noLoads = (Returned (grades, issues, documents, bad), s')
    /\ JsObject.get issues "file:///schemas.yaml" = Some [first; second]
    /\ issue_message first = "no type" /\ issue_pointer first = "/Pet"
    /\ issue_message second = "no max length" /\ issue_pointer second = "/Pet/name".
Proof.
  eexists _, _, _, _, _, _, _. split; [vm_compute; reflexivity|].
  split; [reflexivity|].
  destruct (C7_resolved_issue_fields (H := Demo.auditHost)
              Demo.mainDocument "{}" Demo.cache Demo.mappings "token" tt noLoads
              _ _ _ _ _ eq_refl) as (reported & Haudit & Hfields).
  injection Haudit as <-.
  destruct (Hfields "file:///schemas.yaml" _ eq_refl) as (document & _ & Hall).
  vm_compute in Hall.
  inversion Hall as [|? ? ? ? (_ & _ & Hm1 & _ & Hp1 & _) Hrest]; subst.
  inversion Hrest as [|? ? ? ? (_ & _ & Hm2 & _ & Hp2 & _) _]; subst.
  split_and!; [exact Hm1|exact Hp1|exact Hm2|exact Hp2].
Defined.

Lemma C10_main_document_always_listed_witness :
  (exists root uris ipd bad s',
     @processIssues Demo.auditHost Demo.mainDocument Demo.cache Demo.mappings
       [] noLoads
     = (Returned (root, uris, ipd, bad), s')
     /\ In "file:///api.yaml" uris)
  /\ (exists files s',
        @loadFiles Demo.auditHost Demo.mainDocument
          (@getLastGoodDocumentAst Demo.auditHost Demo.cache Demo.mainDocument)
          Demo.cache ["file:///api.yaml"; "file:///schemas.yaml"] noLoads
        = (Returned files, s')
        /\ JsObject.get files "file:///api.yaml"
           = Some (Demo.mainDocument,
                   @getLastGoodDocumentAst Demo.auditHost Demo.cache Demo.mainDocument)).
Proof.
  pose proof (C10_main_document_always_listed (H := Demo.auditHost)
                Demo.mainDocument Demo.cache Demo.mappings) as (Hlisted & Hfiles & _).
  split.
  - eexists _, _, _, _, _. split; [vm_compute; reflexivity|].
    exact (proj1 (Hlisted [] noLoads _ _ _ _ _ eq_refl)).
  - eexists _, _. split; [vm_compute; reflexivity|].
    destruct (Hfiles (@getLastGoodDocumentAst Demo.auditHost Demo.cache Demo.mainDocument)
                ["file:///api.yaml"; "file:///schemas.yaml"] noLoads _ _ eq_refl)
      as (new & _ & _ & Hmain).
    exact (Hmain _ eq_refl).
Defined.

(** ** The editor handlers *)

Import Extension.

Section ExtensionFacts.
Context `{Host}.

(** Runs a handler symbolically: only the sequencing and the record
    projections are reduced, the stores stay as [insert]s and [delete]s. *)
Ltac run_handler :=
  unfold updateDiagnostics, onDidCloseTextDocument, onDocumentChanged,
    onActiveEditorChanged, updateVersionContext, window_activeTextEditor, parse,
    setContext, diagnostics_set, diagnostics_delete, didChangeTree_fire,
    didChangeTreeIncludingErrors_fire, didChangeEditor_fire, eff_modify;
  unfold mbind, eff_mbind, eff_bind, mret, eff_mret, eff_ret;
  cbn [activeTextEditor contextValues diagnostics didChangeTree
       didChangeTreeIncludingErrors didChangeEditor parsed].

Lemma updateVersionContext_run version w :
  exists w',
    updateVersionContext version w = (Returned tt, w')
    /\ contextValues w'
       = <["openapiThreeEnabled" := bool_decide (version = V3)]>
           (<["openapiTwoEnabled" := bool_decide (version = V2)]> (contextValues w))
    /\ activeTextEditor w' = activeTextEditor w
    /\ diagnostics w' = diagnostics w
    /\ didChangeTree w' = didChangeTree w
    /\ didChangeTreeIncludingErrors w' = didChangeTreeIncludingErrors w
    /\ didChangeEditor w' = didChangeEditor w
    /\ parsed w' = parsed w.
Proof.
  destruct version; run_handler; eexists; (split; [reflexivity|]);
    cbn [activeTextEditor contextValues diagnostics didChangeTree
         didChangeTreeIncludingErrors didChangeEditor parsed];
    split_and!; try reflexivity.
  apply insert_insert_ne. done.
Qed.

Lemma onDocumentChanged_inactive event w :
  ~ forActiveDocument w event -> onDocumentChanged event w = (Returned tt, w).
Proof.
  intros Hinactive. run_handler.
  destruct (activeTextEditor w) as [editor|] eqn:Eactive; [|done].
  destruct (String.eqb _ _) eqn:Euri; [|done].
  apply String.eqb_eq in Euri. exfalso. apply Hinactive. by exists editor.
Qed.

Lemma onDocumentChanged_errors event w version node errors :
  forActiveDocument w event ->
  parseDocument (event_document event) = (version, node, Some errors) ->
  onDocumentChanged event w
  = (Returned tt,
     {| activeTextEditor := activeTextEditor w;
        contextValues := <["openapiErrors" := true]> (contextValues w);
        diagnostics := <[uri (event_document event) := errors]> (diagnostics w);
        didChangeTree := didChangeTree w;
        didChangeTreeIncludingErrors :=
          didChangeTreeIncludingErrors w ++ [(Some node, Some event)];
        didChangeEditor := didChangeEditor w;
        parsed := parsed w ++ [event_document event] |}).
Proof.
  intros (editor & Hactive & Huri) Hparse. apply String.eqb_eq in Huri.
  destruct w. cbn [activeTextEditor] in Hactive. subst.
  run_handler. rewrite Huri, Hparse. reflexivity.
Qed.

Lemma onDocumentChanged_valid event w version node :
  forActiveDocument w event ->
  parseDocument (event_document event) = (version, node, None) ->
  onDocumentChanged event w
  = (Returned tt,
     {| activeTextEditor := activeTextEditor w;
        contextValues :=
          <["openapiThreeEnabled" := bool_decide (version = V3)]>
            (<["openapiTwoEnabled" := bool_decide (version = V2)]>
               (<["openapiErrors" := false]> (contextValues w)));
        diagnostics := delete (uri (event_document event)) (diagnostics w);
        didChangeTree := didChangeTree w ++ [(Some node, Some event)];
        didChangeTreeIncludingErrors :=
          didChangeTreeIncludingErrors w ++ [(Some node, Some event)];
        didChangeEditor := didChangeEditor w;
        parsed := parsed w ++ [event_document event] |}).
Proof.
  intros (editor & Hactive & Huri) Hparse. apply String.eqb_eq in Huri.
  destruct w. cbn [activeTextEditor] in Hactive. subst.
  run_handler. rewrite Huri, Hparse.
  destruct version; cbn [activeTextEditor contextValues diagnostics didChangeTree
       didChangeTreeIncludingErrors didChangeEditor parsed]; try reflexivity.
  do 2 f_equal. apply insert_insert_ne. done.
Qed.

Lemma onActiveEditorChanged_diagnostics editor w :
  exists w',
    onActiveEditorChanged (Some editor) w = (Returned tt, w')
    /\ diagnostics w'
       = match (parseDocument (document editor)).2 with
         | Some errors => <[uri (document editor) := errors]> (diagnostics w)
         | None => delete (uri (document editor)) (diagnostics w)
         end.
Proof.
  run_handler.
  destruct (parseDocument (document editor)) as [[version node] [errors|]];
    destruct version; eexists; split; reflexivity.
Qed.

End ExtensionFacts.

(** ** Claims about the editor handlers *)

Section ExtensionClaims.
Context `{Host}.

(** C4. A change of the active document whose parse yields errors leaves the
    structural state as it was: the valid-tree event is not fired and the
    version context values keep their values (only [openapiErrors] is set),
    while the errors are given to the diagnostics and the
    tree-including-errors event is fired. A parse without errors fires the
    valid-tree event and sets the version context values from the parsed
    version. *)
Theorem C4_errors_freeze_valid_tree event w version node errors :
  forActiveDocument w event ->
  parseDocument (event_document event) = (version, node, errors) ->
  exists w',
    onDocumentChanged event w = (Returned tt, w')
    /\ (forall errs, errors = Some errs ->
          didChangeTree w' = didChangeTree w
          /\ contextValues w' = <["openapiErrors" := true]> (contextValues w)
          /\ contextValues w' !! "openapiTwoEnabled"
             = contextValues w !! "openapiTwoEnabled"
          /\ contextValues w' !! "openapiThreeEnabled"
             = contextValues w !! "openapiThreeEnabled"
          /\ diagnostics w' !! uri (event_document event) = Some errs
          /\ didChangeTreeIncludingErrors w'
             = didChangeTreeIncludingErrors w ++ [(Some node, Some event)])
    /\ (errors = None ->
          didChangeTree w' = didChangeTree w ++ [(Some node, Some event)]
          /\ contextValues w' !! "openapiTwoEnabled"
             = Some (bool_decide (version = V2))
          /\ contextValues w' !! "openapiThreeEnabled"
             = Some (bool_decide (version = V3)))
    /\ (didChangeTree w' <> didChangeTree w -> errors = None).
Proof.
  intros Hactive Hparse. destruct errors as [errs|].
  - rewrite (onDocumentChanged_errors _ _ _ _ _ Hactive Hparse).
    eexists. split; [reflexivity|].
    cbn [contextValues diagnostics didChangeTree didChangeTreeIncludingErrors].
    split_and!; [|done|done].
    intros ? [= <-]. split_and!; try done.
    + by rewrite lookup_insert_ne.
    + by rewrite lookup_insert_ne.
    + by rewrite lookup_insert_eq.
  - rewrite (onDocumentChanged_valid _ _ _ _ Hactive Hparse).
    eexists. split; [reflexivity|].
    cbn [contextValues diagnostics didChangeTree didChangeTreeIncludingErrors].
    split_and!; [done| |done].
    intros _. split_and!; [done| |].
    + rewrite lookup_insert_ne by done. by rewrite lookup_insert_eq.
    + by rewrite lookup_insert_eq.
Qed.

(** C5. [onDocumentChanged] parses the document if and only if the event is
    for the document of the active editor: then the document is parsed once,
    the tree-including-errors event is fired and the diagnostics of the
    document become the errors of the parse; otherwise nothing is parsed,
    fired or changed. *)
Theorem C5_only_active_document_reparsed event w :
  exists w',
    onDocumentChanged event w = (Returned tt, w')
    /\ (forActiveDocument w event ->
          parsed w' = parsed w ++ [event_document event]
          /\ didChangeTreeIncludingErrors w'
             = didChangeTreeIncludingErrors w
               ++ [(Some (parseDocument (event_document event)).1.2, Some event)]
          /\ diagnostics w' !! uri (event_document event)
             = (parseDocument (event_document event)).2)
    /\ (~ forActiveDocument w event -> w' = w)
    /\ (parsed w' <> parsed w <-> forActiveDocument w event).
Proof.
  assert (Hgrows : forall (l : list TextDocument) d, l ++ [d] <> l).
  { intros l d Heq. apply (f_equal length) in Heq.
    rewrite length_app in Heq. simpl in Heq. lia. }
  assert (Hdec : forActiveDocument w event \/ ~ forActiveDocument w event).
  { unfold forActiveDocument. destruct (activeTextEditor w) as [editor|].
    - destruct (decide (uri (document editor) = uri (event_document event))).
      + left. eauto.
      + right. intros (editor' & [= <-] & Huri). done.
    - right. by intros (editor' & [=] & _). }
  destruct Hdec as [Hactive|Hinactive].
  - destruct (parseDocument (event_document event)) as [[version node] errors] eqn:Hparse.
    destruct errors as [errs|].
    + rewrite (onDocumentChanged_errors _ _ _ _ _ Hactive Hparse).
      eexists. split; [reflexivity|].
      cbn [diagnostics didChangeTreeIncludingErrors parsed].
      split_and!; [|done|split; [done|intros _; apply Hgrows]].
      intros _. split_and!; [done|done|]. by rewrite lookup_insert_eq.
    + rewrite (onDocumentChanged_valid _ _ _ _ Hactive Hparse).
      eexists. split; [reflexivity|].
      cbn [diagnostics didChangeTreeIncludingErrors parsed].
      split_and!; [|done|split; [done|intros _; apply Hgrows]].
      intros _. split_and!; [done|done|]. by rewrite lookup_delete_eq.
  - rewrite (onDocumentChanged_inactive _ _ Hinactive).
    eexists. split; [reflexivity|]. split_and!; [done|done|]. split; done.
Qed.

(** C8. The diagnostics of a document are deleted when the document is
    closed. After a reparse (by [onActiveEditorChanged], by
    [onDocumentChanged] for the active document, or reported to
    [updateDiagnostics]) the diagnostics of the document are exactly the
    errors of the parse: deleted when there are none, set to the errors
    otherwise. *)
Theorem C8_diagnostics_cleared_or_set :
  (forall closed w, exists w',
      onDidCloseTextDocument closed w = (Returned tt, w')
      /\ diagnostics w' = delete (uri closed) (diagnostics w)
      /\ diagnostics w' !! uri closed = None)
  /\ (forall editor w, exists w',
        onActiveEditorChanged (Some editor) w = (Returned tt, w')
        /\ diagnostics w' !! uri (document editor)
           = (parseDocument (document editor)).2)
  /\ (forall event w, forActiveDocument w event -> exists w',
        onDocumentChanged event w = (Returned tt, w')
        /\ diagnostics w' !! uri (event_document event)
           = (parseDocument (event_document event)).2)
  /\ (forall current w, exists w',
        updateDiagnostics current w = (Returned tt, w')
        /\ diagnostics w'
           = match entry_errors current with
             | Some errors => <[entry_uri current := errors]> (diagnostics w)
             | None => delete (entry_uri current) (diagnostics w)
             end
        /\ diagnostics w' !! entry_uri current = entry_errors current).
Proof.
  split_and!.
  - intros closed w. eexists. split; [reflexivity|].
    cbn [diagnostics]. split; [done|apply lookup_delete_eq].
  - intros editor w.
    destruct (onActiveEditorChanged_diagnostics editor w) as (w' & Hrun & Hdiag).
    exists w'. split; [done|]. rewrite Hdiag.
    destruct (parseDocument (document editor)).2.
    + by rewrite lookup_insert_eq.
    + by rewrite lookup_delete_eq.
  - intros event w Hactive.
    destruct (parseDocument (event_document event)) as [[version node] errors] eqn:Hparse.
    destruct errors as [errs|].
    + rewrite (onDocumentChanged_errors _ _ _ _ _ Hactive Hparse).
      eexists. split; [reflexivity|]. cbn [diagnostics]. by rewrite lookup_insert_eq.
    + rewrite (onDocumentChanged_valid _ _ _ _ Hactive Hparse).
      eexists. split; [reflexivity|]. cbn [diagnostics]. by rewrite lookup_delete_eq.
  - intros current w. unfold updateDiagnostics.
    destruct (entry_errors current) as [errs|]; eexists;
      (split; [reflexivity|]); cbn [diagnostics]; (split; [done|]).
    + by rewrite lookup_insert_eq.
    + by rewrite lookup_delete_eq.
Qed.

(** C9. After [updateVersionContext], [openapiTwoEnabled] is true exactly
    for version 2 and [openapiThreeEnabled] is true exactly for version 3; for
    any other version both are false; the two are never both true. *)
Theorem C9_version_flags_exclusive version w :
  exists w',
    updateVersionContext version w = (Returned tt, w')
    /\ contextValues w' !! "openapiTwoEnabled" = Some (bool_decide (version = V2))
    /\ contextValues w' !! "openapiThreeEnabled" = Some (bool_decide (version = V3))
    /\ ~ (contextValues w' !! "openapiTwoEnabled" = Some true
          /\ contextValues w' !! "openapiThreeEnabled" = Some true).
Proof.
  destruct (updateVersionContext_run version w) as (w' & Hrun & Hctx & _).
  exists w'. split; [done|].
  assert (Htwo : contextValues w' !! "openapiTwoEnabled"
                 = Some (bool_decide (version = V2))).
  { rewrite Hctx. rewrite lookup_insert_ne by done. by rewrite lookup_insert_eq. }
  assert (Hthree : contextValues w' !! "openapiThreeEnabled"
                   = Some (bool_decide (version = V3))).
  { rewrite Hctx. by rewrite lookup_insert_eq. }
  split_and!; [done|done|].
  rewrite Htwo, Hthree. intros [[= H2] [= H3]].
  apply bool_decide_eq_true in H2, H3. congruence.
Qed.

End ExtensionClaims.

(** *** The claims on a concrete editor *)

Lemma demo_broken_edit_active :
  @forActiveDocument Demo.editorHost Demo.world
    {| event_document := Demo.brokenDocument |}.
Proof. eexists. split; reflexivity. Defined.

Lemma C4_errors_freeze_valid_tree_witness :
  exists w',
    @onDocumentChanged Demo.editorHost {| event_document := Demo.brokenDocument |}
      Demo.world = (Returned tt, w')
    /\ didChangeTree w' = []
    /\ contextValues w' !! "openapiThreeEnabled" = Some true
    /\ contextValues w' !! "openapiTwoEnabled" = Some false
    /\ diagnostics w' !! "file:///api.yaml" = Some ["syntax error"].
Proof.
  destruct (C4_errors_freeze_valid_tree (H := Demo.editorHost)
              {| event_document := Demo.brokenDocument |} Demo.world
              Unknown [] (Some ["syntax error"])
              demo_broken_edit_active eq_refl)
    as (w' & Hrun & Herrors & _).
  destruct (Herrors _ eq_refl) as (Htree & _ & Htwo & Hthree & Hdiag & _).
  exists w'. split_and!.
  - exact Hrun.
  - exact Htree.
  - rewrite Hthree. reflexivity.
  - rewrite Htwo. reflexivity.
  - exact Hdiag.
Defined.

Lemma C5_only_active_document_reparsed_witness :
  exists w',
    @onDocumentChanged Demo.editorHost {| event_document := Demo.otherDocument |}
      Demo.world = (Returned tt, w')
    /\ w' = Demo.world.
Proof.
  destruct (C5_only_active_document_reparsed (H := Demo.editorHost)
              {| event_document := Demo.otherDocument |} Demo.world)
    as (w' & Hrun & _ & Hinactive & _).
  exists w'. split; [exact Hrun|]. apply Hinactive.
  intros (editor & Heditor & Huri). vm_compute in Heditor.
  injection Heditor as <-. discriminate Huri.
Defined.

Lemma C8_diagnostics_cleared_or_set_witness :
  (exists w',
     @onDocumentChanged Demo.editorHost {| event_document := Demo.brokenDocument |}
       Demo.world = (Returned tt, w')
     /\ diagnostics w' !! "file:///api.yaml" = Some ["syntax error"])
  /\ (exists w',
        @onDidCloseTextDocument Demo.editorHost Demo.mainDocument Demo.world
        = (Returned tt, w')
        /\ diagnostics w' !! "file:///api.yaml" = None).
Proof.
  destruct (C8_diagnostics_cleared_or_set (H := Demo.editorHost))
    as (Hclose & _ & Hchange & _).
  split.
  - destruct (Hchange {| event_document := Demo.brokenDocument |} Demo.world
                demo_broken_edit_active) as (w' & Hrun & Hdiag).
    exists w'. split; [exact Hrun|exact Hdiag].
  - destruct (Hclose Demo.mainDocument Demo.world) as (w' & Hrun & _ & Hdiag).
    exists w'. split; [exact Hrun|exact Hdiag].
Defined.

(** * Further properties of the issue mapping *)

Import Audit.

Section AuditMoreFacts.
Context `{Host}.

Lemma JsObject_set_absent {V} (o : JsObject.t V) k v :
  JsObject.get o k = None -> JsObject.set o k v = o ++ [(k, v)].
Proof.
  induction o as [|[k' v'] o IH]; simpl; [done|].
  destruct (String.eqb k' k); [done|]. intros Hnone. by rewrite IH.
Qed.

(** Which uris and which groups exist when the loop leaves normally. *)
Lemma processLoop_keys mainUri root mappings issues :
  forall du ipd bad du' ipd' bad',
  JsObject.plainNames ipd ->
  forOfPure (processIssue mainUri root mappings) issues (du, ipd, bad)
  = Returned (du', ipd', bad') ->
  (exists rest, JsObject.keys du' = JsObject.keys du ++ rest)
  /\ (List.NoDup (JsObject.keys du) -> List.NoDup (JsObject.keys du'))
  /\ (forall u, In u (JsObject.keys du')
                <-> In u (JsObject.keys du)
                    \/ omap (resolvedTo mainUri root mappings u) issues <> [])
  /\ (forall u, In u (JsObject.keys ipd')
                <-> In u (JsObject.keys ipd)
                    \/ omap (resolvedTo mainUri root mappings u) issues <> []).
Proof.
  induction issues as [|issue issues IH]; intros du ipd bad du' ipd' bad' Hplain.
  - simpl. intros [= <- <- <-]. split_and!.
    + exists []. by rewrite app_nil_r.
    + done.
    + intros u. split; [auto|]. by intros [?|?].
    + intros u. split; [auto|]. by intros [?|?].
  - rewrite forOfPure_cons.
    assert (Homap : forall u,
      omap (resolvedTo mainUri root mappings u) (issue :: issues) <> []
      <-> is_Some (resolvedTo mainUri root mappings u issue)
          \/ omap (resolvedTo mainUri root mappings u) issues <> []).
    { intros u. cbn [omap list_omap].
      destruct (resolvedTo mainUri root mappings u issue) as [x|].
      - split; [intros _; left; eauto|done].
      - split; [by right|]. intros [[? [=]]|?]. done. }
    destruct (findIssueLocation mainUri root mappings (pointer issue))
      as [[[u0 p]|]|e] eqn:E.
    + destruct (JsObject.inherited u0) eqn:Hu.
      { rewrite (processIssue_inherited _ _ _ _ _ _ _ _ _ E Hu
                   (JsObjectFacts.plainNames_get_None _ _ Hplain Hu)).
        by rewrite outcome_bind_thrown. }
      destruct (processIssue_resolved mainUri root mappings du ipd bad issue u0 p E Hu)
        as (du1 & ipd1 & -> & _ & _ & _ & Hk & _ & Hd & [rest1 Hrest1] & Hnd1).
      rewrite outcome_bind_returned. intros Hloop.
      apply IH in Hloop as ([rest Hrest] & Hnd & Hdu & Hipd);
        [|intros k Hin; apply Hk in Hin as [->|Hin]; [done|by apply Hplain]].
      assert (Hsent : forall u, is_Some (resolvedTo mainUri root mappings u issue)
                                <-> u = u0).
      { intros u. unfold resolvedTo. rewrite E.
        destruct (String.eqb u0 u) eqn:Eu.
        - apply String.eqb_eq in Eu. split; eauto.
        - apply String.eqb_neq in Eu. split; [by intros [? [=]]|congruence]. }
      split_and!.
      * exists (rest1 ++ rest). by rewrite Hrest, Hrest1, <- app_assoc.
      * auto.
      * intros u. rewrite Hdu, Homap, Hd, Hsent. tauto.
      * intros u. rewrite Hipd, Homap, Hk, Hsent. tauto.
    + rewrite (processIssue_unresolved _ _ _ _ _ _ _ E), outcome_bind_returned.
      intros Hloop. apply IH in Hloop as (Hrest & Hnd & Hdu & Hipd); [|done].
      assert (Hsent : forall u, ~ is_Some (resolvedTo mainUri root mappings u issue)).
      { intros u. unfold resolvedTo. rewrite E. by intros [? [=]]. }
      split_and!; [done|done| |].
      * intros u. rewrite Hdu, Homap. specialize (Hsent u). tauto.
      * intros u. rewrite Hipd, Homap. specialize (Hsent u). tauto.
    + by rewrite (processIssue_thrown _ _ _ _ _ _ E).
Qed.

(** The groups of the result, entry by entry: the uri and the number of
    issues of each group of [processIssues], in the order of the loop. *)
Lemma locateLoop_shape files entries :
  List.NoDup (map fst entries) ->
  (forall k, In k (map fst entries) -> JsObject.inherited k = false) ->
  forall (acc issues' : JsObject.t (list Issue)),
  (forall k, In k (map fst entries) -> JsObject.get acc k = None) ->
  forOfPure (locateGroup files) entries acc = Returned issues' ->
  map (fun e => (fst e, length (snd e))) issues'
  = map (fun e => (fst e, length (snd e))) acc
    ++ map (fun e => (fst e, length (snd e))) entries.
Proof.
  induction entries as [|[k rep] entries IH]; intros Hnd Hplain acc issues' Hfresh.
  - simpl. intros [= <-]. by rewrite app_nil_r.
  - rewrite forOfPure_cons.
    destruct (JsObject.get files k) as [[d r]|] eqn:Efiles;
      [|by rewrite (locateGroup_missing _ _ _ _ Efiles), outcome_bind_thrown].
    rewrite (locateGroup_found _ _ _ _ _ _ Efiles (Hplain k (or_introl eq_refl))).
    rewrite outcome_bind_returned.
    inversion Hnd as [|? ? Hk Hnd']; subst. intros Hloop.
    apply IH in Hloop; [|done| |].
    + rewrite Hloop, JsObject_set_absent by (apply Hfresh; by left).
      rewrite map_app. simpl. by rewrite length_map, <- app_assoc.
    + intros k' Hin. apply Hplain. by right.
    + intros k' Hin. rewrite JsObjectFacts.get_set_ne.
      * apply Hfresh. by right.
      * intros ->. done.
Qed.

(** The names of the documents assigned from a list of entries of the files
    table: every name but [__proto__], in the order of the list. *)
Lemma documents_fold_keys (entries : Files) :
  forall (acc : JsObject.t TextDocument),
  List.NoDup (map fst entries) ->
  (forall k, In k (map fst entries) -> JsObject.get acc k = None) ->
  JsObject.get acc "__proto__" = None ->
  JsObject.keys
    (fold_left (fun documents '(uri, (document, _)) =>
                  JsObject.assign documents uri document) entries acc)
  = JsObject.keys acc
    ++ List.filter (fun k => negb (String.eqb k "__proto__")) (map fst entries).
Proof.
  induction entries as [|[k [d r]] entries IH]; intros acc Hnd Hfresh Hacc.
  - simpl. by rewrite app_nil_r.
  - inversion Hnd as [|? ? Hk Hnd']; subst. simpl.
    destruct (String.eqb k "__proto__") eqn:Ek; simpl.
    + apply String.eqb_eq in Ek. subst k.
      rewrite (JsObjectFacts.assign_proto _ _ Hacc). apply IH; [done| |done].
      intros k' Hin. apply Hfresh. by right.
    + apply String.eqb_neq in Ek.
      rewrite (JsObjectFacts.assign_not_proto _ _ _ Ek).
      rewrite IH; [|done| |by rewrite JsObjectFacts.get_set_ne].
      * rewrite JsObjectFacts.keys_set_absent, <- app_assoc; [done|].
        apply JsObjectFacts.get_None_keys, Hfresh. by left.
      * intros k' Hin. rewrite JsObjectFacts.get_set_ne.
        -- apply Hfresh. by right.
        -- intros ->. done.
Qed.

Lemma documentsOf_keys (files : Files) :
  List.NoDup (JsObject.keys files) ->
  JsObject.keys (documentsOf files)
  = List.filter (fun k => negb (String.eqb k "__proto__")) (JsObject.Object_keys files).
Proof.
  intros Hnd. unfold documentsOf.
  rewrite documents_fold_keys; [done| |done|done].
  by apply JsObjectFacts.NoDup_Object_keys.
Qed.

(** The loading loop throws only because a document cannot be opened: the
    last uri it has given to [openTextDocument]. *)
Lemma loadLoop_thrown cache uris :
  forall files s e s',
  forOf (loadDocument cache) uris files s = (Thrown e, s') ->
  e = Rejected
  /\ exists before u, opened s' = opened s ++ before ++ [u]
                      /\ openTextDocument u = None.
Proof.
  induction uris as [|u uris IH]; intros files s e s'; [done|].
  cbn [forOf]. intros Hrun.
  destruct (JsObject.get files u) as [x|] eqn:Eget;
    [|destruct (JsObject.inherited u) eqn:Hu;
      [|destruct (openTextDocument u) as [d|] eqn:Eopen]].
  - rewrite (eff_bind_run _ _ _ _ _ (loadDocument_present _ _ _ _ _ Eget)) in Hrun.
    by apply IH in Hrun.
  - rewrite (eff_bind_run _ _ _ _ _ (loadDocument_inherited _ _ _ _ Eget Hu)) in Hrun.
    by apply IH in Hrun.
  - rewrite (eff_bind_run _ _ _ _ _ (loadDocument_absent _ _ _ _ _ Eget Hu Eopen)) in Hrun.
    apply IH in Hrun as (-> & before & u' & Hopened & Hnone). simpl in Hopened.
    split; [done|]. exists (u :: before), u'.
    split; [|done]. by rewrite Hopened, <- app_assoc.
  - rewrite (eff_bind_thrown _ _ _ _ _ (loadDocument_rejected _ _ _ _ Eget Hu Eopen))
      in Hrun.
    injection Hrun as <- <-. split; [done|]. by exists [], u.
Qed.

(** The uris and the groups of a returning run of [processIssues]: the uris
    are the names of an object created with the main uri, in the order of
    [Object.keys]. *)
Lemma processIssues_uris document cache mappings issues s root uris ipd bad s' :
  processIssues document cache mappings issues s
  = (Returned (root, uris, ipd, bad), s') ->
  (exists (du : JsObject.t bool) rest,
      uris = JsObject.Object_keys du /\ JsObject.keys du = uri document :: rest)
  /\ List.NoDup uris
  /\ (forall u, In u uris <-> u = uri document \/ In u (JsObject.keys ipd))
  /\ (forall u, In u (JsObject.keys ipd)
                <-> omap (resolvedTo (uri document) root mappings u) issues <> []).
Proof.
  intros Hrun.
  apply processIssues_returned in Hrun as (_ & _ & du & Hloop & ->).
  apply processLoop_keys in Hloop as ([rest Hrest] & Hnd & Hdu & Hipd);
    [|by intros ? []].
  simpl in Hrest. split_and!.
  - by exists du, rest.
  - apply JsObjectFacts.NoDup_Object_keys, Hnd. simpl.
    constructor; [by intros []|constructor].
  - intros u. rewrite JsObjectFacts.In_Object_keys, Hdu, Hipd. simpl. split.
    + intros [[->|[]]|?]; auto.
    + intros [->|[[]|?]]; auto.
  - intros u. rewrite Hipd. simpl. tauto.
Qed.

(** The three ways a run of [auditDocument] ends once the remote audit has
    answered. *)
Lemma auditDocument_cases mainDocument json cache mappings apiToken progress
    s grades reported :
  audit json (trim apiToken) progress = Some (grades, reported) ->
  let root := getLastGoodDocumentAst cache mainDocument in
  let run := auditDocument mainDocument json cache mappings apiToken progress s in
  let answered := mappingsAnswer root mappings reported
                  /\ plainLocations (uri mainDocument) root mappings reported in
  (~ answered
   /\ run = (Thrown TypeError,
             {| opened := opened s; astRequests := astRequests s ++ [mainDocument] |}))
  \/ (answered
      /\ exists s' before u,
           run = (Thrown Rejected, s')
           /\ opened s' = opened s ++ before ++ [u]
           /\ openTextDocument u = None)
  \/ (answered
      /\ exists issues documents bad s',
           run = (Returned (grades, issues, documents, bad), s')).
Proof.
  intros Haudit root run answered. subst run answered. unfold auditDocument.
  erewrite eff_bind_run; [|unfold remote_audit; by rewrite Haudit].
  cbv beta iota.
  pose proof (processLoop_outcome (uri mainDocument) root mappings reported
                (JsObject.set JsObject.empty (uri mainDocument) true,
                 JsObject.empty, [])) as Hloop.
  set (s1 := {| opened := opened s; astRequests := astRequests s ++ [mainDocument] |}).
  destruct (forOfPure _ reported _) as [[[du ipd] bad]|e] eqn:Eloop.
  - right. specialize (Hloop ltac:(by intros ? [])).
    erewrite eff_bind_run;
      [|rewrite processIssues_run; fold root; by rewrite Eloop].
    cbv beta iota. unfold loadFiles.
    destruct (forOf (loadDocument cache) (JsObject.Object_keys du)
                (JsObject.set JsObject.empty (uri mainDocument) (mainDocument, root)) s1)
      as [[files|e] s2] eqn:Eload.
    + right. split; [done|].
      erewrite eff_bind_run by exact Eload.
      pose proof Eload as Hspec.
      apply loadLoop_spec in Hspec as (new & _ & _ & _ & Hret).
      destruct (Hret files eq_refl) as (_ & Hall & _).
      pose proof Eloop as Hinv.
      apply processRun_returned in Hinv as (_ & _ & _ & _ & Hsub & _ & Hplain).
      destruct (locateLoop_returns files (JsObject.Object_entries ipd))
        with (issues := @JsObject.empty (list Issue)) as [issues Hissues].
      { intros u Hin. apply (proj1 (JsObjectFacts.In_Object_keys _ _)) in Hin.
        apply Hall; [|by apply Hplain]. by apply JsObjectFacts.In_Object_keys, Hsub. }
      { intros u Hin. by apply Hplain, JsObjectFacts.In_Object_keys. }
      erewrite eff_bind_run; [|unfold eff_lift; by rewrite Hissues].
      by eexists _, _, _, _.
    + left. split; [done|].
      pose proof Eload as Hthrown.
      apply loadLoop_thrown in Hthrown as (-> & before & u & Hopened & Hnone).
      exists s2, before, u. split; [|done].
      by apply eff_bind_thrown.
  - left. destruct Hloop as [-> Hno]; [by intros ? []|]. split; [done|].
    apply eff_bind_thrown. rewrite processIssues_run. fold root. by rewrite Eloop.
Qed.

End AuditMoreFacts.

(** ** Properties of [processIssues] and [auditDocument] *)

Section AuditProperties.
Context `{Host}.

(** X1. The uris returned by [processIssues] hold no uri twice and hold the
    main uri and exactly the uris that have a group of issues. They come in
    the order of [Object.keys]: when the main uri is no array index, it is
    preceded by the uris that are array indices, and by them alone. *)
Theorem X1_uris_array_indices_then_main
    document cache mappings issues s root uris ipd bad s' :
  processIssues document cache mappings issues s
  = (Returned (root, uris, ipd, bad), s') ->
  List.NoDup uris
  /\ (forall u, In u uris <-> u = uri document \/ is_Some (JsObject.get ipd u))
  /\ (JsObject.arrayIndex (uri document) = None ->
      exists indices rest,
        uris = indices ++ uri document :: rest
        /\ Forall (fun u => is_Some (JsObject.arrayIndex u)) indices
        /\ Forall (fun u => JsObject.arrayIndex u = None) rest).
Proof.
  intros Hrun.
  destruct (processIssues_uris _ _ _ _ _ _ _ _ _ _ Hrun)
    as ((du & rest & -> & Hkeys) & Hnd & Hin & _).
  split_and!; [done| |].
  - intros u. rewrite Hin. split; (intros [->|Hu]; [by left|right]).
    + by apply JsObjectFacts.keys_get_Some.
    + destruct Hu as [g Hg]. by apply JsObjectFacts.get_Some_keys in Hg.
  - intros Hmain. by apply (JsObjectFacts.Object_keys_first du _ rest).
Qed.

(** X2. [processIssues] never returns an empty group: a uri has a group
    exactly when some input issue is sent to it, and the group then holds at
    least one issue. *)
Theorem X2_groups_never_empty
    document cache mappings issues s root uris ipd bad s' :
  processIssues document cache mappings issues s
  = (Returned (root, uris, ipd, bad), s') ->
  forall u,
    (is_Some (JsObject.get ipd u)
     <-> exists issue, In issue issues
                       /\ is_Some (resolvedTo (uri document) root mappings u issue))
    /\ (forall group, JsObject.get ipd u = Some group -> group <> []).
Proof.
  intros Hrun u.
  destruct (processIssues_uris _ _ _ _ _ _ _ _ _ _ Hrun) as (_ & _ & _ & Hkeys).
  destruct (processIssues_groups _ _ _ _ _ _ _ _ _ _ Hrun) as [Hgroups _].
  assert (Hsent : omap (resolvedTo (uri document) root mappings u) issues <> []
                  <-> exists issue, In issue issues
                        /\ is_Some (resolvedTo (uri document) root mappings u issue)).
  { split.
    - destruct (omap _ issues) as [|x xs] eqn:E; [done|]. intros _.
      assert (Hx : x ∈ omap (resolvedTo (uri document) root mappings u) issues)
        by (rewrite E; left).
      apply list_elem_of_omap in Hx as (issue & Hin & Hres).
      exists issue. split; [by apply list_elem_of_In|eauto].
    - intros (issue & Hin & [x Hx]) Hnil.
      assert (Hin' : x ∈ omap (resolvedTo (uri document) root mappings u) issues).
      { apply list_elem_of_omap. exists issue. split; [by apply list_elem_of_In|done]. }
      rewrite Hnil in Hin'. by apply not_elem_of_nil in Hin'. }
  split.
  - rewrite <- Hsent, <- Hkeys. split.
    + intros [g Hg]. by apply JsObjectFacts.get_Some_keys in Hg.
    + apply JsObjectFacts.keys_get_Some.
  - intros group Hget Hnil. subst group.
    specialize (Hgroups u). unfold groupOf in Hgroups. rewrite Hget in Hgroups.
    simpl in Hgroups. apply JsObjectFacts.get_Some_keys, Hkeys in Hget.
    by rewrite <- Hgroups in Hget.
Qed.

(** X3. No resolvable issue is lost: an input issue whose pointer is in the
    root AST is in the group of the main document, unchanged; an input issue
    whose pointer is not, and whose entry in the Mapping Table has a
    non-empty hash, is in the group of the entry's uri with the hash as its
    pointer. *)
Theorem X3_resolvable_issues_reach_their_group
    document cache mappings issues s root uris ipd bad s' issue :
  processIssues document cache mappings issues s
  = (Returned (root, uris, ipd, bad), s') ->
  In issue issues ->
  (forall node, find root (pointer issue) = Some node ->
     In issue (groupOf ipd (uri document)))
  /\ (forall mapping hash,
        find root (pointer issue) = None ->
        findMapping mappings (pointer issue) = Some mapping ->
        mapping_hash mapping = Some hash -> hash <> "" ->
        In (withPointer issue hash) (groupOf ipd (mapping_uri mapping))).
Proof.
  intros Hrun Hin.
  destruct (processIssues_groups _ _ _ _ _ _ _ _ _ _ Hrun) as [Hgroups _].
  apply list_elem_of_In in Hin. split.
  - intros node Hfind. rewrite Hgroups.
    apply list_elem_of_In, list_elem_of_omap. exists issue. split; [done|].
    unfold resolvedTo.
    rewrite (findIssueLocation_found _ _ _ _ _ Hfind), String.eqb_refl.
    by destruct issue.
  - intros mapping hash Hfind Hmap Hhash Hne. rewrite Hgroups.
    apply list_elem_of_In, list_elem_of_omap. exists issue. split; [done|].
    unfold resolvedTo.
    by rewrite (findIssueLocation_hash _ _ _ _ _ _ Hfind Hmap Hhash Hne),
      String.eqb_refl.
Qed.

(** X4. The groups [auditDocument] returns, end to end: the group of a uri
    holds, in the order of the reported issues, the issues that
    [findIssueLocation] sends to that uri, each located in the document
    returned for the uri with that document's last good AST. *)
Theorem X4_audit_groups_end_to_end
    mainDocument json cache mappings apiToken progress s grades issues documents bad s' :
  auditDocument mainDocument json cache mappings apiToken progress s
  = (Returned (grades, issues, documents, bad), s') ->
  exists reported,
    audit json (trim apiToken) progress = Some (grades, reported)
    /\ forall u,
         groupOf issues u
         = match JsObject.get documents u with
           | Some document =>
               map (locateIssue u document (getLastGoodDocumentAst cache document))
                   (omap (resolvedTo (uri mainDocument)
                            (getLastGoodDocumentAst cache mainDocument) mappings u)
                         reported)
           | None => []
           end.
Proof.
  intros Hrun.
  destruct (auditDocument_parts _ _ _ _ _ _ _ _ _ _ _ _ Hrun)
    as (reported & uris & ipd & files & new & Haudit & _ & _ & -> & _ & _ & _
        & Hfnd & _ & _ & Hlocated & Hnone & Hgroups & _ & Hplain).
  exists reported. split; [done|]. intros u.
  specialize (Hgroups u). unfold groupOf in *.
  destruct (JsObject.get ipd u) as [rep|] eqn:Hrep; simpl in Hgroups.
  - destruct (Hlocated u rep Hrep) as (d & r & Hf & -> & _ & ->). simpl.
    rewrite documentsOf_get_plain, Hf; [|done|]; simpl.
    + by rewrite Hgroups.
    + by apply Hplain, (JsObjectFacts.get_Some_keys _ _ rep).
  - rewrite (Hnone u Hrep), <- Hgroups. simpl.
    by destruct (JsObject.get (documentsOf files) u).
Qed.

(** X5. Issue counts are conserved through [auditDocument]: the issues of
    the returned groups and the returned bad issues are together as many as
    the issues the remote audit reported, and the bad issues are the
    reported issues without a location, in order. *)
Theorem X5_audit_counts_conserved
    mainDocument json cache mappings apiToken progress s grades issues documents bad s' :
  auditDocument mainDocument json cache mappings apiToken progress s
  = (Returned (grades, issues, documents, bad), s') ->
  exists reported,
    audit json (trim apiToken) progress = Some (grades, reported)
    /\ countIssues issues + length bad = length reported
    /\ bad = List.filter (unresolved (uri mainDocument)
                            (getLastGoodDocumentAst cache mainDocument) mappings)
                         reported.
Proof.
  intros Hrun.
  apply auditDocument_returned in Hrun
    as (reported & root & uris & ipd & files & s1 & Haudit & Hproc & Hload & Hlocate & ->).
  exists reported. split; [done|].
  destruct (processIssues_groups _ _ _ _ _ _ _ _ _ _ Hproc) as (_ & Hnd & Hplain & _).
  apply processIssues_returned in Hproc as (-> & _ & du & Hloop & _).
  apply processRun_returned in Hloop as (Hbad & _ & Hcount & _).
  apply locateLoop_shape in Hlocate;
    [|by apply JsObjectFacts.NoDup_Object_keys
     |intros k Hin; by apply Hplain, JsObjectFacts.In_Object_keys
     |done].
  simpl in Hlocate. apply (f_equal (map snd)) in Hlocate.
  rewrite !map_map in Hlocate. simpl in Hlocate.
  assert (Hsame : countIssues issues = countIssues ipd).
  { unfold countIssues, JsObject.entries. rewrite Hlocate.
    apply Permutation_list_sum, Permutation_map, JsObjectFacts.Object_entries_Permutation. }
  split; [lia|done].
Qed.

(** X6. A returning run of [auditDocument] opens exactly the documents that
    are not the main document and have a group of issues, each once, and
    returns each under its uri. Unless the main uri is [__proto__], the
    returned documents are the main document and the opened ones; they are
    enumerated with the main document first and then in the order they were
    opened when no uri is an array index. *)
Theorem X6_audit_opens_exactly_the_external_groups
    mainDocument json cache mappings apiToken progress s grades issues documents bad s' :
  auditDocument mainDocument json cache mappings apiToken progress s
  = (Returned (grades, issues, documents, bad), s') ->
  exists new,
    opened s' = opened s ++ new
    /\ List.NoDup (uri mainDocument :: new)
    /\ (forall u, In u new <-> u <> uri mainDocument /\ is_Some (JsObject.get issues u))
    /\ (forall u, In u new ->
          exists document, openTextDocument u = Some document
                           /\ JsObject.get documents u = Some document)
    /\ (uri mainDocument <> "__proto__" ->
        JsObject.get documents (uri mainDocument) = Some mainDocument
        /\ (forall u, In u (JsObject.keys documents) <-> u = uri mainDocument \/ In u new)
        /\ (JsObject.arrayIndex (uri mainDocument) = None ->
            (forall u, In u new -> JsObject.arrayIndex u = None) ->
            JsObject.Object_keys documents = uri mainDocument :: new)).
Proof.
  intros Hrun.
  destruct (auditDocument_parts _ _ _ _ _ _ _ _ _ _ _ _ Hrun)
    as (reported & uris & ipd & files & new & Haudit & Hproc & _ & -> & Hopened & _
        & Hkeys & Hfnd & Hmain & Hnew & Hlocated & Hnone & _ & _ & Hplain).
  destruct (processIssues_uris _ _ _ _ _ _ _ _ _ _ Hproc) as (_ & _ & Huris & _).
  assert (Hnotproto : forall u, In u new -> String.eqb u "__proto__" = false).
  { intros u Hin. destruct (Hnew u Hin) as (_ & _ & Hp & _).
    apply String.eqb_neq. intros ->. by rewrite JsObjectFacts.inherited_proto in Hp. }
  assert (Hfilter : List.filter (fun k => negb (String.eqb k "__proto__")) new = new).
  { clear -Hnotproto. induction new as [|u new IH]; [done|]. simpl.
    rewrite (Hnotproto u) by (by left). simpl. f_equal.
    apply IH. intros u' Hin. apply Hnotproto. by right. }
  exists new. split_and!.
  - done.
  - by rewrite <- Hkeys.
  - intros u. split.
    + intros Hin. destruct (Hnew u Hin) as (Hu & Hne & _ & _). split; [done|].
      apply Huris in Hu as [->|Hu]; [done|].
      apply JsObjectFacts.keys_get_Some in Hu as [rep Hrep].
      destruct (Hlocated u rep Hrep) as (d & r & _ & _ & _ & Hsome). eauto.
    + intros [Hne [group Hgroup]].
      destruct (JsObject.get ipd u) as [rep|] eqn:Hrep;
        [|by rewrite (Hnone u Hrep) in Hgroup].
      destruct (Hlocated u rep Hrep) as (d & r & _ & _ & [[-> _]|[Hin _]] & _); done.
  - intros u Hin. destruct (Hnew u Hin) as (_ & _ & Hp & d & Hd & Hf).
    exists d. split; [done|]. by rewrite documentsOf_get_plain, Hf.
  - intros Hproto. apply String.eqb_neq in Hproto.
    assert (Hdocs : JsObject.keys (documentsOf files)
                    = List.filter (fun k => negb (String.eqb k "__proto__"))
                        (JsObject.Object_keys files))
      by (by apply documentsOf_keys).
    split_and!.
    + rewrite documentsOf_get, Hproto, Hmain by done. done.
    + intros u. rewrite Hdocs, filter_In, JsObjectFacts.In_Object_keys, Hkeys. simpl.
      split; [intros [[<-|Hin] _]; auto|].
      intros [->|Hin]; (split; [auto|]);
        [by rewrite Hproto|by rewrite (Hnotproto u Hin)].
    + intros Hindex Hindices.
      assert (Hplain' : forall k, In k (JsObject.keys files) -> JsObject.arrayIndex k = None).
      { intros k. rewrite Hkeys. intros [<-|Hin]; auto. }
      rewrite (JsObjectFacts.Object_keys_plain _ Hplain'), Hkeys in Hdocs.
      simpl in Hdocs. rewrite Hproto, Hfilter in Hdocs. simpl in Hdocs.
      rewrite JsObjectFacts.Object_keys_plain; [done|].
      intros k. rewrite Hdocs. intros [<-|Hin]; auto.
Qed.

(** X7. Once the remote audit has answered, [auditDocument] throws a
    [TypeError] exactly when the Mapping Table answers [undefined] for the
    pointer of a reported issue that is not in the root AST, or a reported
    issue is sent to a uri that names a property of [Object.prototype]; it
    then throws before any document is opened. *)
Theorem X7_audit_type_error_iff_undefined_mapping_or_prototype_uri
    mainDocument json cache mappings apiToken progress s grades reported :
  audit json (trim apiToken) progress = Some (grades, reported) ->
  let root := getLastGoodDocumentAst cache mainDocument in
  let run := auditDocument mainDocument json cache mappings apiToken progress s in
  (run.1 = Thrown TypeError
   <-> ~ (mappingsAnswer root mappings reported
          /\ plainLocations (uri mainDocument) root mappings reported))
  /\ (run.1 = Thrown TypeError -> opened run.2 = opened s).
Proof.
  intros Haudit root run. subst run.
  destruct (auditDocument_cases mainDocument json cache mappings apiToken progress
              s grades reported Haudit)
    as [[Hno ->]|[[Hyes (s' & before & u & -> & _)]
                 |[Hyes (issues & documents & bad & s' & ->)]]]; simpl.
  - done.
  - split; [split; [done|intros Hno; by destruct Hno]|done].
  - split; [split; [done|intros Hno; by destruct Hno]|done].
Qed.

(** X8. When the remote audit rejects, [auditDocument] rejects and touches
    nothing. When it answers, the Mapping Table answers every lookup and no
    issue is sent to a uri that names a property of [Object.prototype],
    [auditDocument] either returns the grades of the audit, or rejects
    because a document could not be opened, and that document is the last
    one it tried to open. *)
Theorem X8_audit_rejections
    mainDocument json cache mappings apiToken progress s :
  (audit json (trim apiToken) progress = None ->
   auditDocument mainDocument json cache mappings apiToken progress s
   = (Thrown Rejected, s))
  /\ (forall grades reported,
        audit json (trim apiToken) progress = Some (grades, reported) ->
        mappingsAnswer (getLastGoodDocumentAst cache mainDocument) mappings reported ->
        plainLocations (uri mainDocument) (getLastGoodDocumentAst cache mainDocument)
          mappings reported ->
        (exists issues documents bad s',
           auditDocument mainDocument json cache mappings apiToken progress s
           = (Returned (grades, issues, documents, bad), s'))
        \/ (exists s' before u,
              auditDocument mainDocument json cache mappings apiToken progress s
              = (Thrown Rejected, s')
              /\ opened s' = opened s ++ before ++ [u]
              /\ openTextDocument u = None)).
Proof.
  split.
  - intros Hnone. unfold auditDocument. apply eff_bind_thrown.
    unfold remote_audit. by rewrite Hnone.
  - intros grades reported Haudit Hanswer Hlocations.
    destruct (auditDocument_cases mainDocument json cache mappings apiToken progress
                s grades reported Haudit)
      as [[Hno _]|[[_ Hrejected]|[_ Hreturned]]];
      [by destruct Hno|by right|by left].
Qed.

(** X24. When the Mapping Table answers every lookup with an entry and no
    issue is sent to a uri that names a property of [Object.prototype],
    [processIssues] returns, and every input issue whose pointer is not in
    the root AST and whose entry has no non-empty hash is in the bad issues;
    so is, when no entry of the table has a hash, every issue whose pointer
    is not in the root AST. *)
Theorem X24_issues_without_hash_are_bad document cache mappings issues s :
  let root := getLastGoodDocumentAst cache document in
  mappingsAnswer root mappings issues ->
  plainLocations (uri document) root mappings issues ->
  exists uris ipd bad s',
    processIssues document cache mappings issues s
    = (Returned (root, uris, ipd, bad), s')
    /\ (forall issue mapping,
          In issue issues ->
          find root (pointer issue) = None ->
          findMapping mappings (pointer issue) = Some mapping ->
          truthy (mapping_hash mapping) = false ->
          In issue bad)
    /\ ((forall p mapping, findMapping mappings p = Some mapping ->
                           truthy (mapping_hash mapping) = false) ->
        forall issue, In issue issues -> find root (pointer issue) = None ->
                      In issue bad).
Proof.
  intros root Hanswer Hlocations.
  destruct (processLoop_returns (uri document) _ _ _ Hanswer Hlocations
              (JsObject.set JsObject.empty (uri document) true, JsObject.empty, []))
    as [[[du ipd] bad] Hloop]; [by intros ? []|].
  exists (JsObject.Object_keys du), ipd, bad.
  eexists. rewrite processIssues_run. fold root. rewrite Hloop.
  split; [reflexivity|].
  apply processRun_returned in Hloop as (Hbad & _).
  assert (Hgen : forall issue mapping,
             In issue issues ->
             find root (pointer issue) = None ->
             findMapping mappings (pointer issue) = Some mapping ->
             truthy (mapping_hash mapping) = false ->
             In issue bad).
  { intros issue mapping Hin Hfind Hmap Hhash. rewrite Hbad.
    apply filter_In. split; [done|].
    unfold unresolved.
    by rewrite (findIssueLocation_no_hash _ _ _ _ mapping). }
  split; [exact Hgen|].
  intros Hnohash issue Hin Hfind.
  unfold mappingsAnswer in Hanswer. rewrite Forall_forall in Hanswer.
  destruct (Hanswer issue) as [mapping Hmap]; [by apply list_elem_of_In|done|].
  eapply Hgen; eauto.
Qed.

End AuditProperties.

(** * Further properties of the editor handlers *)

Import Extension.

Section ExtensionMoreFacts.
Context `{Host}.

Ltac run_handler :=
  unfold updateDiagnostics, onDidCloseTextDocument, onDocumentChanged,
    onActiveEditorChanged, updateVersionContext, window_activeTextEditor, parse,
    setContext, diagnostics_set, diagnostics_delete, didChangeTree_fire,
    didChangeTreeIncludingErrors_fire, didChangeEditor_fire, eff_modify;
  unfold mbind, eff_mbind, eff_bind, mret, eff_mret, eff_ret;
  cbn [activeTextEditor contextValues diagnostics didChangeTree
       didChangeTreeIncludingErrors didChangeEditor parsed].

Lemma onActiveEditorChanged_none w :
  onActiveEditorChanged None w
  = (Returned tt,
     {| activeTextEditor := activeTextEditor w;
        contextValues := contextValues w;
        diagnostics := diagnostics w;
        didChangeTree := didChangeTree w ++ [(None, None)];
        didChangeTreeIncludingErrors := didChangeTreeIncludingErrors w ++ [(None, None)];
        didChangeEditor := didChangeEditor w ++ [(None, Unknown)];
        parsed := parsed w |}).
Proof. reflexivity. Qed.

Lemma onActiveEditorChanged_errors editor w version node errors :
  parseDocument (document editor) = (version, node, Some errors) ->
  onActiveEditorChanged (Some editor) w
  = (Returned tt,
     {| activeTextEditor := activeTextEditor w;
        contextValues :=
          <["openapiErrors" := true]> (versionContext version (contextValues w));
        diagnostics := <[uri (document editor) := errors]> (diagnostics w);
        didChangeTree := didChangeTree w;
        didChangeTreeIncludingErrors :=
          didChangeTreeIncludingErrors w ++ [(Some node, None)];
        didChangeEditor := didChangeEditor w ++ [(Some editor, version)];
        parsed := parsed w ++ [document editor] |}).
Proof.
  intros Hparse. unfold versionContext. run_handler. rewrite Hparse.
  destruct version; cbn [activeTextEditor contextValues diagnostics didChangeTree
       didChangeTreeIncludingErrors didChangeEditor parsed]; try reflexivity.
  do 2 f_equal. f_equal. apply insert_insert_ne. done.
Qed.

Lemma onActiveEditorChanged_valid editor w version node :
  parseDocument (document editor) = (version, node, None) ->
  onActiveEditorChanged (Some editor) w
  = (Returned tt,
     {| activeTextEditor := activeTextEditor w;
        contextValues :=
          <["openapiErrors" := false]> (versionContext version (contextValues w));
        diagnostics := delete (uri (document editor)) (diagnostics w);
        didChangeTree := didChangeTree w ++ [(Some node, None)];
        didChangeTreeIncludingErrors :=
          didChangeTreeIncludingErrors w ++ [(Some node, None)];
        didChangeEditor := didChangeEditor w ++ [(Some editor, version)];
        parsed := parsed w ++ [document editor] |}).
Proof.
  intros Hparse. unfold versionContext. run_handler. rewrite Hparse.
  destruct version; cbn [activeTextEditor contextValues diagnostics didChangeTree
       didChangeTreeIncludingErrors didChangeEditor parsed]; try reflexivity.
  do 2 f_equal. f_equal. apply insert_insert_ne. done.
Qed.

Lemma versionContext_lookup version values :
  versionContext version values !! "openapiTwoEnabled" = Some (bool_decide (version = V2))
  /\ versionContext version values !! "openapiThreeEnabled"
     = Some (bool_decide (version = V3))
  /\ (forall key, key <> "openapiTwoEnabled" -> key <> "openapiThreeEnabled" ->
        versionContext version values !! key = values !! key).
Proof.
  unfold versionContext. split_and!.
  - rewrite lookup_insert_ne by done. by rewrite lookup_insert_eq.
  - by rewrite lookup_insert_eq.
  - intros key H2 H3. by rewrite !lookup_insert_ne.
Qed.

End ExtensionMoreFacts.

(** ** Context keys *)

Lemma string_append_cons c a b : String c a +:+ b = String c (a +:+ b).
Proof. reflexivity. Qed.

Lemma list_ascii_of_string_append a b :
  String.list_ascii_of_string (a +:+ b)
  = String.list_ascii_of_string a ++ String.list_ascii_of_string b.
Proof.
  induction a as [|c a IH]; [done|].
  rewrite string_append_cons. simpl. by rewrite IH.
Qed.

(** Two views with different ids have different selection keys. *)
Lemma selected_key_inj id id' : id +:+ "Selected" = id' +:+ "Selected" -> id = id'.
Proof.
  intros Heq. apply (f_equal String.list_ascii_of_string) in Heq.
  rewrite !list_ascii_of_string_append in Heq. apply app_inv_tail in Heq.
  rewrite <- (String.string_of_list_ascii_of_string id),
          <- (String.string_of_list_ascii_of_string id').
  by rewrite Heq.
Qed.

(** A selection key is none of the keys the handlers set. *)
Lemma selected_key_fresh id :
  id +:+ "Selected" <> "openapiTwoEnabled"
  /\ id +:+ "Selected" <> "openapiThreeEnabled"
  /\ id +:+ "Selected" <> "openapiErrors".
Proof.
  split_and!; intros Heq;
    apply (f_equal String.list_ascii_of_string) in Heq;
    rewrite list_ascii_of_string_append in Heq;
    apply (f_equal (@rev _)) in Heq;
    rewrite rev_app_distr in Heq; cbn in Heq; discriminate Heq.
Qed.

Import Activation.

Section EditorStepFacts.
Context `{Host}.

Lemma forActiveDocument_dec w event :
  forActiveDocument w event \/ ~ forActiveDocument w event.
Proof.
  unfold forActiveDocument. destruct (activeTextEditor w) as [editor|].
  - destruct (decide (uri (document editor) = uri (event_document event))).
    + left. eauto.
    + right. intros (editor' & [= <-] & Huri). done.
  - right. by intros (editor' & [=] & _).
Qed.

(** What one delivered event does to the two tree events and to the two
    version flags. *)
Lemma deliver_step e w :
  exists w' fired firedAll,
    deliver tt e w = (Returned tt, w')
    /\ didChangeTree w' = didChangeTree w ++ fired
    /\ didChangeTreeIncludingErrors w' = didChangeTreeIncludingErrors w ++ firedAll
    /\ sublist fired firedAll
    /\ ((contextValues w' !! "openapiTwoEnabled" = contextValues w !! "openapiTwoEnabled"
         /\ contextValues w' !! "openapiThreeEnabled"
            = contextValues w !! "openapiThreeEnabled")
        \/ exists version,
             contextValues w' !! "openapiTwoEnabled" = Some (bool_decide (version = V2))
             /\ contextValues w' !! "openapiThreeEnabled"
                = Some (bool_decide (version = V3))).
Proof.
  destruct e as [[editor|]|event|closed|id selection]; unfold deliver.
  - (* another editor becomes active *)
    destruct (parseDocument (document editor)) as [[version node] [errors|]] eqn:Hparse.
    + erewrite eff_bind_run by reflexivity.
      rewrite (onActiveEditorChanged_errors _ _ _ _ _ Hparse).
      eexists _, [], [_]. split; [reflexivity|]. cbn.
      split_and!; [by rewrite app_nil_r|done|apply sublist_nil_l|].
      right. exists version.
      destruct (versionContext_lookup version (contextValues w)) as (H2 & H3 & _).
      by rewrite !lookup_insert_ne.
    + erewrite eff_bind_run by reflexivity.
      rewrite (onActiveEditorChanged_valid _ _ _ _ Hparse).
      eexists _, [_], [_]. split; [reflexivity|]. cbn.
      split_and!; [done|done|done|].
      right. exists version.
      destruct (versionContext_lookup version (contextValues w)) as (H2 & H3 & _).
      by rewrite !lookup_insert_ne.
  - (* no editor is active *)
    erewrite eff_bind_run by reflexivity. rewrite onActiveEditorChanged_none.
    eexists _, [_], [_]. split; [reflexivity|]. cbn.
    split_and!; [done|done|done|by left].
  - (* an edit *)
    destruct (forActiveDocument_dec w event) as [Hactive|Hinactive].
    + destruct (parseDocument (event_document event))
        as [[version node] [errors|]] eqn:Hparse.
      * rewrite (onDocumentChanged_errors _ _ _ _ _ Hactive Hparse).
        eexists _, [], [_]. split; [reflexivity|]. cbn.
        split_and!; [by rewrite app_nil_r|done|apply sublist_nil_l|].
        left. by rewrite !lookup_insert_ne.
      * rewrite (onDocumentChanged_valid _ _ _ _ Hactive Hparse).
        eexists _, [_], [_]. split; [reflexivity|]. cbn.
        split_and!; [done|done|done|].
        right. exists version. split.
        -- rewrite lookup_insert_ne by done. by rewrite lookup_insert_eq.
        -- by rewrite lookup_insert_eq.
    + rewrite (onDocumentChanged_inactive _ _ Hinactive).
      exists w, [], []. rewrite !app_nil_r. split_and!; [done|done|done|done|by left].
  - (* a document is closed *)
    eexists _, [], []. split; [reflexivity|]. cbn. rewrite !app_nil_r.
    split_and!; [done|done|done|by left].
  - (* the selection of a view changes *)
    eexists _, [], []. split; [reflexivity|]. cbn. rewrite !app_nil_r.
    destruct (selected_key_fresh id) as (H2 & H3 & _).
    split_and!; [done|done|done|]. left. by rewrite !lookup_insert_ne.
Qed.

End EditorStepFacts.

(** ** Properties of the editor handlers *)

Section EditorProperties.
Context `{Host}.

(** X9. When the active editor changes to a document, the version flags
    follow the version the parse found even when the parse has errors (unlike
    an edit), the tree event for completion and the editor event are fired
    once each, and the valid-tree event is fired only for a parse without
    errors. When no editor is left, the three events are fired with nulls,
    nothing is parsed, and diagnostics and context values are kept. *)
Theorem X9_editor_change_sets_version_and_notifies :
  (forall editor w version node errors,
      parseDocument (document editor) = (version, node, errors) ->
      exists w',
        onActiveEditorChanged (Some editor) w = (Returned tt, w')
        /\ contextValues w' !! "openapiTwoEnabled" = Some (bool_decide (version = V2))
        /\ contextValues w' !! "openapiThreeEnabled" = Some (bool_decide (version = V3))
        /\ didChangeTreeIncludingErrors w'
           = didChangeTreeIncludingErrors w ++ [(Some node, None)]
        /\ didChangeEditor w' = didChangeEditor w ++ [(Some editor, version)]
        /\ didChangeTree w'
           = didChangeTree w ++ match errors with
                                | Some _ => []
                                | None => [(Some node, None)]
                                end
        /\ parsed w' = parsed w ++ [document editor])
  /\ (forall w, exists w',
        onActiveEditorChanged None w = (Returned tt, w')
        /\ didChangeTree w' = didChangeTree w ++ [(None, None)]
        /\ didChangeTreeIncludingErrors w'
           = didChangeTreeIncludingErrors w ++ [(None, None)]
        /\ didChangeEditor w' = didChangeEditor w ++ [(None, Unknown)]
        /\ parsed w' = parsed w
        /\ diagnostics w' = diagnostics w
        /\ contextValues w' = contextValues w).
Proof.
  split.
  - intros editor w version node errors Hparse.
    destruct (versionContext_lookup version (contextValues w)) as (H2 & H3 & _).
    destruct errors as [errs|].
    + rewrite (onActiveEditorChanged_errors _ _ _ _ _ Hparse).
      eexists. split; [reflexivity|]. cbn. rewrite app_nil_r.
      split_and!; try done; by rewrite lookup_insert_ne.
    + rewrite (onActiveEditorChanged_valid _ _ _ _ Hparse).
      eexists. split; [reflexivity|]. cbn.
      split_and!; try done; by rewrite lookup_insert_ne.
  - intros w. rewrite onActiveEditorChanged_none. eexists. split; [reflexivity|].
    by cbn.
Qed.

(** X10. After each reparse the [openapiErrors] context value says whether
    the document has diagnostics: it is true exactly when the diagnostic
    collection holds an entry for the document. *)
Theorem X10_errors_flag_matches_diagnostics :
  (forall editor w, exists w',
      onActiveEditorChanged (Some editor) w = (Returned tt, w')
      /\ contextValues w' !! "openapiErrors"
         = Some (bool_decide (is_Some (diagnostics w' !! uri (document editor)))))
  /\ (forall event w, forActiveDocument w event -> exists w',
        onDocumentChanged event w = (Returned tt, w')
        /\ contextValues w' !! "openapiErrors"
           = Some (bool_decide (is_Some (diagnostics w' !! uri (event_document event)))))
  /\ (forall current w, exists w',
        updateDiagnostics current w = (Returned tt, w')
        /\ contextValues w' !! "openapiErrors"
           = Some (bool_decide (is_Some (diagnostics w' !! entry_uri current)))).
Proof.
  assert (Hset : forall (m : gmap string (list Diagnostic)) u errs,
             true = bool_decide (is_Some (<[u := errs]> m !! u))).
  { intros. symmetry. apply bool_decide_eq_true. rewrite lookup_insert_eq. eauto. }
  assert (Hdel : forall (m : gmap string (list Diagnostic)) u,
             false = bool_decide (is_Some (delete u m !! u))).
  { intros. symmetry. apply bool_decide_eq_false. rewrite lookup_delete_eq.
    by intros [? [=]]. }
  split_and!.
  - intros editor w.
    destruct (parseDocument (document editor)) as [[version node] [errs|]] eqn:Hparse.
    + rewrite (onActiveEditorChanged_errors _ _ _ _ _ Hparse).
      eexists. split; [reflexivity|]. cbn. rewrite lookup_insert_eq. f_equal. apply Hset.
    + rewrite (onActiveEditorChanged_valid _ _ _ _ Hparse).
      eexists. split; [reflexivity|]. cbn. rewrite lookup_insert_eq. f_equal. apply Hdel.
  - intros event w Hactive.
    destruct (parseDocument (event_document event)) as [[version node] [errs|]] eqn:Hparse.
    + rewrite (onDocumentChanged_errors _ _ _ _ _ Hactive Hparse).
      eexists. split; [reflexivity|]. cbn. rewrite lookup_insert_eq. f_equal. apply Hset.
    + rewrite (onDocumentChanged_valid _ _ _ _ Hactive Hparse).
      eexists. split; [reflexivity|]. cbn.
      rewrite !lookup_insert_ne by done. rewrite lookup_insert_eq. f_equal. apply Hdel.
  - intros current w. unfold updateDiagnostics.
    destruct (entry_errors current) as [errs|]; eexists; (split; [reflexivity|]); cbn;
      rewrite lookup_insert_eq; f_equal; [apply Hset|apply Hdel].
Qed.

(** X11. The handlers touch the diagnostics of one document only: the
    diagnostics of every other uri are as before. Closing a document changes
    nothing but its diagnostics: no context value, no event, no parse. *)
Theorem X11_other_diagnostics_untouched u :
  (forall editor w, u <> uri (document editor) ->
      diagnostics (onActiveEditorChanged (Some editor) w).2 !! u = diagnostics w !! u)
  /\ (forall event w, u <> uri (event_document event) ->
        diagnostics (onDocumentChanged event w).2 !! u = diagnostics w !! u)
  /\ (forall current w, u <> entry_uri current ->
        diagnostics (updateDiagnostics current w).2 !! u = diagnostics w !! u)
  /\ (forall closed w,
        let w' := (onDidCloseTextDocument closed w).2 in
        (u <> uri closed -> diagnostics w' !! u = diagnostics w !! u)
        /\ contextValues w' = contextValues w
        /\ didChangeTree w' = didChangeTree w
        /\ didChangeTreeIncludingErrors w' = didChangeTreeIncludingErrors w
        /\ didChangeEditor w' = didChangeEditor w
        /\ parsed w' = parsed w).
Proof.
  split_and!.
  - intros editor w Hne.
    destruct (parseDocument (document editor)) as [[version node] [errs|]] eqn:Hparse.
    + rewrite (onActiveEditorChanged_errors _ _ _ _ _ Hparse). cbn.
      by rewrite lookup_insert_ne.
    + rewrite (onActiveEditorChanged_valid _ _ _ _ Hparse). cbn.
      by rewrite lookup_delete_ne.
  - intros event w Hne.
    destruct (forActiveDocument_dec w event) as [Hactive|Hinactive].
    + destruct (parseDocument (event_document event))
        as [[version node] [errs|]] eqn:Hparse.
      * rewrite (onDocumentChanged_errors _ _ _ _ _ Hactive Hparse). cbn.
        by rewrite lookup_insert_ne.
      * rewrite (onDocumentChanged_valid _ _ _ _ Hactive Hparse). cbn.
        by rewrite lookup_delete_ne.
    + by rewrite (onDocumentChanged_inactive _ _ Hinactive).
  - intros current w Hne.
    unfold updateDiagnostics, diagnostics_set, diagnostics_delete, setContext,
      eff_modify, mbind, eff_mbind, eff_bind.
    destruct (entry_errors current) as [errs|]; cbn.
    + by rewrite lookup_insert_ne.
    + by rewrite lookup_delete_ne.
  - intros closed w.
    unfold onDidCloseTextDocument, diagnostics_delete, eff_modify. cbn.
    split_and!; try done.
    intros Hne. by rewrite lookup_delete_ne.
Qed.

(** X12. Breaking the active document and then repairing it leaves no
    trace of the errors: after an edit with parse errors followed by an edit
    that parses, the diagnostics are those of the start without the
    document's entry, [openapiErrors] is false, the version flags are those of
    the repaired document, and the valid-tree event has been fired once, for
    the repaired tree. *)
Theorem X12_repair_after_errors
    broken repaired w version1 node1 errors version2 node2 :
  forActiveDocument w broken ->
  uri (event_document repaired) = uri (event_document broken) ->
  parseDocument (event_document broken) = (version1, node1, Some errors) ->
  parseDocument (event_document repaired) = (version2, node2, None) ->
  exists w1 w2,
    onDocumentChanged broken w = (Returned tt, w1)
    /\ onDocumentChanged repaired w1 = (Returned tt, w2)
    /\ diagnostics w2 = delete (uri (event_document broken)) (diagnostics w)
    /\ contextValues w2 !! "openapiErrors" = Some false
    /\ contextValues w2 !! "openapiTwoEnabled" = Some (bool_decide (version2 = V2))
    /\ contextValues w2 !! "openapiThreeEnabled" = Some (bool_decide (version2 = V3))
    /\ didChangeTree w2 = didChangeTree w ++ [(Some node2, Some repaired)].
Proof.
  intros Hactive Huri Hbroken Hrepaired.
  rewrite (onDocumentChanged_errors _ _ _ _ _ Hactive Hbroken).
  eexists _, _. split; [reflexivity|].
  rewrite (onDocumentChanged_valid _ _ version2 node2); [|..|done].
  - split; [reflexivity|]. cbn. rewrite Huri. split_and!.
    + apply delete_insert_eq.
    + rewrite !lookup_insert_ne by done. by rewrite lookup_insert_eq.
    + rewrite lookup_insert_ne by done. by rewrite lookup_insert_eq.
    + by rewrite lookup_insert_eq.
    + done.
  - destruct Hactive as (editor & Hed & Hu). exists editor. cbn. split; congruence.
Qed.

(** X13. [updateVersionContext] changes no context value but the two
    version flags, and the last call wins: calling it for one version and
    then for another leaves the context values that the second call alone
    would leave. *)
Theorem X13_version_context_last_call_wins first second w :
  exists w1 w2 w2',
    updateVersionContext first w = (Returned tt, w1)
    /\ updateVersionContext second w1 = (Returned tt, w2)
    /\ updateVersionContext second w = (Returned tt, w2')
    /\ contextValues w2 = contextValues w2'
    /\ (forall key, key <> "openapiTwoEnabled" -> key <> "openapiThreeEnabled" ->
          contextValues w2 !! key = contextValues w !! key).
Proof.
  destruct (updateVersionContext_run first w) as (w1 & Hrun1 & Hctx1 & _).
  destruct (updateVersionContext_run second w1) as (w2 & Hrun2 & Hctx2 & _).
  destruct (updateVersionContext_run second w) as (w2' & Hrun2' & Hctx2' & _).
  exists w1, w2, w2'. split_and!; [done|done|done| |].
  - rewrite Hctx2, Hctx2', Hctx1. apply map_eq. intros key.
    destruct (decide (key = "openapiThreeEnabled")) as [->|H3];
      [by rewrite !lookup_insert_eq|].
    rewrite !(lookup_insert_ne _ "openapiThreeEnabled") by done.
    destruct (decide (key = "openapiTwoEnabled")) as [->|H2];
      [by rewrite !lookup_insert_eq|].
    rewrite !lookup_insert_ne by done. done.
  - intros key H2 H3. rewrite Hctx2, Hctx1. rewrite !lookup_insert_ne by done. done.
Qed.

(** X14. The two revisions agree: for an edit of the active document,
    [onDocumentChanged] leaves the diagnostics and the [openapiErrors] value
    that [updateDiagnostics] of the later revision leaves for the entry made
    of the document's uri and the errors of its parse. *)
Theorem X14_update_diagnostics_agrees_with_edit event w :
  forActiveDocument w event ->
  let current := {| entry_uri := uri (event_document event);
                    entry_errors := (parseDocument (event_document event)).2 |} in
  exists w1 w2,
    onDocumentChanged event w = (Returned tt, w1)
    /\ updateDiagnostics current w = (Returned tt, w2)
    /\ diagnostics w1 = diagnostics w2
    /\ contextValues w1 !! "openapiErrors" = contextValues w2 !! "openapiErrors".
Proof.
  intros Hactive current. subst current. unfold updateDiagnostics.
  destruct (parseDocument (event_document event)) as [[version node] [errs|]] eqn:Hparse.
  - rewrite (onDocumentChanged_errors _ _ _ _ _ Hactive Hparse).
    eexists _, _. split; [reflexivity|]. split; [reflexivity|]. by cbn.
  - rewrite (onDocumentChanged_valid _ _ _ _ Hactive Hparse).
    eexists _, _. split; [reflexivity|]. split; [reflexivity|]. cbn.
    split; [done|]. rewrite !lookup_insert_ne by done. by rewrite !lookup_insert_eq.
Qed.

(** X15. Whatever events vscode delivers, in whatever order, the listeners
    return, and every valid-tree notification is also an including-errors
    notification: the fired valid-tree changes stay a subsequence of the
    fired including-errors changes. *)
Theorem X15_valid_tree_events_are_among_all_tree_events events w :
  sublist (didChangeTree w) (didChangeTreeIncludingErrors w) ->
  exists w',
    forOf deliver events tt w = (Returned tt, w')
    /\ sublist (didChangeTree w') (didChangeTreeIncludingErrors w').
Proof.
  revert w. induction events as [|e events IH]; intros w Hsub.
  - exists w. by split.
  - destruct (deliver_step e w)
      as (w1 & fired & firedAll & Hrun & Htree & Hall & Hfired & _).
    destruct (IH w1) as (w' & Hrest & Hsub').
    { rewrite Htree, Hall. by apply sublist_app. }
    exists w'. split; [|done].
    cbn [forOf]. by rewrite (eff_bind_run _ _ _ _ _ Hrun).
Qed.

(** X16. Whatever events vscode delivers, the two version flags are never
    both true afterwards, provided they were not both true before. *)
Theorem X16_version_flags_stay_exclusive events w :
  ~ (contextValues w !! "openapiTwoEnabled" = Some true
     /\ contextValues w !! "openapiThreeEnabled" = Some true) ->
  exists w',
    forOf deliver events tt w = (Returned tt, w')
    /\ ~ (contextValues w' !! "openapiTwoEnabled" = Some true
          /\ contextValues w' !! "openapiThreeEnabled" = Some true).
Proof.
  revert w. induction events as [|e events IH]; intros w Hexclusive.
  - exists w. by split.
  - destruct (deliver_step e w)
      as (w1 & fired & firedAll & Hrun & _ & _ & _ & Hflags).
    destruct (IH w1) as (w' & Hrest & Hexclusive').
    { destruct Hflags as [[-> ->]|(version & -> & ->)]; [done|].
      intros [[= H2] [= H3]]. apply bool_decide_eq_true in H2, H3. congruence. }
    exists w'. split; [|done].
    cbn [forOf]. by rewrite (eff_bind_run _ _ _ _ _ Hrun).
Qed.

End EditorProperties.


(** * Activation and the outline views *)

Section ActivationFacts.
Context `{Host} `{VersionHost}.

Lemma JsObject_delete_absent {V} (o : JsObject.t V) k :
  ~ In k (JsObject.keys o) -> JsObject_delete o k = o.
Proof.
  induction o as [|[k' v'] o IH]; simpl; [done|].
  intros Hnin. destruct (String.eqb k' k) eqn:E.
  - apply String.eqb_eq in E. tauto.
  - rewrite IH; [done|tauto].
Qed.

(** The loop of [deactivate] over the views that are still registered. *)
Lemma deactivate_loop (rest : JsObject.t TreeView) :
  List.NoDup (JsObject.keys rest) ->
  forall made gone,
  forOf (fun (_ : unit) k (v : Views) =>
           match JsObject.get (outlines v) k with
           | Some _ =>
               match JsObject.get (outlines v) k with
               | Some view =>
                   (treeView_dispose view;;
                    eff_modify (fun v =>
                      {| outlines := JsObject_delete (outlines v) k;
                         created := created v; disposed := disposed v |})) v
               | None => (Thrown TypeError, v)
               end
           | None => (Returned tt, v)
           end)
        (JsObject.keys rest) tt
        {| outlines := rest; created := made; disposed := gone |}
  = (Returned tt,
     {| outlines := []; created := made; disposed := gone ++ map snd rest |}).
Proof.
  induction rest as [|[k view] rest IH]; intros Hnd made gone.
  - simpl. by rewrite app_nil_r.
  - inversion Hnd as [|? ? Hk Hnd']; subst.
    cbn [JsObject.keys map fst].
    match goal with
    | |- forOf ?body _ _ ?v = _ =>
        assert (Hstep : body tt k v
                        = (Returned tt,
                           {| outlines := rest; created := made;
                              disposed := gone ++ [view] |}))
    end.
    { cbn [outlines JsObject.get]. rewrite String.eqb_refl.
      unfold treeView_dispose, eff_modify, mbind, eff_mbind, eff_bind.
      cbn [outlines created disposed JsObject_delete]. rewrite String.eqb_refl.
      by rewrite JsObject_delete_absent. }
    cbn [forOf]. rewrite (eff_bind_run _ _ _ _ _ Hstep).
    etrans; [exact (IH Hnd' made (gone ++ [view]))|].
    simpl. by rewrite <- app_assoc.
Qed.

Lemma deactivate_run v :
  List.NoDup (JsObject.keys (outlines v)) ->
  deactivate v
  = (Returned tt,
     {| outlines := []; created := created v;
        disposed := disposed v ++ map snd (outlines v) |}).
Proof.
  intros Hnd. destruct v as [registry made gone].
  unfold deactivate, forIn. cbn [outlines created disposed] in *.
  by apply deactivate_loop.
Qed.

Lemma onActiveEditorChanged_returns editor w :
  exists w', onActiveEditorChanged editor w = (Returned tt, w').
Proof.
  destruct editor as [editor|].
  - destruct (parseDocument (document editor)) as [[version node] [errors|]] eqn:Hparse.
    + rewrite (onActiveEditorChanged_errors _ _ _ _ _ Hparse). eauto.
    + rewrite (onActiveEditorChanged_valid _ _ _ _ Hparse). eauto.
  - rewrite onActiveEditorChanged_none. eauto.
Qed.

Lemma registerOutlineTreeView_run id provider v :
  registerOutlineTreeView id provider v
  = (Returned tt, (registerOutlineTreeView id provider v).2).
Proof. reflexivity. Qed.

Lemma registerOutlineViews_run v :
  registerOutlineViews v
  = (Returned tt,
     fold_left (fun v '(id, provider) => (registerOutlineTreeView id provider v).2)
               outlineViews v).
Proof.
  unfold registerOutlineViews. generalize outlineViews. intros l. revert v.
  induction l as [|[id provider] l IH]; intros v; [done|].
  cbn [forOf fold_left].
  rewrite (eff_bind_run _ _ _ _ _ (registerOutlineTreeView_run id provider v)).
  apply IH.
Qed.

(** The steps of [activate], one by one. *)
Lemma inWorld_run {A} (m : Eff World A) x a w :
  m (world x) = (Returned a, w) ->
  inWorld m x
  = (Returned a,
     {| world := w; views := views x; globalState := globalState x; calls := calls x |}).
Proof. unfold inWorld. by intros ->. Qed.

Lemma inViews_register_run id provider x :
  inViews (registerOutlineTreeView id provider) x
  = (Returned tt,
     {| world := world x;
        views := (registerOutlineTreeView id provider (views x)).2;
        globalState := globalState x; calls := calls x |}).
Proof. unfold inViews. by rewrite registerOutlineTreeView_run. Qed.

Lemma call_run c x :
  call c x
  = (Returned tt,
     {| world := world x; views := views x; globalState := globalState x;
        calls := calls x ++ [c] |}).
Proof. reflexivity. Qed.

Lemma globalState_get_run key x :
  globalState_get key x = (Returned (globalState x !! key), x).
Proof. reflexivity. Qed.

Lemma globalState_update_run key value x :
  globalState_update key value x
  = (Returned tt,
     {| world := world x; views := views x;
        globalState := <[key := value]> (globalState x); calls := calls x |}).
Proof. reflexivity. Qed.

Lemma notNull_run {S A} (a : A) (s : S) : notNull (Some a) s = (Returned a, s).
Proof. reflexivity. Qed.

Lemma notNull_null {S A} (s : S) : notNull (A := A) None s = (Thrown TypeError, s).
Proof. reflexivity. Qed.

Lemma eff_mret_run {S A} (a : A) (s : S) : (mret a : Eff S A) s = (Returned a, s).
Proof. reflexivity. Qed.

Lemma inWorld_newEventEmitters x :
  inWorld newEventEmitters x
  = (Returned tt,
     {| world := {| activeTextEditor := activeTextEditor (world x);
                    contextValues := contextValues (world x);
                    diagnostics := diagnostics (world x);
                    didChangeTree := [];
                    didChangeTreeIncludingErrors := [];
                    didChangeEditor := [];
                    parsed := parsed (world x) |};
        views := views x; globalState := globalState x; calls := calls x |}).
Proof. reflexivity. Qed.

Lemma inWorld_createDiagnosticCollection x :
  inWorld createDiagnosticCollection x
  = (Returned tt,
     {| world := {| activeTextEditor := activeTextEditor (world x);
                    contextValues := contextValues (world x);
                    diagnostics := ∅;
                    didChangeTree := didChangeTree (world x);
                    didChangeTreeIncludingErrors := didChangeTreeIncludingErrors (world x);
                    didChangeEditor := didChangeEditor (world x);
                    parsed := parsed (world x) |};
        views := views x; globalState := globalState x; calls := calls x |}).
Proof. reflexivity. Qed.

Lemma inWorld_activeTextEditor x :
  inWorld window_activeTextEditor x
  = (Returned (activeTextEditor (world x)),
     {| world := world x; views := views x; globalState := globalState x;
        calls := calls x |}).
Proof. reflexivity. Qed.

(** [activate], once the current version parses: it throws at the version
    check when the previous version does not parse, and returns otherwise. *)
Lemma activate_run x current :
  semver_parse packageJSON_version = Some current ->
  exists w,
    onActiveEditorChanged (activeTextEditor (world x)) (freshWorld (world x))
    = (Returned tt, w)
    /\ activate x
       = match previousVersion x with
         | Some previous =>
             (Returned tt,
              {| world := w;
                 views := (registerOutlineViews (views x)).2;
                 globalState := <["openapiVersion" := version current]> (globalState x);
                 calls := calls x ++ callsBeforeVersionCheck
                          ++ (if major previous <? major current
                              then [CreateWhatsNewPanel] else [])
                          ++ callsAfterVersionCheck |})
         | None =>
             (Thrown TypeError,
              {| world := w;
                 views := (registerOutlineViews (views x)).2;
                 globalState := <["openapiVersion" := version current]> (globalState x);
                 calls := calls x ++ callsBeforeVersionCheck |})
         end.
Proof.
  intros Hcurrent.
  destruct (onActiveEditorChanged_returns (activeTextEditor (world x))
              (freshWorld (world x))) as [w Hw].
  exists w. split; [done|].
  assert (Hprevious :
    (if Audit.truthy (globalState x !! "openapiVersion")
     then semver_parse (default "" (globalState x !! "openapiVersion"))
     else semver_parse "0.0.1") = previousVersion x).
  { unfold previousVersion, Audit.truthy.
    destruct (globalState x !! "openapiVersion") as [stored|]; [|done].
    simpl. by destruct (String.eqb stored ""). }
  rewrite registerOutlineViews_run.
  unfold outlineViews, callsBeforeVersionCheck, callsAfterVersionCheck, freshWorld in *.
  cbn [fold_left snd]. unfold activate. cbv zeta. rewrite Hcurrent.
  rewrite (eff_bind_run _ _ _ _ _ (inWorld_newEventEmitters _)).
  cbv beta; cbn [world views globalState calls].
  rewrite (eff_bind_run _ _ _ _ _ (globalState_get_run _ _)).
  cbv beta; cbn [world views globalState calls]. rewrite Hprevious.
  rewrite (eff_bind_run _ _ _ _ _ (notNull_run _ _)).
  cbv beta; cbn [world views globalState calls].
  rewrite (eff_bind_run _ _ _ _ _ (globalState_update_run _ _ _)).
  cbv beta; cbn [world views globalState calls].
  repeat (first
    [ rewrite (eff_bind_run _ _ _ _ _ (call_run _ _))
    | rewrite (eff_bind_run _ _ _ _ _ (inViews_register_run _ _ _))
    | rewrite (eff_bind_run _ _ _ _ _ (inWorld_createDiagnosticCollection _))
    | rewrite (eff_bind_run _ _ _ _ _ (inWorld_activeTextEditor _)) ];
    cbv beta;
    cbn [world views globalState calls activeTextEditor contextValues diagnostics
         didChangeTree didChangeTreeIncludingErrors didChangeEditor parsed]).
  match goal with
  | |- (_ ≫= _) ?s = _ =>
      rewrite (eff_bind_run _ _ _ _ _
                 (inWorld_run (onActiveEditorChanged _) s tt w Hw))
  end.
  cbv beta; cbn [world views globalState calls].
  repeat (rewrite (eff_bind_run _ _ _ _ _ (call_run _ _));
          cbv beta; cbn [world views globalState calls]).
  destruct (previousVersion x) as [previous|].
  - rewrite (eff_bind_run _ _ _ _ _ (notNull_run _ _)). cbv beta.
    destruct (major previous <? major current).
    + repeat (rewrite (eff_bind_run _ _ _ _ _ (call_run _ _));
              cbv beta; cbn [world views globalState calls]).
      rewrite call_run. cbn [world views globalState calls].
      rewrite <- !app_assoc. reflexivity.
    + rewrite (eff_bind_run _ _ _ _ _ (eff_mret_run _ _)).
      cbv beta.
      repeat (rewrite (eff_bind_run _ _ _ _ _ (call_run _ _));
              cbv beta; cbn [world views globalState calls]).
      rewrite call_run. cbn [world views globalState calls].
      rewrite <- !app_assoc. reflexivity.
  - rewrite (eff_bind_thrown _ _ _ _ _ (notNull_null _)).
    rewrite <- !app_assoc. reflexivity.
Qed.

(** [activate] when the current version does not parse: it throws at
    [currentVersion.toString()], having only created the emitters. *)
Lemma activate_current_null x :
  semver_parse packageJSON_version = None ->
  activate x
  = (Thrown TypeError,
     {| world := {| activeTextEditor := activeTextEditor (world x);
                    contextValues := contextValues (world x);
                    diagnostics := diagnostics (world x);
                    didChangeTree := [];
                    didChangeTreeIncludingErrors := [];
                    didChangeEditor := [];
                    parsed := parsed (world x) |};
        views := views x; globalState := globalState x; calls := calls x |}).
Proof.
  intros Hcurrent. unfold activate. cbv zeta. rewrite Hcurrent.
  rewrite (eff_bind_run _ _ _ _ _ (inWorld_newEventEmitters _)).
  cbv beta; cbn [world views globalState calls].
  rewrite (eff_bind_run _ _ _ _ _ (globalState_get_run _ _)).
  cbv beta. by rewrite (eff_bind_thrown _ _ _ _ _ (notNull_null _)).
Qed.

(** The previous version that the next activation sees. *)
Lemma previousVersion_stored x stored :
  globalState x !! "openapiVersion" = Some stored -> stored <> "" ->
  previousVersion x = semver_parse stored.
Proof.
  intros Hstored Hne. unfold previousVersion. rewrite Hstored.
  apply String.eqb_neq in Hne. by rewrite Hne.
Qed.

Lemma whatsNew_in_calls (condition : bool) :
  In CreateWhatsNewPanel
     (callsBeforeVersionCheck
      ++ (if condition then [CreateWhatsNewPanel] else [])
      ++ callsAfterVersionCheck)
  <-> condition = true.
Proof.
  destruct condition; simpl; split; try done.
  - intros _. repeat (first [by left|right]).
  - intros Hin. repeat (destruct Hin as [Hin|Hin]; [discriminate Hin|]). done.
Qed.

Lemma pair_eq_inv {A B} (a c : A) (b d : B) : (a, b) = (c, d) -> a = c /\ b = d.
Proof. by intros [= -> ->]. Qed.

(** The fields of a session given by its fields. *)
Lemma globalState_mk w v g c :
  globalState {| world := w; views := v; globalState := g; calls := c |} = g.
Proof. reflexivity. Qed.

Lemma calls_mk w v g c :
  calls {| world := w; views := v; globalState := g; calls := c |} = c.
Proof. reflexivity. Qed.

Lemma views_mk w v g c :
  views {| world := w; views := v; globalState := g; calls := c |} = v.
Proof. reflexivity. Qed.

Lemma world_mk w v g c :
  world {| world := w; views := v; globalState := g; calls := c |} = w.
Proof. reflexivity. Qed.

(** What an activation leaves for the next one. *)
Lemma activate_stores_version x current out x1 :
  semver_parse packageJSON_version = Some current ->
  activate x = (out, x1) ->
  globalState x1 !! "openapiVersion" = Some (version current)
  /\ (out = Thrown TypeError -> previousVersion x = None)
  /\ (previousVersion x = None ->
      out = Thrown TypeError /\ calls x1 = calls x ++ callsBeforeVersionCheck).
Proof.
  intros Hcurrent Hrun.
  destruct (activate_run x current Hcurrent) as (w & _ & Hrun').
  rewrite Hrun in Hrun'.
  destruct (previousVersion x) as [previous|];
    apply pair_eq_inv in Hrun' as [Ho Hx]; subst out.
  - split_and!; [|done|done].
    rewrite Hx, globalState_mk. apply lookup_insert_eq.
  - split_and!; [|done|].
    + rewrite Hx, globalState_mk. apply lookup_insert_eq.
    + intros _. split; [done|]. by rewrite Hx, calls_mk.
Qed.

(** An activation that finds the current version stored. *)
Lemma activate_again x current reparsed :
  semver_parse packageJSON_version = Some current ->
  globalState x !! "openapiVersion" = Some (version current) ->
  version current <> "" ->
  semver_parse (version current) = Some reparsed ->
  exists x2,
    activate x = (Returned tt, x2)
    /\ calls x2 = calls x ++ callsBeforeVersionCheck
                  ++ (if major reparsed <? major current
                      then [CreateWhatsNewPanel] else [])
                  ++ callsAfterVersionCheck.
Proof.
  intros Hcurrent Hstored Hne Hreparsed.
  destruct (activate_run x current Hcurrent) as (w & _ & Hrun).
  rewrite (previousVersion_stored x _ Hstored Hne), Hreparsed in Hrun.
  rewrite Hrun. eexists. split; [reflexivity|]. by rewrite calls_mk.
Qed.

End ActivationFacts.

(** ** Properties of activation and of the outline views *)

Section ActivationProperties.
Context `{Host} `{VersionHost}.

(** X17. [deactivate] disposes every registered outline view once, in the
    order of registration, and leaves the registry empty; a second call
    disposes nothing. *)
Theorem X17_deactivate_disposes_every_outline v :
  List.NoDup (JsObject.keys (outlines v)) ->
  exists v',
    deactivate v = (Returned tt, v')
    /\ outlines v' = []
    /\ created v' = created v
    /\ disposed v' = disposed v ++ map snd (outlines v)
    /\ deactivate v' = (Returned tt, v').
Proof.
  intros Hnd. rewrite (deactivate_run v Hnd). eexists. split; [reflexivity|].
  cbn [outlines created disposed]. split_and!; [done|done|done|].
  rewrite deactivate_run by (cbn; constructor).
  cbn [outlines created disposed map]. by rewrite app_nil_r.
Qed.

(** X18. A change of selection in the outline view [id] sets the context
    value [id + "Selected"] to whether something is selected, and changes no
    other context value: not the value of another view and not the version
    and error flags. It fires nothing and touches no diagnostics. *)
Theorem X18_selection_sets_only_its_own_flag id selection w :
  exists w',
    onDidChangeSelection id selection w = (Returned tt, w')
    /\ contextValues w' !! (id +:+ "Selected")
       = Some (bool_decide (selection <> []))
    /\ (forall id', id' <> id ->
          contextValues w' !! (id' +:+ "Selected")
          = contextValues w !! (id' +:+ "Selected"))
    /\ contextValues w' !! "openapiTwoEnabled" = contextValues w !! "openapiTwoEnabled"
    /\ contextValues w' !! "openapiThreeEnabled"
       = contextValues w !! "openapiThreeEnabled"
    /\ contextValues w' !! "openapiErrors" = contextValues w !! "openapiErrors"
    /\ diagnostics w' = diagnostics w
    /\ didChangeTree w' = didChangeTree w
    /\ didChangeTreeIncludingErrors w' = didChangeTreeIncludingErrors w
    /\ didChangeEditor w' = didChangeEditor w.
Proof.
  eexists. split; [reflexivity|].
  cbn [contextValues diagnostics didChangeTree didChangeTreeIncludingErrors
       didChangeEditor].
  destruct (selected_key_fresh id) as (H2 & H3 & He).
  split_and!; try done.
  - rewrite lookup_insert_eq. f_equal. by destruct selection.
  - intros id' Hne. rewrite lookup_insert_ne; [done|].
    intros Heq. apply selected_key_inj in Heq. by subst.
  - by rewrite lookup_insert_ne.
  - by rewrite lookup_insert_ne.
  - by rewrite lookup_insert_ne.
Qed.

(** X19. When the current and the previous version parse, [activate]
    returns, stores the current version, and creates the what's-new panel
    exactly when the major number has grown; on a first installation (no
    stored version) the previous version is 0.0.1. *)
Theorem X19_whats_new_iff_major_grows x current previous :
  semver_parse packageJSON_version = Some current ->
  previousVersion x = Some previous ->
  exists x' new,
    activate x = (Returned tt, x')
    /\ calls x' = calls x ++ new
    /\ (In CreateWhatsNewPanel new <-> major previous < major current)
    /\ globalState x' = <["openapiVersion" := version current]> (globalState x)
    /\ (globalState x !! "openapiVersion" = None ->
        semver_parse "0.0.1" = Some previous).
Proof.
  intros Hcurrent Hprevious.
  destruct (activate_run x current Hcurrent) as (w & _ & Hrun).
  rewrite Hprevious in Hrun. rewrite Hrun.
  eexists _, _. split; [reflexivity|]. rewrite calls_mk, globalState_mk.
  split; [reflexivity|]. split_and!.
  - rewrite whatsNew_in_calls. apply Nat.ltb_lt.
  - done.
  - intros Hnone. unfold previousVersion in Hprevious. by rewrite Hnone in Hprevious.
Qed.

(** X20. Activating again never shows the what's-new panel: when the stored
    string of the current version parses back to a version with the same
    major number, the activation that follows one that returned returns too
    and does not create the panel. *)
Theorem X20_second_activation_shows_nothing x x1 current reparsed :
  semver_parse packageJSON_version = Some current ->
  version current <> "" ->
  semver_parse (version current) = Some reparsed ->
  major reparsed = major current ->
  activate x = (Returned tt, x1) ->
  exists x2 new,
    activate x1 = (Returned tt, x2)
    /\ calls x2 = calls x1 ++ new
    /\ ~ In CreateWhatsNewPanel new.
Proof.
  intros Hcurrent Hne Hreparsed Hmajor Hfirst.
  destruct (activate_stores_version x current _ x1 Hcurrent Hfirst) as (Hstored & _).
  destruct (activate_again x1 current reparsed Hcurrent Hstored Hne Hreparsed)
    as (x2 & Hsecond & Hcalls).
  exists x2. eexists. split; [done|]. split; [exact Hcalls|].
  rewrite whatsNew_in_calls, Hmajor, Nat.ltb_irrefl. done.
Qed.

(** X21. Started with no view, [activate] registers the twelve outline
    views under twelve different ids, in the order of the source, and they
    are all the views it creates; [deactivate] then disposes every one of
    them and leaves the registry empty. *)
Theorem X21_activate_then_deactivate_leaves_no_view x current previous :
  views x = noViews ->
  semver_parse packageJSON_version = Some current ->
  previousVersion x = Some previous ->
  exists x' v',
    activate x = (Returned tt, x')
    /\ JsObject.keys (outlines (views x')) = map fst outlineViews
    /\ List.NoDup (JsObject.keys (outlines (views x')))
    /\ created (views x') = map snd (outlines (views x'))
    /\ map treeDataProvider (created (views x')) = map snd outlineViews
    /\ deactivate (views x') = (Returned tt, v')
    /\ outlines v' = []
    /\ disposed v' = created v'.
Proof.
  intros Hviews Hcurrent Hprevious.
  destruct (activate_run x current Hcurrent) as (w & _ & Hrun).
  rewrite Hprevious, Hviews in Hrun. rewrite Hrun.
  assert (Hregistered : (registerOutlineViews noViews).2 = registeredViews)
    by (vm_compute; reflexivity).
  rewrite Hregistered.
  assert (Hnd : List.NoDup (JsObject.keys (outlines registeredViews))).
  { apply NoDup_ListNoDup. unfold registeredViews, JsObject.keys. cbn [outlines map fst].
    repeat (apply NoDup_cons; split;
            [intros Hin; repeat (apply elem_of_cons in Hin as [Hin|Hin];
                                 [discriminate Hin|]);
             by apply not_elem_of_nil in Hin|]).
    apply NoDup_nil_2. }
  eexists _, _. split; [reflexivity|]. rewrite !views_mk.
  rewrite (deactivate_run _ Hnd). cbn [outlines created disposed].
  split_and!; [reflexivity|exact Hnd|reflexivity|reflexivity|reflexivity
              |reflexivity|reflexivity].
Qed.

(** X22. [activate] starts from an empty diagnostic collection and new
    emitters and refreshes once for the editor that is active: afterwards
    the only diagnostics are the parse errors of the active document, the
    editor event has been fired once, and the active document, if any, has
    been parsed once. *)
Theorem X22_activate_refreshes_for_the_active_editor x current previous :
  semver_parse packageJSON_version = Some current ->
  previousVersion x = Some previous ->
  exists x',
    activate x = (Returned tt, x')
    /\ (forall u,
          diagnostics (world x') !! u
          = match activeTextEditor (world x) with
            | Some editor =>
                if decide (u = uri (document editor))
                then (parseDocument (document editor)).2
                else None
            | None => None
            end)
    /\ didChangeEditor (world x')
       = match activeTextEditor (world x) with
         | Some editor => [(Some editor, (parseDocument (document editor)).1.1)]
         | None => [(None, Unknown)]
         end
    /\ parsed (world x')
       = parsed (world x) ++ match activeTextEditor (world x) with
                             | Some editor => [document editor]
                             | None => []
                             end.
Proof.
  intros Hcurrent Hprevious.
  destruct (activate_run x current Hcurrent) as (w & Hw & Hrun).
  rewrite Hprevious in Hrun. rewrite Hrun.
  eexists. split; [reflexivity|]. rewrite !world_mk.
  destruct (activeTextEditor (world x)) as [editor|].
  - destruct (parseDocument (document editor)) as [[version node] [errors|]] eqn:Hparse.
    + rewrite (onActiveEditorChanged_errors _ _ _ _ _ Hparse) in Hw.
      injection Hw as <-. cbn. split_and!; [|done|done].
      intros u. case_decide as Hu.
      * subst u. by rewrite lookup_insert_eq.
      * rewrite lookup_insert_ne by done. apply lookup_empty.
    + rewrite (onActiveEditorChanged_valid _ _ _ _ Hparse) in Hw.
      injection Hw as <-. cbn. split_and!; [|done|done].
      intros u. case_decide as Hu.
      * subst u. by rewrite lookup_delete_eq.
      * rewrite lookup_delete_ne by done. apply lookup_empty.
  - rewrite onActiveEditorChanged_none in Hw. injection Hw as <-. cbn.
    split_and!; [|done|by rewrite app_nil_r]. intros u. apply lookup_empty.
Qed.

(** X23. The two ways [activate] throws. When the extension's own version
    does not parse it throws at once: nothing is stored, registered or
    called. When the stored version does not parse it throws at the version
    check, after the current version was stored and the audit and preview
    were activated, without creating the panel and without configuring; the
    next activation then returns, because the stored version has been
    replaced. *)
Theorem X23_activate_type_errors x :
  (semver_parse packageJSON_version = None ->
   exists x',
     activate x = (Thrown TypeError, x')
     /\ globalState x' = globalState x
     /\ views x' = views x
     /\ calls x' = calls x)
  /\ (forall current reparsed,
        semver_parse packageJSON_version = Some current ->
        previousVersion x = None ->
        version current <> "" ->
        semver_parse (version current) = Some reparsed ->
        exists x' new x'',
          activate x = (Thrown TypeError, x')
          /\ globalState x' !! "openapiVersion" = Some (version current)
          /\ calls x' = calls x ++ new
          /\ In AuditActivate new
          /\ ~ In CreateWhatsNewPanel new
          /\ ~ In ConfigurationConfigure new
          /\ activate x' = (Returned tt, x'')).
Proof.
  split.
  - intros Hcurrent. rewrite (activate_current_null x Hcurrent).
    eexists. split; [reflexivity|]. by rewrite globalState_mk, views_mk, calls_mk.
  - intros current reparsed Hcurrent Hprevious Hne Hreparsed.
    destruct (activate x) as [out x'] eqn:Hrun.
    destruct (activate_stores_version x current out x' Hcurrent Hrun)
      as (Hstored & _ & Hthrown).
    destruct (Hthrown Hprevious) as [-> Hcalls].
    destruct (activate_again x' current reparsed Hcurrent Hstored Hne Hreparsed)
      as (x'' & Hsecond & _).
    exists x', callsBeforeVersionCheck, x''. split_and!; try done.
    + unfold callsBeforeVersionCheck. repeat (first [by left|right]).
    + unfold callsBeforeVersionCheck. intros Hin.
      repeat (destruct Hin as [Hin|Hin]; [discriminate Hin|]). done.
    + unfold callsBeforeVersionCheck. intros Hin.
      repeat (destruct Hin as [Hin|Hin]; [discriminate Hin|]). done.
Qed.

End ActivationProperties.

(** ** The properties on concrete runs *)

Import Audit.

(** The schema is sent to the uri [7], an array index: it is listed before
    the main uri. *)
Lemma X1_uris_array_indices_then_main_witness :
  exists root uris ipd bad s',
    @processIssues Demo.auditHost Demo.mainDocument Demo.cache Demo.indexMappings
      Demo.reported noLoads
    = (Returned (root, uris, ipd, bad), s')
    /\ uris = ["7"; "file:///api.yaml"; "file:///schemas.yaml"]
    /\ List.NoDup uris
    /\ exists indices rest,
         uris = indices ++ "file:///api.yaml" :: rest
         /\ Forall (fun u => is_Some (JsObject.arrayIndex u)) indices.
Proof.
  eexists _, _, _, _, _. split; [vm_compute; reflexivity|].
  split; [reflexivity|].
  destruct (X1_uris_array_indices_then_main (H := Demo.auditHost)
              Demo.mainDocument Demo.cache Demo.indexMappings Demo.reported
              noLoads _ _ _ _ _ eq_refl) as (Hnd & _ & Hfirst).
  split; [exact Hnd|].
  destruct (Hfirst eq_refl) as (indices & rest & Heq & Hindices & _).
  exists indices, rest. split; [exact Heq|exact Hindices].
Defined.

Lemma X2_groups_never_empty_witness :
  exists root uris ipd bad s' group,
    @processIssues Demo.auditHost Demo.mainDocument Demo.cache Demo.mappings
      Demo.reported noLoads
    = (Returned (root, uris, ipd, bad), s')
    /\ JsObject.get ipd "file:///schemas.yaml" = Some group
    /\ group <> [].
Proof.
  eexists _, _, _, _, _, _. split; [vm_compute; reflexivity|].
  split; [reflexivity|].
  exact (proj2 (X2_groups_never_empty (H := Demo.auditHost)
                  Demo.mainDocument Demo.cache Demo.mappings Demo.reported
                  noLoads _ _ _ _ _ eq_refl "file:///schemas.yaml") _ eq_refl).
Defined.

Lemma X3_resolvable_issues_reach_their_group_witness :
  exists root uris ipd bad s',
    @processIssues Demo.auditHost Demo.mainDocument Demo.cache Demo.mappings
      Demo.reported noLoads
    = (Returned (root, uris, ipd, bad), s')
    /\ In Demo.petIssue (groupOf ipd "file:///api.yaml").
Proof.
  eexists _, _, _, _, _. split; [vm_compute; reflexivity|].
  refine (proj1 (X3_resolvable_issues_reach_their_group (H := Demo.auditHost)
                   Demo.mainDocument Demo.cache Demo.mappings Demo.reported
                   noLoads _ _ _ _ _ Demo.petIssue eq_refl _)
                ["/paths/~1pets/get"] _).
  - left. reflexivity.
  - reflexivity.
Defined.

Lemma X4_audit_groups_end_to_end_witness :
  exists grades issues documents bad s' reported,
    @auditDocument Demo.auditHost Demo.mainDocument "{}" Demo.cache Demo.mappings
      "token" tt noLoads = (Returned (grades, issues, documents, bad), s')
    /\ @audit Demo.auditHost "{}" "token" tt = Some (grades, reported)
    /\ length (groupOf issues "file:///schemas.yaml") = 2.
Proof.
  eexists _, _, _, _, _.
  destruct (X4_audit_groups_end_to_end (H := Demo.auditHost)
              Demo.mainDocument "{}" Demo.cache Demo.mappings "token" tt noLoads
              80 _ _ _ _ eq_refl) as (reported & Haudit & _).
  exists reported. split; [vm_compute; reflexivity|].
  split; [exact Haudit|reflexivity].
Defined.

Lemma X5_audit_counts_conserved_witness :
  exists grades issues documents bad s',
    @auditDocument Demo.auditHost Demo.mainDocument "{}" Demo.cache Demo.mappings
      "token" tt noLoads = (Returned (grades, issues, documents, bad), s')
    /\ countIssues issues + length bad = 4.
Proof.
  eexists _, _, _, _, _. split; [vm_compute; reflexivity|].
  destruct (X5_audit_counts_conserved (H := Demo.auditHost)
              Demo.mainDocument "{}" Demo.cache Demo.mappings "token" tt noLoads
              _ _ _ _ _ eq_refl) as (reported & Haudit & Hcount & _).
  injection Haudit as <-. exact Hcount.
Defined.

Lemma X6_audit_opens_exactly_the_external_groups_witness :
  exists grades issues documents bad s',
    @auditDocument Demo.auditHost Demo.mainDocument "{}" Demo.cache Demo.mappings
      "token" tt noLoads = (Returned (grades, issues, documents, bad), s')
    /\ opened s' = ["file:///schemas.yaml"]
    /\ JsObject.Object_keys documents = ["file:///api.yaml"; "file:///schemas.yaml"].
Proof.
  eexists _, _, _, _, _. split; [vm_compute; reflexivity|].
  split; [reflexivity|].
  destruct (X6_audit_opens_exactly_the_external_groups (H := Demo.auditHost)
              Demo.mainDocument "{}" Demo.cache Demo.mappings "token" tt noLoads
              _ _ _ _ _ eq_refl) as (new & Hopened & _ & _ & _ & Hdocuments).
  simpl in Hopened. destruct Hopened.
  destruct Hdocuments as (_ & _ & Horder); [discriminate|].
  apply Horder; [reflexivity|].
  intros u [<-|[]]. reflexivity.
Defined.

(** The schema is sent to the uri [constructor]: the lookup of its group
    finds [Object], which has no [push]. *)
Lemma X7_audit_type_error_iff_undefined_mapping_or_prototype_uri_witness :
  ~ (@mappingsAnswer Demo.auditHost
       (@getLastGoodDocumentAst Demo.auditHost Demo.cache Demo.mainDocument)
       Demo.prototypeMappings Demo.reported
     /\ @plainLocations Demo.auditHost "file:///api.yaml"
          (@getLastGoodDocumentAst Demo.auditHost Demo.cache Demo.mainDocument)
          Demo.prototypeMappings Demo.reported)
  /\ opened (@auditDocument Demo.auditHost Demo.mainDocument "{}" Demo.cache
               Demo.prototypeMappings "token" tt noLoads).2 = [].
Proof.
  pose proof (X7_audit_type_error_iff_undefined_mapping_or_prototype_uri (H := Demo.auditHost)
                Demo.mainDocument "{}" Demo.cache Demo.prototypeMappings "token" tt
                noLoads 80 Demo.reported eq_refl) as Hthrown.
  cbv zeta in Hthrown. destruct Hthrown as [Hiff Hopened].
  split.
  - apply Hiff. vm_compute. reflexivity.
  - apply Hopened. vm_compute. reflexivity.
Defined.

Lemma X8_audit_rejections_witness :
  (exists issues documents bad s',
     @auditDocument Demo.auditHost Demo.mainDocument "{}" Demo.cache Demo.mappings
       "token" tt noLoads = (Returned (80, issues, documents, bad), s'))
  \/ (exists s' before u,
        @auditDocument Demo.auditHost Demo.mainDocument "{}" Demo.cache Demo.mappings
          "token" tt noLoads = (Thrown Rejected, s')
        /\ opened s' = opened noLoads ++ before ++ [u]
        /\ @openTextDocument Demo.auditHost u = None).
Proof.
  exact (proj2 (X8_audit_rejections (H := Demo.auditHost)
                  Demo.mainDocument "{}" Demo.cache Demo.mappings "token" tt noLoads)
               80 Demo.reported eq_refl demo_mappingsAnswer demo_plainLocations).
Defined.

Lemma X24_issues_without_hash_are_bad_witness :
  exists uris ipd bad s',
    @processIssues Demo.auditHost Demo.mainDocument Demo.cache Demo.mappings
      Demo.reported noLoads
    = (Returned (@getLastGoodDocumentAst Demo.auditHost Demo.cache Demo.mainDocument,
                 uris, ipd, bad), s')
    /\ In Demo.unknownIssue bad.
Proof.
  destruct (X24_issues_without_hash_are_bad (H := Demo.auditHost)
              Demo.mainDocument Demo.cache Demo.mappings Demo.reported noLoads
              demo_mappingsAnswer demo_plainLocations)
    as (uris & ipd & bad & s' & Hrun & Hbad & _).
  exists uris, ipd, bad, s'. split; [exact Hrun|].
  refine (Hbad Demo.unknownIssue _ _ _ _ _).
  - vm_compute. tauto.
  - reflexivity.
  - reflexivity.
  - reflexivity.
Defined.

Import Extension.
Import Activation.

Lemma X9_editor_change_sets_version_and_notifies_witness :
  exists w',
    @onActiveEditorChanged Demo.editorHost
      (Some {| document := Demo.brokenDocument |}) Demo.world = (Returned tt, w')
    /\ contextValues w' !! "openapiThreeEnabled" = Some false
    /\ didChangeTree w' = [].
Proof.
  destruct (proj1 (X9_editor_change_sets_version_and_notifies (H := Demo.editorHost))
              {| document := Demo.brokenDocument |} Demo.world
              Unknown [] (Some ["syntax error"]) eq_refl)
    as (w' & Hrun & _ & Hthree & _ & _ & Htree & _).
  exists w'. split; [exact Hrun|]. split; [exact Hthree|exact Htree].
Defined.

Lemma X10_errors_flag_matches_diagnostics_witness :
  exists w',
    @onDocumentChanged Demo.editorHost {| event_document := Demo.brokenDocument |}
      Demo.world = (Returned tt, w')
    /\ contextValues w' !! "openapiErrors"
       = Some (bool_decide (is_Some (diagnostics w' !! "file:///api.yaml"))).
Proof.
  exact (proj1 (proj2 (X10_errors_flag_matches_diagnostics (H := Demo.editorHost)))
               {| event_document := Demo.brokenDocument |} Demo.world
               demo_broken_edit_active).
Defined.

Lemma X11_other_diagnostics_untouched_witness :
  diagnostics (@onDocumentChanged Demo.editorHost
                 {| event_document := Demo.brokenDocument |} Demo.world).2
    !! "file:///other.yaml"
  = @diagnostics Demo.editorHost Demo.world !! "file:///other.yaml".
Proof.
  apply (proj1 (proj2 (X11_other_diagnostics_untouched (H := Demo.editorHost)
                         "file:///other.yaml"))).
  discriminate.
Defined.

Lemma X12_repair_after_errors_witness :
  exists w1 w2,
    @onDocumentChanged Demo.editorHost {| event_document := Demo.brokenDocument |}
      Demo.world = (Returned tt, w1)
    /\ @onDocumentChanged Demo.editorHost {| event_document := Demo.mainDocument |}
         w1 = (Returned tt, w2)
    /\ contextValues w2 !! "openapiErrors" = Some false.
Proof.
  destruct (X12_repair_after_errors (H := Demo.editorHost)
              {| event_document := Demo.brokenDocument |}
              {| event_document := Demo.mainDocument |} Demo.world
              Unknown [] ["syntax error"] V3 ["/openapi"]
              demo_broken_edit_active eq_refl eq_refl eq_refl)
    as (w1 & w2 & Hbroken & Hrepaired & _ & Herrors & _).
  exists w1, w2. split; [exact Hbroken|]. split; [exact Hrepaired|exact Herrors].
Defined.

Lemma X14_update_diagnostics_agrees_with_edit_witness :
  exists w1 w2,
    @onDocumentChanged Demo.editorHost {| event_document := Demo.brokenDocument |}
      Demo.world = (Returned tt, w1)
    /\ @updateDiagnostics Demo.editorHost
         {| entry_uri := "file:///api.yaml";
            entry_errors :=
              Some (["syntax error"] : list (@Diagnostic Demo.editorHost)) |}
         Demo.world = (Returned tt, w2)
    /\ diagnostics w1 = diagnostics w2.
Proof.
  destruct (X14_update_diagnostics_agrees_with_edit (H := Demo.editorHost)
              {| event_document := Demo.brokenDocument |} Demo.world
              demo_broken_edit_active)
    as (w1 & w2 & Hedit & Hupdate & Hsame & _).
  exists w1, w2. split; [exact Hedit|]. split; [exact Hupdate|exact Hsame].
Defined.

Lemma X15_valid_tree_events_are_among_all_tree_events_witness :
  exists w',
    forOf (@deliver Demo.editorHost)
      [DidChangeTextDocument {| event_document := Demo.brokenDocument |};
       DidChangeActiveTextEditor None;
       DidChangeSelection "openapiThreePathOutline" []]
      tt Demo.world = (Returned tt, w')
    /\ sublist (didChangeTree w') (didChangeTreeIncludingErrors w').
Proof.
  apply (X15_valid_tree_events_are_among_all_tree_events (H := Demo.editorHost)).
  apply sublist_nil.
Defined.

Lemma X16_version_flags_stay_exclusive_witness :
  exists w',
    forOf (@deliver Demo.editorHost)
      [DidChangeActiveTextEditor (Some {| document := Demo.otherDocument |});
       DidChangeTextDocument {| event_document := Demo.otherDocument |}]
      tt Demo.world = (Returned tt, w')
    /\ ~ (contextValues w' !! "openapiTwoEnabled" = Some true
          /\ contextValues w' !! "openapiThreeEnabled" = Some true).
Proof.
  apply (X16_version_flags_stay_exclusive (H := Demo.editorHost)).
  intros [Htwo _]. vm_compute in Htwo. discriminate Htwo.
Defined.

Lemma demo_twoViews_distinct :
  List.NoDup (JsObject.keys (outlines DemoSession.twoViews)).
Proof.
  repeat constructor; simpl; intros Hin;
    repeat (destruct Hin as [Hin|Hin]; [discriminate Hin|]); exact Hin.
Defined.

Lemma X17_deactivate_disposes_every_outline_witness :
  exists v',
    deactivate DemoSession.twoViews = (Returned tt, v')
    /\ outlines v' = []
    /\ length (disposed v') = 2.
Proof.
  destruct (X17_deactivate_disposes_every_outline DemoSession.twoViews
              demo_twoViews_distinct) as (v' & Hrun & Houtlines & _ & Hdisposed & _).
  exists v'. split; [exact Hrun|]. split; [exact Houtlines|].
  rewrite Hdisposed. reflexivity.
Defined.

Lemma X19_whats_new_iff_major_grows_witness :
  exists x' new,
    @activate Demo.editorHost DemoSession.versionHost DemoSession.upgradeSession
    = (Returned tt, x')
    /\ calls x' = calls DemoSession.upgradeSession ++ new
    /\ In CreateWhatsNewPanel new.
Proof.
  destruct (X19_whats_new_iff_major_grows (H := Demo.editorHost)
              (H0 := DemoSession.versionHost) DemoSession.upgradeSession
              (DemoSession.v 4 0 0 "4.0.0") (DemoSession.v 3 9 1 "3.9.1")
              eq_refl eq_refl)
    as (x' & new & Hrun & Hcalls & Hpanel & _).
  exists x', new. split; [exact Hrun|]. split; [exact Hcalls|].
  apply Hpanel. simpl. lia.
Defined.

Lemma demo_first_activation :
  exists x1,
    @activate Demo.editorHost DemoSession.versionHost DemoSession.firstSession
    = (Returned tt, x1).
Proof.
  destruct (activate_run (H := Demo.editorHost) (H0 := DemoSession.versionHost)
              DemoSession.firstSession (DemoSession.v 4 0 0 "4.0.0") eq_refl)
    as (w & _ & Hrun).
  change (@previousVersion Demo.editorHost DemoSession.versionHost
            DemoSession.firstSession)
    with (Some (DemoSession.v 0 0 1 "0.0.1")) in Hrun.
  eexists. exact Hrun.
Defined.

Lemma X20_second_activation_shows_nothing_witness :
  exists x1 x2 new,
    @activate Demo.editorHost DemoSession.versionHost DemoSession.firstSession
    = (Returned tt, x1)
    /\ @activate Demo.editorHost DemoSession.versionHost x1 = (Returned tt, x2)
    /\ calls x2 = calls x1 ++ new
    /\ ~ In CreateWhatsNewPanel new.
Proof.
  destruct demo_first_activation as [x1 Hfirst].
  destruct (X20_second_activation_shows_nothing (H := Demo.editorHost)
              (H0 := DemoSession.versionHost) DemoSession.firstSession x1
              (DemoSession.v 4 0 0 "4.0.0") (DemoSession.v 4 0 0 "4.0.0"))
    as (x2 & new & Hsecond & Hcalls & Hpanel);
    [reflexivity|discriminate|reflexivity|reflexivity|exact Hfirst|].
  exists x1, x2, new. split; [exact Hfirst|]. split; [exact Hsecond|].
  split; [exact Hcalls|exact Hpanel].
Defined.

Lemma X21_activate_then_deactivate_leaves_no_view_witness :
  exists x' v',
    @activate Demo.editorHost DemoSession.versionHost DemoSession.firstSession
    = (Returned tt, x')
    /\ length (created (views x')) = 12
    /\ deactivate (views x') = (Returned tt, v')
    /\ outlines v' = []
    /\ disposed v' = created v'.
Proof.
  destruct (X21_activate_then_deactivate_leaves_no_view (H := Demo.editorHost)
              (H0 := DemoSession.versionHost) DemoSession.firstSession
              (DemoSession.v 4 0 0 "4.0.0") (DemoSession.v 0 0 1 "0.0.1")
              eq_refl eq_refl eq_refl)
    as (x' & v' & Hrun & _ & _ & _ & Hproviders & Hdeactivate & Houtlines & Hdisposed).
  exists x', v'. split; [exact Hrun|]. split.
  - rewrite <- (length_map treeDataProvider), Hproviders. reflexivity.
  - split; [exact Hdeactivate|]. split; [exact Houtlines|exact Hdisposed].
Defined.

Lemma X22_activate_refreshes_for_the_active_editor_witness :
  exists x',
    @activate Demo.editorHost DemoSession.versionHost DemoSession.firstSession
    = (Returned tt, x')
    /\ diagnostics (world x') !! "file:///api.yaml" = None
    /\ length (didChangeEditor (world x')) = 1.
Proof.
  destruct (X22_activate_refreshes_for_the_active_editor (H := Demo.editorHost)
              (H0 := DemoSession.versionHost) DemoSession.firstSession
              (DemoSession.v 4 0 0 "4.0.0") (DemoSession.v 0 0 1 "0.0.1")
              eq_refl eq_refl)
    as (x' & Hrun & Hdiag & Heditor & _).
  exists x'. split; [exact Hrun|]. split.
  - rewrite Hdiag. reflexivity.
  - rewrite Heditor. reflexivity.
Defined.

Lemma X23_activate_type_errors_witness :
  exists x' new x'',
    @activate Demo.editorHost DemoSession.versionHost DemoSession.corruptSession
    = (Thrown TypeError, x')
    /\ globalState x' !! "openapiVersion" = Some "4.0.0"
    /\ calls x' = calls DemoSession.corruptSession ++ new
    /\ ~ In ConfigurationConfigure new
    /\ @activate Demo.editorHost DemoSession.versionHost x' = (Returned tt, x'').
Proof.
  destruct (proj2 (X23_activate_type_errors (H := Demo.editorHost)
                     (H0 := DemoSession.versionHost) DemoSession.corruptSession)
              (DemoSession.v 4 0 0 "4.0.0") (DemoSession.v 4 0 0 "4.0.0"))
    as (x' & new & x'' & Hrun & Hstored & Hcalls & _ & _ & Hconfigure & Hnext);
    [reflexivity|reflexivity|discriminate|reflexivity|].
  exists x', new, x''. split; [exact Hrun|]. split; [exact Hstored|].
  split; [exact Hcalls|]. split; [exact Hconfigure|exact Hnext].
Defined.
